(** * The MySQL check of integrations-core: a shallow embedding

    Source: [mysql/datadog_checks/mysql/mysql.py].  The development follows
    the file top to bottom: the Python values and built-ins the check relies
    on, then [_get_metadata], [_get_host_key] and the query-cache store,
    [_version_compatible], the metric catalogue of [_collect_metrics], the
    replication classifier, the InnoDB status parser and the synthetic
    query-cache metrics.

    Conventions.
    - A Python [str] is a [string]: a sequence of code points below 256.
    - A Python [int] is a [Z]; a Python [float] is an IEEE binary64 value,
      [spec_float] with 53 bits of precision and [emax = 1024].
    - A call that may raise returns a [pyres]; the interpreter is Python 3
      ([long] is [int], comparing [None] with a number raises).
    - A [dict] whose order is never observed is a [gmap]. *)

From Stdlib Require Import ZArith List Bool Ascii String Lia.
From Stdlib Require Import SpecFloat DecimalString.
From Stdlib Require DecimalPos.
From stdpp Require Import base option gmap strings list.

Open Scope string_scope.
Open Scope Z_scope.

(** ** Exceptions and results *)

Inductive exn : Set :=
| IndexError | ValueError | OverflowError | KeyError
| TypeError | AttributeError | ZeroDivisionError.

Inductive pyres (A : Type) : Type :=
| Ok (a : A)
| Raise (e : exn).
Arguments Ok {A} a.
Arguments Raise {A} e.

Definition bind {A B} (m : pyres A) (k : A -> pyres B) : pyres B :=
  match m with
  | Ok a => k a
  | Raise e => Raise e
  end.

Notation "'let*' x := m 'in' k" := (bind m (fun x => k))
  (at level 10, x name, m at level 200, k at level 200, only parsing).

(** Statements over a mutable state [S]: the state a statement leaves behind
    is kept when it raises, which is what an [except] clause, or the next
    call on a shared object, then sees. *)
Definition Eff (S A : Type) : Type := S -> S * pyres A.

#[global] Instance eff_ret {S} : MRet (Eff S) := fun _ a st => (st, Ok a).
#[global] Instance eff_bind {S} : MBind (Eff S) := fun _ _ k m st =>
  match m st with
  | (st', Ok a) => k a st'
  | (st', Raise e) => (st', Raise e)
  end.

(** A computation that leaves the state alone. *)
Definition lift {S A} (r : pyres A) : Eff S A := fun st => (st, r).

(** ** Characters *)

Module Chr.

Definition code (c : ascii) : N := N_of_ascii c.

(** [c.isspace()] on the code points below 256. *)
Definition isspace (c : ascii) : bool :=
  let n := code c in
  ((9 <=? n) && (n <=? 13) || (28 <=? n) && (n <=? 32)
   || (n =? 133) || (n =? 160))%N.

(** The white space that [int] and [float] skip at both ends of a [str]:
    [c.isspace()] without the four separators 0x1c-0x1f. *)
Definition is_number_space (c : ascii) : bool :=
  let n := code c in
  ((9 <=? n) && (n <=? 13) || (n =? 32) || (n =? 133) || (n =? 160))%N.

(** The ASCII digits, the class [[0-9]] of [re]. *)
Definition is_ascii_digit (c : ascii) : bool :=
  let n := code c in ((48 <=? n) && (n <=? 57))%N.

(** [c.isdigit()]: the ASCII digits and the superscripts 1, 2 and 3. *)
Definition isdigit (c : ascii) : bool :=
  let n := code c in
  (is_ascii_digit c || (n =? 178) || (n =? 179) || (n =? 185))%N.

Definition digit_val (c : ascii) : Z := Z.of_N (code c) - 48.

(** [c.lower()]: A-Z, and the capital letters of Latin-1. *)
Definition lower (c : ascii) : ascii :=
  let n := code c in
  if ((65 <=? n) && (n <=? 90)
      || (192 <=? n) && (n <=? 222) && negb (n =? 215))%N
  then ascii_of_N (n + 32) else c.

Definition eqb (a b : ascii) : bool := Ascii.eqb a b.

End Chr.

(** ** String built-ins *)

Module Str.

Definition chars (s : string) : list ascii := list_ascii_of_string s.
Definition of_chars (l : list ascii) : string := string_of_list_ascii l.

Fixpoint drop_while (p : ascii -> bool) (l : list ascii) : list ascii :=
  match l with
  | [] => []
  | c :: l' => if p c then drop_while p l' else l
  end.

(** The common shape of [s.strip()] and [s.strip(chars)]. *)
Definition strip_by (p : ascii -> bool) (s : string) : string :=
  of_chars (rev (drop_while p (rev (drop_while p (chars s))))).

(** [s.strip()] *)
Definition strip (s : string) : string := strip_by Chr.isspace s.

(** [s.strip(c)] for a one-character argument. *)
Definition strip_char (c : ascii) (s : string) : string :=
  strip_by (Chr.eqb c) s.

(** [s.lower()] *)
Fixpoint lower (s : string) : string :=
  match s with
  | EmptyString => EmptyString
  | String c s' => String (Chr.lower c) (lower s')
  end.

(** [s.startswith(p)] *)
Fixpoint startswith (p s : string) : bool :=
  match p with
  | EmptyString => true
  | String a p' =>
      match s with
      | EmptyString => false
      | String b s' => Chr.eqb a b && startswith p' s'
      end
  end.

(** [s.find(p)]: the first index where [p] occurs, or -1. *)
Fixpoint find_from (p s : string) : option nat :=
  if startswith p s then Some 0%nat
  else match s with
       | EmptyString => None
       | String _ s' => option_map S (find_from p s')
       end.

Definition find (p s : string) : Z :=
  match find_from p s with
  | Some n => Z.of_nat n
  | None => -1
  end.

(** [s.isdigit()] *)
Definition isdigit (s : string) : bool :=
  match chars s with
  | [] => false
  | l => forallb Chr.isdigit l
  end.

(** [s.split(sep)] for a one-character separator. *)
Fixpoint split_aux (sep : ascii) (cur : list ascii) (s : string) : list string :=
  match s with
  | EmptyString => [of_chars (rev cur)]
  | String c s' =>
      if Chr.eqb sep c then of_chars (rev cur) :: split_aux sep [] s'
      else split_aux sep (c :: cur) s'
  end.

Definition split (sep : ascii) (s : string) : list string := split_aux sep [] s.

(** [re.split(" +", s)]: cut at every maximal run of spaces. *)
Fixpoint re_split_spaces_aux (cur : list ascii) (in_run : bool) (s : string)
  : list string :=
  match s with
  | EmptyString => [of_chars (rev cur)]
  | String c s' =>
      if Chr.eqb " " c then
        if in_run then re_split_spaces_aux cur true s'
        else of_chars (rev cur) :: re_split_spaces_aux [] true s'
      else re_split_spaces_aux (c :: cur) false s'
  end.

Definition re_split_spaces (s : string) : list string :=
  re_split_spaces_aux [] false s.

(** The line boundaries of [str.splitlines]. *)
Definition is_linebreak (c : ascii) : bool :=
  let n := Chr.code c in
  ((10 <=? n) && (n <=? 13) || (28 <=? n) && (n <=? 30) || (n =? 133))%N.

(** [s.splitlines()]: a carriage return followed by a line feed is one
    boundary, and a final boundary opens no empty last line. *)
Fixpoint splitlines_aux (cur : list ascii) (after_cr : bool) (s : string)
  : list string :=
  match s with
  | EmptyString => match cur with [] => [] | _ => [of_chars (rev cur)] end
  | String c s' =>
      if after_cr && Chr.eqb c "010" then splitlines_aux [] false s'
      else if is_linebreak c then
        of_chars (rev cur) :: splitlines_aux [] (Chr.eqb c "013") s'
      else splitlines_aux (c :: cur) false s'
  end.

Definition splitlines (s : string) : list string := splitlines_aux [] false s.

(** [str(n)] for an [int]. *)
Definition of_Z (z : Z) : string := NilZero.string_of_int (Z.to_int z).

(** The leading run of ASCII digits: group 1 of [re.match(r"([0-9]+)", s)],
    [None] when [s] does not start with a digit. *)
Fixpoint digit_run (s : string) : string :=
  match s with
  | EmptyString => EmptyString
  | String c s' => if Chr.is_ascii_digit c then String c (digit_run s') else EmptyString
  end.

Definition re_match_digits (s : string) : option string :=
  match digit_run s with
  | EmptyString => None
  | r => Some r
  end.

End Str.

(** ** Numbers: [int(s)], [float(s)] and binary64 arithmetic *)

Module Num.

Definition prec : Z := 53.
Definition emax : Z := 1024.

(** A Python [float]. *)
Definition float : Set := spec_float.

(** Digits with single underscores between them, as [int] and [float] read
    them; [prev] says that the previous character was a digit. *)
Fixpoint digits_value (acc : Z) (prev : bool) (l : list ascii) : option Z :=
  match l with
  | [] => if prev then Some acc else None
  | c :: l' =>
      if Chr.is_ascii_digit c then digits_value (10 * acc + Chr.digit_val c) true l'
      else if Chr.eqb c "_" && prev then
        match l' with
        | d :: _ => if Chr.is_ascii_digit d then digits_value acc false l' else None
        | [] => None
        end
      else None
  end.

Definition signed (l : list ascii) : bool * list ascii :=
  match l with
  | "-"%char :: r => (true, r)
  | "+"%char :: r => (false, r)
  | _ => (false, l)
  end.

(** [int(s)] (and [long(s)]) for a [str]: surrounding white space (not the
    separators 0x1c-0x1f, which [s.strip()] removes), a sign, decimal digits.  The interpreter's cap on the number of digits is not
    modelled. *)
Definition int_of_str (s : string) : pyres Z :=
  let '(neg, body) := signed (Str.chars (Str.strip_by Chr.is_number_space s)) in
  match digits_value 0 false body with
  | Some n => Ok (if neg then - n else n)
  | None => Raise ValueError
  end.

(** The binary64 value nearest to an integer (ties to even). *)
Definition of_Z (z : Z) : float := binary_normalize prec emax z 0 false.

(** The binary64 value nearest to [m * 10^e10] (ties to even), for a
    decimal mantissa [m >= 0] and the sign [neg]. *)
Definition of_decimal (neg : bool) (m : Z) (e10 : Z) : float :=
  if m =? 0 then S754_zero neg
  else if 0 <=? e10 then
    binary_normalize prec emax (cond_Zopp neg (m * 10 ^ e10)) 0 neg
  else
    let '(q, e, l) := SFdiv_core_binary prec emax m 0 (10 ^ (- e10)) 0 in
    binary_round_aux prec emax neg q e l.

(** [float(s)] removes underscores first: each must stand between two
    digits. *)
Fixpoint drop_underscores (prev : option ascii) (l : list ascii)
  : option (list ascii) :=
  match l with
  | [] => match prev with
          | Some "_"%char => None
          | _ => Some []
          end
  | c :: l' =>
      if Chr.eqb c "_" then
        match prev with
        | Some d => if Chr.is_ascii_digit d then drop_underscores (Some c) l' else None
        | None => None
        end
      else
        match prev with
        | Some "_"%char =>
            if Chr.is_ascii_digit c then cons c <$> drop_underscores (Some c) l'
            else None
        | _ => cons c <$> drop_underscores (Some c) l'
        end
  end.

(** A run of digits: its value, its length, and what follows it. *)
Fixpoint take_digits (acc : Z) (n : Z) (l : list ascii) : Z * Z * list ascii :=
  match l with
  | c :: l' =>
      if Chr.is_ascii_digit c then take_digits (10 * acc + Chr.digit_val c) (n + 1) l'
      else (acc, n, l)
  | [] => (acc, n, l)
  end.

(** The exponent part: [e] or [E], a sign, at least one digit, the end. *)
Definition exponent (l : list ascii) : option Z :=
  match l with
  | [] => Some 0
  | c :: r =>
      if Chr.eqb (Chr.lower c) "e" then
        let '(neg, ds) := signed r in
        match take_digits 0 0 ds with
        | (v, n, []) => if 0 <? n then Some (if neg then - v else v) else None
        | _ => None
        end
      else None
  end.

(** [float(s)] for a [str]. *)
Definition float_of_str (s : string) : pyres float :=
  match drop_underscores None (Str.chars (Str.strip_by Chr.is_number_space s)) with
  | None => Raise ValueError
  | Some l =>
      let '(neg, body) := signed l in
      let word := Str.lower (Str.of_chars body) in
      if String.eqb word "inf" || String.eqb word "infinity" then Ok (S754_infinity neg)
      else if String.eqb word "nan" then Ok S754_nan
      else
        let '(ip, n1, r1) := take_digits 0 0 body in
        let '(m, n2, r2) :=
          match r1 with
          | "."%char :: r => take_digits ip 0 r
          | _ => (ip, 0, r1)
          end in
        if n1 + n2 =? 0 then Raise ValueError
        else match exponent r2 with
             | Some e => Ok (of_decimal neg m (e - n2))
             | None => Raise ValueError
             end
  end.

(** [int(x)] for a [float]: towards zero. *)
Definition int_of_float (x : float) : pyres Z :=
  match x with
  | S754_zero _ => Ok 0
  | S754_infinity _ => Raise OverflowError
  | S754_nan => Raise ValueError
  | S754_finite s m e =>
      Ok (cond_Zopp s (if 0 <=? e then Zpos m * 2 ^ e else Zpos m / 2 ^ (- e)))
  end.

(** An [int] operand of a [float] operation. *)
Definition float_of_int (z : Z) : pyres float :=
  match of_Z z with
  | S754_infinity _ => Raise OverflowError
  | x => Ok x
  end.

Definition is_zero (x : float) : bool :=
  match x with
  | S754_zero _ => true
  | _ => false
  end.

Definition sub (x y : float) : float := SFsub prec emax x y.
Definition mul (x y : float) : float := SFmul prec emax x y.

(** [x / y] on floats raises on a zero divisor. *)
Definition div (x y : float) : pyres float :=
  if is_zero y then Raise ZeroDivisionError else Ok (SFdiv prec emax x y).

(** [x == y] on floats, used to read results back. *)
Definition eqb (x y : float) : bool := SFeqb x y.

End Num.

(** ** Sequences *)

(** [l[i]] for an index [i >= 0]. *)
Definition py_index {A} (l : list A) (i : nat) : pyres A :=
  match l !! i with
  | Some x => Ok x
  | None => Raise IndexError
  end.

(** [l[i:j]] for [0 <= i <= j]: clipped to the list, never raising. *)
Definition py_slice {A} (l : list A) (i j : nat) : list A :=
  take (j - i) (drop i l).

(** [a >= b] on triples of integers: lexicographic. *)
Definition triple_geb (a b : Z * Z * Z) : bool :=
  let '(a0, a1, a2) := a in
  let '(b0, b1, b2) := b in
  if a0 =? b0 then (if a1 =? b1 then b2 <=? a2 else b1 <? a1) else b0 <? a0.

(** ** [_get_metadata]: version, flavor and build of [SELECT VERSION()] *)

Record MySQLMetadata : Set := {
  version : string;
  flavor : string;
  build : string
}.

Section Metadata.

(** [const.BUILDS], the vocabulary of build tags; the constant lives in a
    module outside this file and is taken as given. *)
Variable BUILDS : list string.

(** One turn of the loop over [parts]. *)
Definition metadata_step (acc : string * string) (data : string) : string * string :=
  let '(flavor, build) := acc in
  let flavor := if String.eqb data "MariaDB" then "MariaDB" else flavor in
  let flavor :=
    if negb (String.eqb data "MariaDB") && String.eqb flavor "" then "MySQL" else flavor in
  let build := if bool_decide (data ∈ BUILDS) then data else build in
  (flavor, build).

(** [_get_metadata] on the string the query returned. *)
Definition _get_metadata (raw : string) : pyres MySQLMetadata :=
  let parts := Str.split "-" raw in
  let* version := py_index parts 0 in
  let '(flavor, build) := fold_left metadata_step parts ("", "") in
  let build := if String.eqb build "" then "unspecified" else build in
  Ok {| version := version; flavor := flavor; build := build |}.

End Metadata.

(** ** The connection target and [_get_host_key] *)

Record instance_config : Set := {
  host : string;          (* instance.get('server', '') *)
  port : Z;               (* int(instance.get('port', 0)) *)
  mysql_sock : string;    (* instance.get('sock', '') *)
  defaults_file : string  (* instance.get('defaults_file', '') *)
}.

(** Truth value of a [str]. *)
Definition str_truthy (s : string) : bool := negb (String.eqb s "").

(** ["{0}:{1}".format(a, b)] *)
Definition format_pair (a b : string) : string := a +:+ ":" +:+ b.

Definition _get_host_key (c : instance_config) : string :=
  if str_truthy (defaults_file c) then defaults_file c
  else
    let hostkey := host c in
    if str_truthy (mysql_sock c) then format_pair hostkey (mysql_sock c)
    else if negb (port c =? 0) then format_pair hostkey (Str.of_Z (port c))
    else hostkey.

(** ** [_version_compatible] *)

Definition _version_compatible (version : string) (compat_version : Z * Z * Z)
  : pyres bool :=
  let mysql_version := Str.split "." version in
  let* seg := py_index mysql_version 2 in
  let* run := match Str.re_match_digits seg with
        | Some r => Ok r
        | None => Raise AttributeError   (* [None.group(1)] *)
        end in
  let* patchlevel := Num.int_of_str run in
  let* s0 := py_index mysql_version 0 in
  let* major := Num.int_of_str s0 in
  let* s1 := py_index mysql_version 1 in
  let* minor := Num.int_of_str s1 in
  Ok (triple_geb (major, minor, patchlevel) compat_version).

(** ** The replication classifier of [_collect_metrics] *)

Inductive status : Set := OK | WARNING | CRITICAL | UNKNOWN.

Definition status_eqb (a b : status) : bool :=
  match a, b with
  | OK, OK | WARNING, WARNING | CRITICAL, CRITICAL | UNKNOWN, UNKNOWN => true
  | _, _ => false
  end.

(** What the helpers of [collection_utils] hand to the classifier.  The
    helpers are outside this file; their results are the inputs here. *)
Record replication_inputs : Type := {
  (* collect_string('Slave_running', results) *)
  slave_running : option string;
  (* truth value of results.get('Binlog_enabled', False) *)
  binlog_running : bool;
  (* collect_scalar('Slaves_connected', results): a count of threads *)
  slaves : option Z;
  (* collect_type('Slave_IO_Running', results, dict): the items per channel *)
  slave_io_running : option (list (string * string));
  (* collect_type('Slave_SQL_Running', results, dict) *)
  slave_sql_running : option (list (string * string));
  (* collect_string('Master_Host', results) *)
  master_host : option string
}.

(** A thread flag after lines 397-400: still [None], still the empty
    [dict], or collapsed to a [bool]. *)
Inductive thread_flag : Type :=
| FlagNone
| FlagEmptyDict
| FlagBool (b : bool).

(** [v.lower().strip() == word] *)
Definition reads (word : string) (v : string) : bool :=
  String.eqb (Str.strip (Str.lower v)) word.

(** [any(v.lower().strip() == 'yes' for v in itervalues(flag))] *)
Definition any_yes (items : list (string * string)) : bool :=
  existsb (fun kv => reads "yes" kv.2) items.

(** [if flag: flag = any(...)]: an empty [dict] is left as it is. *)
Definition collapse_flag (f : option (list (string * string))) : thread_flag :=
  match f with
  | None => FlagNone
  | Some [] => FlagEmptyDict
  | Some items => FlagBool (any_yes items)
  end.

Definition flag_is_none (f : thread_flag) : bool :=
  match f with
  | FlagNone => true
  | _ => false
  end.

Definition flag_truthy (f : thread_flag) : bool :=
  match f with
  | FlagBool b => b
  | _ => false
  end.

(** [slaves > 0]; a missing count cannot be compared. *)
Definition slaves_positive (slaves : option Z) : pyres bool :=
  match slaves with
  | Some n => Ok (0 <? n)
  | None => Raise TypeError
  end.

Definition _is_master (slaves : option Z) (master_host : option string) : pyres bool :=
  let* pos := slaves_positive slaves in
  Ok (pos || negb (from_option str_truthy false master_host)).

(** The rules at and above version 5.7.0, and below it. *)
Definition thread_rules (version : string) (slave_running : option string)
    (io sql : thread_flag) : pyres status :=
  let* compat := _version_compatible version (5, 7, 0) in
  if compat then
    Ok (if negb (flag_is_none io && flag_is_none sql) then
          if flag_truthy io && flag_truthy sql then OK
          else if negb (flag_truthy io) && negb (flag_truthy sql) then CRITICAL
          else WARNING
        else UNKNOWN)
  else
    let* word := match slave_running with
           | Some s => Ok s
           | None => Raise AttributeError   (* [None.lower()] *)
           end in
    Ok (if reads "off" word then
          if negb (flag_is_none io && flag_is_none sql) then
            if negb (flag_truthy io) && negb (flag_truthy sql) then CRITICAL
            else UNKNOWN
          else UNKNOWN
        else UNKNOWN).

(** The fallback for a status that is still unknown. *)
Definition fallback_rules (inp : replication_inputs) : pyres status :=
  let* master := _is_master (slaves inp) (master_host inp) in
  if master then
    let* pos := slaves_positive (slaves inp) in
    Ok (if pos && binlog_running inp then OK else WARNING)
  else
    Ok (match slave_running inp with
        | Some s =>
            if str_truthy s then (if reads "on" s then OK else CRITICAL) else UNKNOWN
        | None => UNKNOWN
        end).

Definition slave_running_status (version : string) (inp : replication_inputs)
  : pyres status :=
  let io := collapse_flag (slave_io_running inp) in
  let sql := collapse_flag (slave_sql_running inp) in
  let* st := thread_rules version (slave_running inp) io sql in
  if status_eqb st UNKNOWN then fallback_rules inp else Ok st.

(** The value of the deprecated gauge. *)
Definition slave_running_gauge (st : status) : Z :=
  if status_eqb st OK then 1 else 0.

(** What the replication block emits: the gauge and the service check. *)
Definition replication_signals (version : string) (inp : replication_inputs)
  : pyres (Z * status) :=
  let* st := slave_running_status version inp in
  Ok (slave_running_gauge st, st).

(** ** The InnoDB status parser, [_get_stats_from_innodb_status] *)

(** What the parser writes to the log. *)
Inductive log_event : Set :=
| WarnQueryFailed                      (* privilege error or engine unavailable *)
| WarnUnicode                          (* Unicode error while getting INNODB status *)
| WarnNoData                           (* 'SHOW ENGINE INNODB STATUS' returned no data *)
| WarnCantParse (line : string)        (* "Can't parse result line %s" *)
| WarnCantParseValue (line : string)   (* "Can't parse result line %s: %s" *)
| ErrorLsnMissing.                     (* "Not all InnoDB LSN metrics available ..." *)

(** The locals of the scan: [results] is a [defaultdict(int)]. *)
Record scan_state : Type := {
  results : gmap string Z;
  txn_seen : bool;
  prev_line : string;
  buffer_id : Z;
  logged : list log_event
}.

Definition initial_scan : scan_state :=
  {| results := ∅; txn_seen := false; prev_line := ""; buffer_id := -1; logged := [] |}.

(** Statements over the locals. *)
Abbreviation Scan := (Eff scan_state).

Module Stmt.

Definition pass : Scan unit := mret tt.

(** [results[k] = v] *)
Definition setitem (k : string) (v : Z) : Scan unit := fun st =>
  ({| results := <[k := v]> (results st); txn_seen := txn_seen st;
      prev_line := prev_line st; buffer_id := buffer_id st; logged := logged st |},
   Ok tt).

(** [results[k]] read: a missing key is first stored with the value 0. *)
Definition getitem (k : string) : Scan Z := fun st =>
  match results st !! k with
  | Some v => (st, Ok v)
  | None =>
      ({| results := <[k := 0]> (results st); txn_seen := txn_seen st;
          prev_line := prev_line st; buffer_id := buffer_id st; logged := logged st |},
       Ok 0)
  end.

(** [results[k] += e]: the old value is read before [e] is evaluated. *)
Definition iadd (k : string) (e : Scan Z) : Scan unit :=
  old ← getitem k; v ← e; setitem k (old + v).

Definition set_txn_seen (b : bool) : Scan unit := fun st =>
  ({| results := results st; txn_seen := b; prev_line := prev_line st;
      buffer_id := buffer_id st; logged := logged st |}, Ok tt).

Definition set_prev_line (l : string) : Scan unit := fun st =>
  ({| results := results st; txn_seen := txn_seen st; prev_line := l;
      buffer_id := buffer_id st; logged := logged st |}, Ok tt).

Definition set_buffer_id (n : Z) : Scan unit := fun st =>
  ({| results := results st; txn_seen := txn_seen st; prev_line := prev_line st;
      buffer_id := n; logged := logged st |}, Ok tt).

Definition log (ev : log_event) : Scan unit := fun st =>
  ({| results := results st; txn_seen := txn_seen st; prev_line := prev_line st;
      buffer_id := buffer_id st; logged := logged st ++ [ev] |}, Ok tt).

Definition exn_eqb (a b : exn) : bool :=
  match a, b with
  | IndexError, IndexError | ValueError, ValueError | OverflowError, OverflowError
  | KeyError, KeyError | TypeError, TypeError | AttributeError, AttributeError
  | ZeroDivisionError, ZeroDivisionError => true
  | _, _ => false
  end.

(** [try: body except e: handler] *)
Definition try_except (e : exn) (body handler : Scan unit) : Scan unit := fun st =>
  match body st with
  | (st', Ok tt) => (st', Ok tt)
  | (st', Raise e') => if exn_eqb e e' then handler st' else (st', Raise e')
  end.

(** [long(row[i])] *)
Definition long_at (row : list string) (i : nat) : Scan Z :=
  lift (let* tok := py_index row i in Num.int_of_str tok).

(** [long(float(row[i]))] *)
Definition long_float_at (row : list string) (i : nat) : Scan Z :=
  lift (let* tok := py_index row i in
        let* x := Num.float_of_str tok in
        Num.int_of_float x).

(** [results[k] = long(row[i])] *)
Definition store (k : string) (row : list string) (i : nat) : Scan unit :=
  v ← long_at row i; setitem k v.

End Stmt.

(** [_are_values_numeric] *)
Definition _are_values_numeric (array : list string) : bool :=
  forallb Str.isdigit array.

(** The tokens of a line: split on runs of spaces, then strip [,], [;],
    then the two square brackets from every token, in that order. *)
Definition tokens (line : string) : list string :=
  let row := Str.re_split_spaces line in
  let row := map (Str.strip_char ",") row in
  let row := map (Str.strip_char ";") row in
  let row := map (Str.strip_char "[") row in
  map (Str.strip_char "]") row.

Section LineTests.

Variable line : string.

(** [line.find(p) == 0] *)
Definition at_start (p : string) : bool := Str.find p line =? 0.
(** [line.find(p) > 0] *)
Definition inside (p : string) : bool := 0 <? Str.find p line.
(** [line.find(p) == -1] *)
Definition absent (p : string) : bool := Str.find p line =? -1.
(** [line.find(p) > -1] *)
Definition present (p : string) : bool := -1 <? Str.find p line.

End LineTests.

Section LineHandlers.

Import Stmt.

Variable line : string.
Variable row : list string.

(** The body of the [try] under 'Pending normal aio reads:': the layout is
    chosen by the number of tokens. *)
Definition pending_normal_aio_body : Scan unit :=
  let n := length row in
  if (n =? 8)%nat then
    store "Innodb_pending_normal_aio_reads" row 4;;
    store "Innodb_pending_normal_aio_writes" row 7
  else if (n =? 14)%nat then
    store "Innodb_pending_normal_aio_reads" row 4;;
    store "Innodb_pending_normal_aio_writes" row 10
  else if (n =? 16)%nat then
    if _are_values_numeric (py_slice row 4 8) && _are_values_numeric (py_slice row 11 15)
    then
      a ← long_at row 4; b ← long_at row 5; c ← long_at row 6; d ← long_at row 7;
      setitem "Innodb_pending_normal_aio_reads" (a + b + c + d);;
      a ← long_at row 11; b ← long_at row 12; c ← long_at row 13; d ← long_at row 14;
      setitem "Innodb_pending_normal_aio_writes" (a + b + c + d)
    else if _are_values_numeric (py_slice row 4 9) && _are_values_numeric (py_slice row 12 15)
    then
      store "Innodb_pending_normal_aio_reads" row 4;;
      store "Innodb_pending_normal_aio_writes" row 12
    else log (WarnCantParse line)
  else if (n =? 18)%nat then
    store "Innodb_pending_normal_aio_reads" row 4;;
    store "Innodb_pending_normal_aio_writes" row 12
  else if (n =? 22)%nat then
    store "Innodb_pending_normal_aio_reads" row 4;;
    store "Innodb_pending_normal_aio_writes" row 16
  else pass.

Definition pending_normal_aio : Scan unit :=
  try_except ValueError pending_normal_aio_body (log (WarnCantParseValue line)).

Definition ibuf_aio_reads : Scan unit :=
  let n := length row in
  if (n =? 10)%nat then
    store "Innodb_pending_ibuf_aio_reads" row 3;;
    store "Innodb_pending_aio_log_ios" row 6;;
    store "Innodb_pending_aio_sync_ios" row 9
  else if (n =? 7)%nat then
    setitem "Innodb_pending_ibuf_aio_reads" 0;;
    setitem "Innodb_pending_aio_log_ios" 0;;
    setitem "Innodb_pending_aio_sync_ios" 0
  else pass.

Definition lock_structs : Scan unit :=
  if at_start line "LOCK WAIT" then
    iadd "Innodb_lock_structs" (long_at row 2);;
    iadd "Innodb_locked_transactions" (mret 1)
  else if at_start line "ROLLING BACK" then
    iadd "Innodb_lock_structs" (long_at row 2)
  else iadd "Innodb_lock_structs" (long_at row 0).

Definition ibuf_merged_operations : Scan unit :=
  store "Innodb_ibuf_merged_inserts" row 1;;
  store "Innodb_ibuf_merged_delete_marks" row 4;;
  store "Innodb_ibuf_merged_deletes" row 6;;
  a ← getitem "Innodb_ibuf_merged_inserts";
  b ← getitem "Innodb_ibuf_merged_delete_marks";
  c ← getitem "Innodb_ibuf_merged_deletes";
  setitem "Innodb_ibuf_merged" (a + b + c).

(** The [if]/[elif] chain of the loop body, in the order of the source. *)
Definition dispatch (txn_seen : bool) (prev_line : string) (buffer_id : Z) : Scan unit :=
  (* SEMAPHORES *)
  if at_start line "Mutex spin waits" then
    store "Innodb_mutex_spin_waits" row 3;;
    store "Innodb_mutex_spin_rounds" row 5;;
    store "Innodb_mutex_os_waits" row 8
  else if at_start line "RW-shared spins" && inside line ";" then
    store "Innodb_s_lock_spin_waits" row 2;;
    store "Innodb_x_lock_spin_waits" row 8;;
    store "Innodb_s_lock_os_waits" row 5;;
    store "Innodb_x_lock_os_waits" row 11
  else if at_start line "RW-shared spins" && absent line "; RW-excl spins" then
    store "Innodb_s_lock_spin_waits" row 2;;
    store "Innodb_s_lock_spin_rounds" row 4;;
    store "Innodb_s_lock_os_waits" row 7
  else if at_start line "RW-excl spins" then
    store "Innodb_x_lock_spin_waits" row 2;;
    store "Innodb_x_lock_spin_rounds" row 4;;
    store "Innodb_x_lock_os_waits" row 7
  else if inside line "seconds the semaphore:" then
    iadd "Innodb_semaphore_waits" (mret 1);;
    iadd "Innodb_semaphore_wait_time" (v ← long_float_at row 9; mret (v * 1000))
  (* TRANSACTIONS *)
  else if at_start line "Trx id counter" then
    set_txn_seen true
  else if at_start line "History list length" then
    store "Innodb_history_list_length" row 3
  else if txn_seen && at_start line "---TRANSACTION" then
    iadd "Innodb_current_transactions" (mret 1);;
    if inside line "ACTIVE" then iadd "Innodb_active_transactions" (mret 1) else pass
  else if txn_seen && at_start line "------- TRX HAS BEEN" then
    iadd "Innodb_row_lock_time" (v ← long_at row 5; mret (v * 1000))
  else if inside line "read views open inside InnoDB" then
    store "Innodb_read_views" row 0
  else if at_start line "mysql tables in use" then
    iadd "Innodb_tables_in_use" (long_at row 4);;
    iadd "Innodb_locked_tables" (long_at row 6)
  else if txn_seen && inside line "lock struct(s)" then
    lock_structs
  (* FILE I/O *)
  else if inside line " OS file reads, " then
    store "Innodb_os_file_reads" row 0;;
    store "Innodb_os_file_writes" row 4;;
    store "Innodb_os_file_fsyncs" row 8
  else if at_start line "Pending normal aio reads:" then
    pending_normal_aio
  else if at_start line "ibuf aio reads" then
    ibuf_aio_reads
  else if at_start line "Pending flushes (fsync)" then
    store "Innodb_pending_log_flushes" row 4;;
    store "Innodb_pending_buffer_pool_flushes" row 7
  (* INSERT BUFFER AND ADAPTIVE HASH INDEX *)
  else if at_start line "Ibuf for space 0: size " then
    store "Innodb_ibuf_size" row 5;;
    store "Innodb_ibuf_free_list" row 9;;
    store "Innodb_ibuf_segment_size" row 12
  else if at_start line "Ibuf: size " then
    store "Innodb_ibuf_size" row 2;;
    store "Innodb_ibuf_free_list" row 6;;
    store "Innodb_ibuf_segment_size" row 9;;
    if present line "merges" then store "Innodb_ibuf_merges" row 10 else pass
  else if inside line ", delete mark " && at_start prev_line "merged operations:" then
    ibuf_merged_operations
  else if inside line " merged recs, " then
    store "Innodb_ibuf_merged_inserts" row 0;;
    store "Innodb_ibuf_merged" row 2;;
    store "Innodb_ibuf_merges" row 5
  else if at_start line "Hash table size " then
    store "Innodb_hash_index_cells_total" row 3;;
    if inside line "used cells" then store "Innodb_hash_index_cells_used" row 6
    else setitem "Innodb_hash_index_cells_used" 0
  (* LOG *)
  else if inside line " log i/o's done, " then
    store "Innodb_log_writes" row 0
  else if inside line " pending log writes, " then
    store "Innodb_pending_log_writes" row 0;;
    store "Innodb_pending_checkpoint_writes" row 4
  else if at_start line "Log sequence number" then
    store "Innodb_lsn_current" row 3
  else if at_start line "Log flushed up to" then
    store "Innodb_lsn_flushed" row 4
  else if at_start line "Last checkpoint at" then
    store "Innodb_lsn_last_checkpoint" row 3
  (* BUFFER POOL AND MEMORY *)
  else if at_start line "Total memory allocated"
          && inside line "in additional pool allocated" then
    store "Innodb_mem_total" row 3;;
    store "Innodb_mem_additional_pool" row 8
  else if at_start line "Adaptive hash index " then
    store "Innodb_mem_adaptive_hash" row 3
  else if at_start line "Page hash           " then
    store "Innodb_mem_page_hash" row 2
  else if at_start line "Dictionary cache    " then
    store "Innodb_mem_dictionary" row 2
  else if at_start line "File system         " then
    store "Innodb_mem_file_system" row 2
  else if at_start line "Lock system         " then
    store "Innodb_mem_lock_system" row 2
  else if at_start line "Recovery system     " then
    store "Innodb_mem_recovery_system" row 2
  else if at_start line "Threads             " then
    store "Innodb_mem_thread_hash" row 1
  else if at_start line "Buffer pool size " then
    if buffer_id =? -1 then store "Innodb_buffer_pool_pages_total" row 3 else pass
  else if at_start line "Free buffers" then
    if buffer_id =? -1 then store "Innodb_buffer_pool_pages_free" row 2 else pass
  else if at_start line "Database pages" then
    if buffer_id =? -1 then store "Innodb_buffer_pool_pages_data" row 2 else pass
  else if at_start line "Modified db pages" then
    if buffer_id =? -1 then store "Innodb_buffer_pool_pages_dirty" row 3 else pass
  else if at_start line "Pages read ahead" then
    pass
  else if at_start line "Pages read" then
    if buffer_id =? -1 then
      store "Innodb_pages_read" row 2;;
      store "Innodb_pages_created" row 4;;
      store "Innodb_pages_written" row 6
    else pass
  (* ROW OPERATIONS *)
  else if at_start line "Number of rows inserted" then
    store "Innodb_rows_inserted" row 4;;
    store "Innodb_rows_updated" row 6;;
    store "Innodb_rows_deleted" row 8;;
    store "Innodb_rows_read" row 10
  else if inside line " queries inside InnoDB, " then
    store "Innodb_queries_inside" row 0;;
    store "Innodb_queries_queued" row 4
  else pass.

End LineHandlers.

(** The entries written by the buffer-pool lines that are read only while
    [buffer_id] is -1. *)
Definition aggregate_keys : list string :=
  ["Innodb_buffer_pool_pages_total"; "Innodb_buffer_pool_pages_free";
   "Innodb_buffer_pool_pages_data"; "Innodb_buffer_pool_pages_dirty";
   "Innodb_pages_read"; "Innodb_pages_created"; "Innodb_pages_written"].

(** The two entries written under 'Pending normal aio reads:'. *)
Definition pending_aio_keys : list string :=
  ["Innodb_pending_normal_aio_reads"; "Innodb_pending_normal_aio_writes"].

(** The token counts for which that line has a known layout. *)
Definition pending_aio_layouts : list nat := [8; 14; 16; 18; 22]%nat.

(** [long(row[i])] gives an integer. *)
Definition readable (row : list string) (i : nat) : bool :=
  match (let* tok := py_index row i in Num.int_of_str tok) with
  | Ok _ => true
  | Raise _ => false
  end.

(** The tokens that the branch 'Pending normal aio reads:' reads as numbers,
    by the layout of the line, in the order in which it reads them. *)
Definition pending_aio_offsets (row : list string) : list nat :=
  let n := length row in
  (if n =? 8 then [4; 7]
   else if n =? 14 then [4; 10]
   else if n =? 16 then
     if _are_values_numeric (py_slice row 4 8) && _are_values_numeric (py_slice row 11 15)
     then [4; 5; 6; 7; 11; 12; 13; 14]
     else if _are_values_numeric (py_slice row 4 9)
             && _are_values_numeric (py_slice row 12 15)
     then [4; 12]
     else []
   else if n =? 18 then [4; 12]
   else if n =? 22 then [4; 16]
   else [])%nat.

(** A line of 16 tokens that matches neither of the two layouts of 16. *)
Definition pending_aio_unparsed (row : list string) : bool :=
  (length row =? 16)%nat
  && negb (_are_values_numeric (py_slice row 4 8)
           && _are_values_numeric (py_slice row 11 15))
  && negb (_are_values_numeric (py_slice row 4 9)
           && _are_values_numeric (py_slice row 12 15)).

(** [raw] is a line '---BUFFER POOL n': it sets [buffer_id] to [n]. *)
Definition names_pool (raw : string) (n : Z) : Prop :=
  Str.startswith "---BUFFER POOL" (Str.strip raw) = true
  /\ (let* tok := py_index (tokens (Str.strip raw)) 2 in Num.int_of_str tok) = Ok n.

(** One turn of the loop over the lines of the status text. *)
Definition scan_line (raw : string) : Scan unit :=
  let line := Str.strip raw in
  let row := tokens line in
  (if Str.startswith "---BUFFER POOL" line
   then Stmt.long_at row 2 ≫= Stmt.set_buffer_id
   else Stmt.pass);;
  (fun st => dispatch line row (txn_seen st) (prev_line st) (buffer_id st) st);;
  Stmt.set_prev_line line.

Fixpoint scan_lines (lines : list string) : Scan unit :=
  match lines with
  | [] => Stmt.pass
  | raw :: rest => scan_line raw;; scan_lines rest
  end.

(** The statement after the loop: the difference of two entries of the
    [defaultdict], under a [try] that waits for a [KeyError]. *)
Definition checkpoint_age : Scan unit :=
  Stmt.try_except KeyError
    (cur ← Stmt.getitem "Innodb_lsn_current";
     last ← Stmt.getitem "Innodb_lsn_last_checkpoint";
     Stmt.setitem "Innodb_checkpoint_age" (cur - last))
    (Stmt.log ErrorLsnMissing).

(** The parse of a status text, from the first line to the derived value. *)
Definition parse_innodb_status (innodb_status_text : string) : Scan unit :=
  scan_lines (Str.splitlines innodb_status_text);; checkpoint_age.

(** How the query [SHOW ENGINE INNODB STATUS] ended. *)
Inductive innodb_query : Type :=
| QueryDenied                          (* InternalError, OperationalError, NotSupportedError *)
| QueryUnicodeError                    (* UnicodeDecodeError, UnicodeEncodeError *)
| QueryNoRows                          (* cursor.rowcount < 1 *)
| QueryText (innodb_status_text : string).

(** [_get_stats_from_innodb_status]: what it logs, and the mapping it returns
    with every value turned into a [str]. *)
Definition _get_stats_from_innodb_status (q : innodb_query)
  : list log_event * pyres (gmap string string) :=
  match q with
  | QueryDenied => ([WarnQueryFailed], Ok ∅)
  | QueryUnicodeError => ([WarnUnicode], Ok ∅)
  | QueryNoRows => ([WarnNoData], Ok ∅)
  | QueryText text =>
      match parse_innodb_status text initial_scan with
      | (st, Ok _) => (logged st, Ok (Str.of_Z <$> results st))
      | (st, Raise e) => (logged st, Raise e)
      end
  end.

(** ** The query-cache store and the synthetic metrics *)

(** A scalar held by the [results] mapping of a pass.  The entries that hold
    a [dict] (per channel, per schema) are not read by the code below. *)
Inductive pyval : Type :=
| VNone
| VStr (s : string)
| VInt (z : Z)
| VFloat (x : Num.float).

(** [int(v)] *)
Definition to_int (v : pyval) : pyres Z :=
  match v with
  | VNone => Raise TypeError
  | VStr s => Num.int_of_str s
  | VInt z => Ok z
  | VFloat x => Num.int_of_float x
  end.

(** [float(v)] *)
Definition to_float (v : pyval) : pyres Num.float :=
  match v with
  | VNone => Raise TypeError
  | VStr s => Num.float_of_str s
  | VInt z => Num.float_of_int z
  | VFloat x => Ok x
  end.

(** The three attributes [_qcache_hits], [_qcache_inserts] and
    [_qcache_not_cached], and an entry of [qcache_stats]. *)
Record qcache_entry : Set := {
  _qcache_hits : option Z;
  _qcache_inserts : option Z;
  _qcache_not_cached : option Z
}.

(** The check instance, as far as the query cache goes. *)
Record check_self : Type := {
  instance : instance_config;
  qcache_stats : gmap string qcache_entry;
  qcache : qcache_entry
}.

Definition no_sample : qcache_entry :=
  {| _qcache_hits := None; _qcache_inserts := None; _qcache_not_cached := None |}.

Definition _set_qcache_stats (self : check_self) : check_self :=
  let host_key := _get_host_key (instance self) in
  let qcache_st := default no_sample (qcache_stats self !! host_key) in
  {| instance := instance self; qcache_stats := qcache_stats self; qcache := qcache_st |}.

Definition _put_qcache_stats (self : check_self) : check_self :=
  let host_key := _get_host_key (instance self) in
  {| instance := instance self;
     qcache_stats := <[host_key := qcache self]> (qcache_stats self);
     qcache := qcache self |}.

(** [all(v is not None for v in (hits, inserts, not_cached))] *)
Definition previous_sample (q : qcache_entry) : option (Z * Z * Z) :=
  match _qcache_hits q, _qcache_inserts q, _qcache_not_cached q with
  | Some h, Some i, Some n => Some (h, i, n)
  | _, _, _ => None
  end.

(** The cumulative utilization, lines 1141-1148. *)
Definition qcache_utilization (hits inserts not_cached : pyval) : pyres pyval :=
  let* h := to_int hits in
  if h =? 0 then Ok (VInt 0)
  else
    let* top := to_float hits in
    let* i := to_int inserts in
    let* n := to_int not_cached in
    let* h := to_int hits in
    let* bottom := Num.float_of_int (i + n + h) in
    let* ratio := Num.div top bottom in
    Ok (VFloat (Num.mul ratio (Num.of_Z 100))).

(** The utilization since the previous sample, lines 1151-1160. *)
Definition qcache_instant_utilization (prev : Z * Z * Z)
    (hits inserts not_cached : pyval) : pyres pyval :=
  let '(prev_hits, prev_inserts, prev_not_cached) := prev in
  let* h := to_int hits in
  if h - prev_hits =? 0 then Ok (VInt 0)
  else
    let* fh := to_float hits in
    let* fp := Num.float_of_int prev_hits in
    let top := Num.sub fh fp in
    let* i := to_int inserts in
    let* n := to_int not_cached in
    let* h := to_int hits in
    let bottom := (i - prev_inserts) + (n - prev_not_cached) + (h - prev_hits) in
    let* fbottom := Num.float_of_int bottom in
    let* ratio := Num.div top fbottom in
    Ok (VFloat (Num.mul ratio (Num.of_Z 100))).

(** [_compute_synthetic_results]: the new [results] and the new attributes. *)
Definition _compute_synthetic_results (q : qcache_entry) (results : gmap string pyval)
  : pyres (gmap string pyval * qcache_entry) :=
  match results !! "Qcache_hits", results !! "Qcache_inserts",
        results !! "Qcache_not_cached" with
  | Some hits, Some inserts, Some not_cached =>
      let* u := qcache_utilization hits inserts not_cached in
      let results := <["Qcache_utilization" := u]> results in
      let* results :=
        match previous_sample q with
        | Some prev =>
            let* v := qcache_instant_utilization prev hits inserts not_cached in
            Ok (<["Qcache_instant_utilization" := v]> results)
        | None => Ok results
        end in
      (* update all three, or none - for consistent samples. *)
      let* h := to_int hits in
      let* i := to_int inserts in
      let* n := to_int not_cached in
      Ok (results,
          {| _qcache_hits := Some h; _qcache_inserts := Some i;
             _qcache_not_cached := Some n |})
  | _, _, _ => Ok (results, q)
  end.

(** ** The metric catalogue of [_collect_metrics] *)

Inductive metric_type : Set := RATE | GAUGE | COUNT | MONOTONIC.

(** A table of descriptors: variable name to (metric name, type). *)
Abbreviation catalog := (gmap string (string * metric_type)).

(** The tables of [const] that [_collect_metrics] only reads.  The module is
    outside this file: the tables are taken as given. *)
Record const_tables : Type := {
  VARIABLES_VARS : catalog;
  INNODB_VARS : catalog;
  BINLOG_VARS : catalog;
  OPTIONAL_STATUS_VARS : catalog;
  OPTIONAL_STATUS_VARS_5_6_6 : catalog;
  GALERA_VARS : catalog;
  PERFORMANCE_VARS : catalog;
  SCHEMA_VARS : catalog;
  REPLICA_VARS : catalog;
  SYNTHETIC_VARS : catalog;
  OPTIONAL_INNODB_VARS : catalog
}.

(** The toggles of [options], each already read through [is_affirmative]. *)
Record options : Set := {
  disable_innodb_metrics : bool;
  extra_innodb_metrics : bool;
  extra_status_metrics : bool;
  galera_cluster : bool;
  extra_performance_metrics : bool;
  schema_size_metrics : bool;
  replication : bool
}.

(** What one pass learns from the server, as far as the catalogue, the
    replication signals and the synthetic metrics depend on it. *)
Record pass_inputs : Type := {
  opts : options;
  (* self.metadata.version *)
  server_version : string;
  (* self._is_innodb_engine_enabled(db) *)
  innodb_engine_enabled : bool;
  (* truth value of self._get_variable_enabled(results, 'performance_schema') *)
  performance_schema_enabled : bool;
  (* the values collected for the replication block *)
  replica : replication_inputs;
  (* the scalars of [results] when the synthetic metrics are computed *)
  merged_results : gmap string pyval
}.

(** What one pass hands on: the catalogue and the results given to
    [_submit_metrics], the replication gauge and service check when
    replication is monitored, and the query-cache attributes. *)
Record pass_outputs : Type := {
  submitted_metrics : catalog;
  submitted_results : gmap string pyval;
  replication_emitted : option (Z * status);
  qcache_after : qcache_entry
}.

(** Statements over the module-level dict [STATUS_VARS]: [metrics] is another
    name for that one object, so every [metrics.update] and [metrics.pop]
    changes the dict the next pass starts from. *)
Abbreviation Metrics := (Eff catalog).

Module Cat.

(** [metrics.update(table)] *)
Definition update (table : catalog) : Metrics unit := fun metrics =>
  (table ∪ metrics, Ok tt).

(** [for k in table: if k not in results: metrics.pop(k, None)] *)
Definition prune (table : catalog) (results : gmap string pyval) : Metrics unit :=
  fun metrics =>
    (filter (fun kv => table !! kv.1 = None \/ is_Some (results !! kv.1)) metrics, Ok tt).

(** The dict that [metrics] names. *)
Definition current : Metrics catalog := fun metrics => (metrics, Ok metrics).

Definition when (b : bool) (body : Metrics unit) : Metrics unit :=
  if b then body else mret tt.

End Cat.

(** The counters reported a second time, as rates. *)
Definition dupes : list (string * string) :=
  [("Table_locks_waited", "Table_locks_waited_rate");
   ("Table_locks_immediate", "Table_locks_immediate_rate")].

(** [if src in results: results[dst] = results[src]] *)
Definition duplicate (results : gmap string pyval) (d : string * string)
  : gmap string pyval :=
  match results !! d.1 with
  | Some v => <[d.2 := v]> results
  | None => results
  end.

Section CollectMetrics.

Variable T : const_tables.

(** [_collect_metrics] as far as the catalogue, the replication signals and
    the synthetic metrics go.  The statements that read the server or derive
    further results (lines 268-346, the replica, performance and schema
    queries) are not run here: what they collected is given in [pass_inputs].
    Each of them can raise before the statements below are reached, so a run
    of this definition stands for a pass that got past them. *)
Definition _collect_metrics (inp : pass_inputs) (q : qcache_entry)
  : Metrics pass_outputs :=
  let o := opts inp in
  (* metrics = STATUS_VARS *)
  Cat.when (negb (disable_innodb_metrics o) && innodb_engine_enabled inp)
    (Cat.when (extra_innodb_metrics o) (Cat.update (OPTIONAL_INNODB_VARS T)));;
  Cat.update (VARIABLES_VARS T);;
  Cat.update (INNODB_VARS T);;
  Cat.update (BINLOG_VARS T);;
  Cat.when (extra_status_metrics o)
    (Cat.update (OPTIONAL_STATUS_VARS T);;
     c ← lift (_version_compatible (server_version inp) (5, 6, 6));
     Cat.when c (Cat.update (OPTIONAL_STATUS_VARS_5_6_6 T)));;
  Cat.when (galera_cluster o) (Cat.update (GALERA_VARS T));;
  above_560 ← lift (_version_compatible (server_version inp) (5, 6, 0));
  Cat.when (extra_performance_metrics o && above_560 && performance_schema_enabled inp)
    (Cat.update (PERFORMANCE_VARS T));;
  Cat.when (schema_size_metrics o) (Cat.update (SCHEMA_VARS T));;
  signals ←
    (if replication o then
       Cat.update (REPLICA_VARS T);;
       s ← lift (replication_signals (server_version inp) (replica inp));
       mret (Some s)
     else mret None);
  (* "synthetic" metrics *)
  Cat.update (SYNTHETIC_VARS T);;
  synth ← lift (_compute_synthetic_results q (merged_results inp));
  (* remove uncomputed metrics *)
  Cat.prune (SYNTHETIC_VARS T) synth.1;;
  (* add duped metrics - reporting some as both rate and gauge *)
  let results := fold_left duplicate dupes synth.1 in
  metrics ← Cat.current;
  mret {| submitted_metrics := metrics;
          submitted_results := results;
          replication_emitted := signals;
          qcache_after := synth.2 |}.

(** The part of [check] between [_set_qcache_stats] and [_put_qcache_stats],
    for a pass that reached the server: the instance and [STATUS_VARS] after
    the pass, and what the pass handed on or raised.  The two calls that can
    still raise, [_collect_system_metrics] before the put and the custom
    queries after it, are taken to end well here; [check_body] below has
    both. *)
Definition check (inp : pass_inputs) (self : check_self) (STATUS_VARS : catalog)
  : check_self * catalog * pyres pass_outputs :=
  let self := _set_qcache_stats self in
  match _collect_metrics inp (qcache self) STATUS_VARS with
  | (STATUS_VARS', Ok out) =>
      let self := {| instance := instance self; qcache_stats := qcache_stats self;
                     qcache := qcache_after out |} in
      (_put_qcache_stats self, STATUS_VARS', Ok out)
  | (STATUS_VARS', Raise e) => (self, STATUS_VARS', Raise e)
  end.

(** The passes of one process, one after the other, on the same instance and
    the same [STATUS_VARS]. *)
Fixpoint run_passes (passes : list pass_inputs) (self : check_self)
    (STATUS_VARS : catalog) : list (pyres pass_outputs) :=
  match passes with
  | [] => []
  | inp :: rest =>
      let '(self', STATUS_VARS', r) := check inp self STATUS_VARS in
      r :: run_passes rest self' STATUS_VARS'
  end.

End CollectMetrics.

Section CheckBody.

Variable T : const_tables.

(** The body of the [try] of [check], lines 143-157, for a pass that reached
    the server: [_collect_metrics], then [_collect_system_metrics], then
    [_put_qcache_stats], then the custom queries of the query manager.  How
    the second and the last call ended is given: they read the operating
    system and run code outside this file, and neither changes the
    query-cache attributes.  An exception of any of the calls leaves [check]
    after the log entry of line 160. *)
Definition check_body (inp : pass_inputs) (system_metrics custom_queries_run : pyres unit)
    (self : check_self) (STATUS_VARS : catalog)
  : check_self * catalog * pyres pass_outputs :=
  let self := _set_qcache_stats self in
  match _collect_metrics T inp (qcache self) STATUS_VARS with
  | (STATUS_VARS', Ok out) =>
      let self := {| instance := instance self; qcache_stats := qcache_stats self;
                     qcache := qcache_after out |} in
      match system_metrics with
      | Ok _ =>
          let self := _put_qcache_stats self in
          match custom_queries_run with
          | Ok _ => (self, STATUS_VARS', Ok out)
          | Raise e => (self, STATUS_VARS', Raise e)
          end
      | Raise e => (self, STATUS_VARS', Raise e)
      end
  | (STATUS_VARS', Raise e) => (self, STATUS_VARS', Raise e)
  end.

End CheckBody.

(** The optional groups of [_collect_metrics], the table each one adds, and
    the test under which a pass adds it. *)
Inductive optional_group : Set :=
| ExtraStatus | VersionGatedStatus | GaleraCluster
| PerformanceDigest | SchemaSize | ExtraInnodb.

Definition group_table (T : const_tables) (g : optional_group) : catalog :=
  match g with
  | ExtraStatus => OPTIONAL_STATUS_VARS T
  | VersionGatedStatus => OPTIONAL_STATUS_VARS_5_6_6 T
  | GaleraCluster => GALERA_VARS T
  | PerformanceDigest => PERFORMANCE_VARS T
  | SchemaSize => SCHEMA_VARS T
  | ExtraInnodb => OPTIONAL_INNODB_VARS T
  end.

(** [_version_compatible] answered, and answered yes. *)
Definition compatible (version : string) (compat_version : Z * Z * Z) : bool :=
  match _version_compatible version compat_version with
  | Ok b => b
  | Raise _ => false
  end.

Definition group_switch (g : optional_group) (inp : pass_inputs) : bool :=
  let o := opts inp in
  match g with
  | ExtraStatus => extra_status_metrics o
  | VersionGatedStatus =>
      extra_status_metrics o && compatible (server_version inp) (5, 6, 6)
  | GaleraCluster => galera_cluster o
  | PerformanceDigest =>
      extra_performance_metrics o && compatible (server_version inp) (5, 6, 0)
      && performance_schema_enabled inp
  | SchemaSize => schema_size_metrics o
  | ExtraInnodb =>
      negb (disable_innodb_metrics o) && innodb_engine_enabled inp
      && extra_innodb_metrics o
  end.

(** ** [_get_binary_log_stats] *)

(** How the query [SHOW BINARY LOGS] ended: with its rows, the name and the
    size of a file each, or with a privilege error. *)
Inductive binary_logs_query : Type :=
| BinaryLogsDenied                       (* InternalError, OperationalError *)
| BinaryLogsRows (cursor_results : list (string * Z)).

(** [{result[0]: result[1] for result in cursor_results}] *)
Definition master_logs (cursor_results : list (string * Z)) : gmap string Z :=
  fold_left (fun logs result => <[result.1 := result.2]> logs) cursor_results ∅.

(** The sum of the values of the dict; [None] after the warning about
    privileges. *)
Definition _get_binary_log_stats (q : binary_logs_query) : option Z :=
  match q with
  | BinaryLogsDenied => None
  | BinaryLogsRows cursor_results =>
      Some (map_fold (fun _ value binary_log_space => binary_log_space + value) 0
              (master_logs cursor_results))
  end.

(** ** The legacy custom queries at the end of [_collect_metrics] *)

(** [l[:n]]: a negative [n] counts from the end. *)
Definition py_slice_to {A} (l : list A) (n : Z) : list A :=
  if 0 <=? n then take (Z.to_nat n) l
  else take (Z.to_nat (Z.of_nat (length l) + n)) l.

(** Lines 457-465 for a list of queries, each holding its type, field,
    metric and query: the queries the loop hands to [_collect_dict], in
    order, and whether the warning 'Maximum number (%s) of custom queries
    reached.  Skipping the rest.' is given. *)
Definition custom_queries {A} (queries : list A) (max_custom_queries : Z)
  : list A * bool :=
  (py_slice_to queries max_custom_queries,
   max_custom_queries <? Z.of_nat (length queries)).

(** ** The link file of [release-hash-check.py] *)

Module ReleaseHashCheck.

(** How the head of the script can end: [raise Exception(message)], or the
    [IndexError] of a subscript. *)
Inductive failure : Set :=
| Failure (message : string)
| IndexFailure.

Fixpoint endswith (p s : string) : bool :=
  String.eqb p s
  || match s with
     | EmptyString => false
     | String _ s' => endswith p s'
     end.

(** [fnmatch(f, '.in-toto/tag.*.link')] on a POSIX system: the star stands
    for any run of characters, the rest for itself. *)
Definition is_link_file (f : string) : bool :=
  Str.startswith ".in-toto/tag." f
  && endswith ".link" f
  && (18 <=? String.length f)%nat.

(** Lines 16-22: the link file the script goes on to open, from [sys.argv]. *)
Definition link_file_path (argv : list string) : failure + string :=
  let updated_link_files := List.filter is_link_file (drop 1 argv) in
  if (length updated_link_files <? 0)%nat then
    inl (Failure
           "The release-hash-check should only run upon modification of a link file.")
  else if (1 <? length updated_link_files)%nat then
    inl (Failure
           "There should never be two different link files modified at the same time.")
  else
    match updated_link_files !! 0%nat with
    | Some f => inr f
    | None => inl IndexFailure
    end.

End ReleaseHashCheck.

(** ** [_get_replica_stats] *)

(** An entry of what [_get_replica_stats] returns: the values of a column,
    one per channel tag, or the [True] of the key 'Binlog_enabled'. *)
Inductive replica_entry (V : Type) : Type :=
| PerChannel (d : gmap string V)
| Flag.

Arguments PerChannel {V} d.
Arguments Flag {V}.

Inductive replica_warning : Set :=
| WarnReplicationPrivileges   (* Privileges error getting replication status ... *)
| WarnBinlogPrivileges.       (* Privileges error getting binlog information ... *)

Section ReplicaStats.

(** A value of a column as the driver returns it, with its truth value and
    its text under ['{0}'.format]; the driver is outside this file. *)
Variable V : Type.
Variable truthy : V -> bool.
Variable text : V -> string.

(** A row of a [DictCursor]: column name to value, [None] for NULL. *)
Definition status_row : Type := gmap string (option V).

(** How the statement for the replica status ended. *)
Inductive slave_status_query : Type :=
| SlaveStatusRows (rows : list status_row)
| SlaveStatusError (errno : Z) (msg : string).   (* InternalError, OperationalError *)

(** How [SHOW MASTER STATUS] ended. *)
Inductive master_status_query : Type :=
| MasterStatusRow (binlog_results : option status_row)   (* cursor.fetchone() *)
| MasterStatusError.

(** The statements sent for the replica status. *)
Definition slave_status_statements (is_mariadb : bool) (replication_channel : option string)
  : list string :=
  let named := from_option str_truthy false replication_channel in
  let c := default "" replication_channel in
  if is_mariadb && named then
    ["SET @@default_master_connection = '" +:+ c +:+ "';"; "SHOW SLAVE STATUS;"]
  else if named then ["SHOW SLAVE STATUS FOR CHANNEL '" +:+ c +:+ "';"]
  else ["SHOW SLAVE STATUS;"].

(** [replication_channel or slave_result.get('Channel_Name') or 'default'],
    as ['{0}'.format] prints it. *)
Definition channel_of (replication_channel : option string) (slave_result : status_row) : string :=
  if from_option str_truthy false replication_channel then default "" replication_channel
  else
    match slave_result !! "Channel_Name" with
    | Some (Some v) => if truthy v then text v else "default"
    | _ => "default"
    end.

(** ['channel:{0}'.format(channel)] *)
Definition channel_tag (channel : string) : string := "channel:" +:+ channel.

(** The inner loop: [replica_results[key][tag] = value] for every value of
    the row that is not [None]; [replica_results] is a [defaultdict(dict)]. *)
Definition store_row (tag : string) (slave_result : status_row)
    (replica_results : gmap string (gmap string V)) : gmap string (gmap string V) :=
  map_fold
    (fun key value acc =>
       match value with
       | Some v => <[key := <[tag := v]> (default ∅ (acc !! key))]> acc
       | None => acc
       end)
    replica_results slave_result.

(** The loop over the rows. *)
Definition store_rows (replication_channel : option string) (rows : list status_row)
  : gmap string (gmap string V) :=
  fold_left
    (fun acc slave_result =>
       store_row (channel_tag (channel_of replication_channel slave_result))
         slave_result acc)
    rows ∅.

(** The truth value of what [fetchone] returned: a row that is not empty. *)
Definition row_truthy (binlog_results : option status_row) : bool :=
  match binlog_results with
  | Some r => negb (bool_decide (r = ∅))
  | None => false
  end.

Definition _get_replica_stats (replication_channel : option string)
    (sq : slave_status_query) (mq : master_status_query)
  : list replica_warning * gmap string (replica_entry V) :=
  let '(w1, replica_results) :=
    match sq return list replica_warning * gmap string (replica_entry V) with
    | SlaveStatusRows rows => ([], PerChannel <$> store_rows replication_channel rows)
    | SlaveStatusError errno msg =>
        if (errno =? 1617)
           && String.eqb msg
                ("There is no master connection '"
                 +:+ from_option id "None" replication_channel +:+ "'")
        then ([], ∅)
        else ([WarnReplicationPrivileges], ∅)
    end in
  match mq with
  | MasterStatusRow binlog_results =>
      (w1, if row_truthy binlog_results
           then <["Binlog_enabled" := Flag]> replica_results
           else replica_results)
  | MasterStatusError => ((w1 ++ [WarnBinlogPrivileges])%list, replica_results)
  end.

End ReplicaStats.

(** ** Sample data

    Small tables and inputs on which the definitions above are run. *)

Module Sample.

Definition builds : list string := ["log"; "standard"; "debug"; "valgrind"; "embedded"].

Definition status_vars : catalog :=
  {[ "Connections" := ("mysql.net.connections", RATE) ]}.

Definition tables : const_tables := {|
  VARIABLES_VARS := {[ "Key_buffer_size" := ("mysql.myisam.key_buffer_size", GAUGE) ]};
  INNODB_VARS := {[ "Innodb_data_reads" := ("mysql.innodb.data_reads", RATE) ]};
  BINLOG_VARS := {[ "Binlog_space_usage_bytes" := ("mysql.binlog.disk_use", GAUGE) ]};
  OPTIONAL_STATUS_VARS := {[ "Binlog_cache_use" := ("mysql.binlog.cache_use", RATE) ]};
  OPTIONAL_STATUS_VARS_5_6_6 :=
    {[ "Table_open_cache_hits" := ("mysql.performance.table_cache_hits", RATE) ]};
  GALERA_VARS := {[ "wsrep_cluster_size" := ("mysql.galera.wsrep_cluster_size", GAUGE) ]};
  PERFORMANCE_VARS :=
    {[ "query_run_time_avg" := ("mysql.performance.query_run_time.avg", GAUGE) ]};
  SCHEMA_VARS := {[ "information_schema_size" := ("mysql.info.schema.size", GAUGE) ]};
  REPLICA_VARS :=
    {[ "Seconds_Behind_Master" := ("mysql.replication.seconds_behind_master", GAUGE) ]};
  SYNTHETIC_VARS :=
    {[ "Qcache_utilization" := ("mysql.performance.qcache.utilization", GAUGE);
       "Qcache_instant_utilization" :=
         ("mysql.performance.qcache.utilization.instant", GAUGE) ]};
  OPTIONAL_INNODB_VARS := {[ "Innodb_mem_total" := ("mysql.innodb.mem_total", GAUGE) ]}
|}.

Definition all_off : options := {|
  disable_innodb_metrics := false; extra_innodb_metrics := false;
  extra_status_metrics := false; galera_cluster := false;
  extra_performance_metrics := false; schema_size_metrics := false;
  replication := false
|}.

Definition extra_status_on : options := {|
  disable_innodb_metrics := false; extra_innodb_metrics := false;
  extra_status_metrics := true; galera_cluster := false;
  extra_performance_metrics := false; schema_size_metrics := false;
  replication := false
|}.

Definition replication_on : options := {|
  disable_innodb_metrics := false; extra_innodb_metrics := false;
  extra_status_metrics := false; galera_cluster := false;
  extra_performance_metrics := false; schema_size_metrics := false;
  replication := true
|}.

(** A replica whose two threads run, on one unnamed channel. *)
Definition healthy_replica : replication_inputs := {|
  slave_running := Some "ON";
  binlog_running := false;
  slaves := Some 0;
  slave_io_running := Some [("channel:default", "Yes")];
  slave_sql_running := Some [("channel:default", "Yes")];
  master_host := Some "{'channel:default': 'source.example'}"
|}.

(** A replica on which no thread flag was collected. *)
Definition legacy_replica (word : string) : replication_inputs := {|
  slave_running := Some word;
  binlog_running := false;
  slaves := Some 0;
  slave_io_running := None;
  slave_sql_running := None;
  master_host := Some "{'channel:default': 'source.example'}"
|}.

(** A replica with neither thread flags nor the legacy variable. *)
Definition silent_replica : replication_inputs := {|
  slave_running := None;
  binlog_running := false;
  slaves := Some 0;
  slave_io_running := None;
  slave_sql_running := None;
  master_host := Some "{'channel:default': 'source.example'}"
|}.

(** The locals after the line '---BUFFER POOL 1' of an otherwise empty text. *)
Definition in_pool_1 : scan_state :=
  {| results := ∅; txn_seen := false; prev_line := "---BUFFER POOL 1";
     buffer_id := 1; logged := [] |}.

(** Lines joined by line feeds. *)
Definition text_of (lines : list string) : string :=
  String.concat (String "010" "") lines.

Definition qcache_results (hits inserts not_cached : string) : gmap string pyval :=
  {[ "Qcache_hits" := VStr hits; "Qcache_inserts" := VStr inserts;
     "Qcache_not_cached" := VStr not_cached ]}.

Definition pass (o : options) (r : replication_inputs) (res : gmap string pyval)
  : pass_inputs := {|
  opts := o; server_version := "5.7.21"; innodb_engine_enabled := true;
  performance_schema_enabled := false; replica := r; merged_results := res
|}.

Definition fresh_check : check_self := {|
  instance := {| host := "db1"; port := 3306; mysql_sock := ""; defaults_file := "" |};
  qcache_stats := ∅;
  qcache := no_sample
|}.

End Sample.

(** * Properties *)

(** ** Results and statements *)

Lemma bind_Ok {A B} (m : pyres A) (k : A -> pyres B) (b : B) :
  bind m k = Ok b -> exists a, m = Ok a /\ k a = Ok b.
Proof. destruct m as [a|e]; simpl; [eauto | discriminate]. Qed.

Lemma eff_bind_run {S A B} (m : Eff S A) (k : A -> Eff S B) (st : S) :
  (m ≫= k) st =
  match m st with
  | (st', Ok a) => k a st'
  | (st', Raise e) => (st', Raise e)
  end.
Proof. reflexivity. Qed.

(** ** The server identity *)

Lemma str_truthy_true (s : string) : str_truthy s = true <-> s <> "".
Proof.
  unfold str_truthy. destruct (String.eqb_spec s ""); simpl; split; congruence.
Qed.

Lemma str_truthy_false (s : string) : str_truthy s = false <-> s = "".
Proof.
  unfold str_truthy. destruct (String.eqb_spec s ""); simpl; split; congruence.
Qed.

(** C5, as stated, fails: with a port and a socket both set the key is built
    from the socket, and with a defaults file set the key is that path even
    though a port is set. *)
Lemma host_key_port_is_not_first :
  _get_host_key {| host := "db1"; port := 3306; mysql_sock := "/tmp/mysql.sock";
                   defaults_file := "" |} = "db1:/tmp/mysql.sock"
  /\ _get_host_key {| host := "db1"; port := 3306; mysql_sock := "";
                      defaults_file := "/etc/my.cnf" |} = "/etc/my.cnf".
Proof. split; reflexivity. Qed.

(** C5 (amended): the server identity is the defaults-file path whenever one
    is set; otherwise host and socket path when a socket is set; otherwise
    host and port when the port is not 0; otherwise the host alone. *)
Theorem host_key_priority (c : instance_config) :
  (defaults_file c <> "" -> _get_host_key c = defaults_file c)
  /\ (defaults_file c = "" -> mysql_sock c <> "" ->
      _get_host_key c = host c +:+ ":" +:+ mysql_sock c)
  /\ (defaults_file c = "" -> mysql_sock c = "" -> port c <> 0 ->
      _get_host_key c = host c +:+ ":" +:+ Str.of_Z (port c))
  /\ (defaults_file c = "" -> mysql_sock c = "" -> port c = 0 ->
      _get_host_key c = host c).
Proof.
  unfold _get_host_key, format_pair.
  repeat split; intros.
  - apply str_truthy_true in H. by rewrite H.
  - apply str_truthy_false in H. apply str_truthy_true in H0. by rewrite H, H0.
  - apply str_truthy_false in H, H0. rewrite H, H0.
    by destruct (Z.eqb_spec (port c) 0).
  - apply str_truthy_false in H, H0. by rewrite H, H0, H1.
Qed.

Lemma host_key_priority_witness :
  _get_host_key {| host := "db1"; port := 3306; mysql_sock := "";
                   defaults_file := "" |} = "db1:3306".
Proof.
  refine (proj1 (proj2 (proj2 (host_key_priority
    {| host := "db1"; port := 3306; mysql_sock := ""; defaults_file := "" |})))
    _ _ _); simpl; [reflexivity | reflexivity | lia].
Defined.

(** ** Inversion of a successful pass *)

Lemma eff_bind_Ok {S A B} (m : Eff S A) (k : A -> Eff S B) (st st' : S) (b : B) :
  (m ≫= k) st = (st', Ok b) ->
  exists st1 a, m st = (st1, Ok a) /\ k a st1 = (st', Ok b).
Proof.
  rewrite eff_bind_run. destruct (m st) as [st1 [a|e]]; [eauto | discriminate].
Qed.

Lemma lift_Ok {S A} (r : pyres A) (st st' : S) (a : A) :
  lift r st = (st', Ok a) -> r = Ok a /\ st' = st.
Proof. unfold lift. by intros [= -> ->]. Qed.

Lemma eff_ret_Ok {S A} (x a : A) (st st' : S) :
  (mret x : Eff S A) st = (st', Ok a) -> x = a /\ st' = st.
Proof. by intros [= -> ->]. Qed.

(** Splits a run that ended well into the runs of its statements. *)
Ltac eff_inv :=
  repeat match goal with
         | H : (_ ≫= _) _ = (_, Ok _) |- _ =>
             let st := fresh "st" in
             let a := fresh "a" in
             let H1 := fresh "Hrun" in
             apply eff_bind_Ok in H; destruct H as (st & a & H1 & H)
         | H : lift _ _ = (_, Ok _) |- _ =>
             apply lift_Ok in H; destruct H as [H ->]
         | H : mret _ _ = (_, Ok _) |- _ =>
             apply eff_ret_Ok in H; destruct H as [<- ->]
         end.

Section PassInversion.

Variable T : const_tables.

(** What a pass that ended well computed, statement by statement. *)
Lemma collect_metrics_Ok inp q S0 S' out :
  _collect_metrics T inp q S0 = (S', Ok out) ->
  exists synth S1,
    _compute_synthetic_results q (merged_results inp) = Ok synth
    /\ submitted_results out = fold_left duplicate dupes synth.1
    /\ qcache_after out = synth.2
    /\ submitted_metrics out = S'
    /\ Cat.prune (SYNTHETIC_VARS T) synth.1 (SYNTHETIC_VARS T ∪ S1) = (S', Ok tt)
    /\ (if replication (opts inp)
        then exists s, replication_signals (server_version inp) (replica inp) = Ok s
                       /\ replication_emitted out = Some s
        else replication_emitted out = None).
Proof.
  unfold _collect_metrics. intros H. eff_inv.
  repeat match goal with
         | u : unit |- _ => destruct u
         | H : Cat.current _ = (_, Ok _) |- _ =>
             unfold Cat.current in H; simplify_eq
         | H : Cat.update (SYNTHETIC_VARS T) _ = (_, Ok _) |- _ =>
             unfold Cat.update in H; simplify_eq
         end.
  match goal with
  | H : Cat.prune _ ?synth.1 (_ ∪ ?S1) = _ |- _ => exists synth, S1
  end.
  simpl. repeat split; try done.
  destruct (replication (opts inp)).
  - eff_inv. eauto.
  - match goal with H : mret None _ = _ |- _ => by apply eff_ret_Ok in H as [<- _] end.
Qed.

End PassInversion.

(** ** The replication classifier *)

Lemma reads_on_not_off (s : string) : reads "on" s = true -> reads "off" s = false.
Proof.
  unfold reads. intros H. apply String.eqb_eq in H. by rewrite H.
Qed.

Lemma reads_on_truthy (s : string) : reads "on" s = true -> str_truthy s = true.
Proof. by destruct s. Qed.

Lemma collapse_truthy items : flag_truthy (collapse_flag (Some items)) = any_yes items.
Proof. by destruct items. Qed.

Lemma collapse_not_none items : flag_is_none (collapse_flag (Some items)) = false.
Proof. by destruct items. Qed.

(** From version 5.7.0 on, with both flags collected, the status follows from
    the two threads alone. *)
Lemma thread_rules_from_5_7 version inp io sql :
  _version_compatible version (5, 7, 0) = Ok true ->
  slave_io_running inp = Some io ->
  slave_sql_running inp = Some sql ->
  slave_running_status version inp =
    Ok (if any_yes io && any_yes sql then OK
        else if negb (any_yes io) && negb (any_yes sql) then CRITICAL
        else WARNING).
Proof.
  intros Hv Hio Hsql. unfold slave_running_status, thread_rules.
  rewrite Hv, Hio, Hsql. cbn [bind].
  rewrite !collapse_truthy, !collapse_not_none.
  by destruct (any_yes io), (any_yes sql).
Qed.

(** With no thread flag at all, a legacy variable that reads "on" on a
    host that is not a source gives OK, on either side of 5.7.0. *)
Lemma legacy_on_is_ok version inp word b :
  _version_compatible version (5, 7, 0) = Ok b ->
  slave_io_running inp = None ->
  slave_sql_running inp = None ->
  slave_running inp = Some word ->
  reads "on" word = true ->
  _is_master (slaves inp) (master_host inp) = Ok false ->
  slave_running_status version inp = Ok OK.
Proof.
  intros Hv Hio Hsql Hword Hon Hmaster.
  unfold slave_running_status, thread_rules, fallback_rules.
  rewrite Hv, Hio, Hsql, Hword. simpl.
  rewrite (reads_on_not_off _ Hon).
  destruct b; simpl; rewrite Hmaster; simpl;
    by rewrite (reads_on_truthy _ Hon), Hon.
Qed.

(** C2: at or above version 5.7.0 with both thread flags collected, the
    status is OK exactly when both threads run, CRITICAL exactly when both are
    stopped, and WARNING otherwise; with both flags absent, a host that is not
    a source and a legacy variable reading "on", the status is OK. *)
Theorem replication_classifier_rules (version : string) (inp : replication_inputs) :
  (forall io sql,
      _version_compatible version (5, 7, 0) = Ok true ->
      slave_io_running inp = Some io ->
      slave_sql_running inp = Some sql ->
      exists st,
        slave_running_status version inp = Ok st
        /\ (st = OK <-> any_yes io = true /\ any_yes sql = true)
        /\ (st = CRITICAL <-> any_yes io = false /\ any_yes sql = false)
        /\ (st = WARNING <-> any_yes io <> any_yes sql))
  /\ (forall word b,
      _version_compatible version (5, 7, 0) = Ok b ->
      slave_io_running inp = None ->
      slave_sql_running inp = None ->
      slave_running inp = Some word ->
      reads "on" word = true ->
      _is_master (slaves inp) (master_host inp) = Ok false ->
      slave_running_status version inp = Ok OK).
Proof.
  split.
  - intros io sql Hv Hio Hsql.
    rewrite (thread_rules_from_5_7 _ _ _ _ Hv Hio Hsql).
    eexists; split; [reflexivity|].
    destruct (any_yes io), (any_yes sql); simpl; intuition congruence.
  - intros word b. apply legacy_on_is_ok.
Qed.

Lemma replication_classifier_rules_witness :
  slave_running_status "5.7.21" Sample.healthy_replica = Ok OK
  /\ slave_running_status "5.6.40" (Sample.legacy_replica "ON") = Ok OK.
Proof.
  split.
  - destruct (proj1 (replication_classifier_rules "5.7.21" Sample.healthy_replica)
               [("channel:default", "Yes")] [("channel:default", "Yes")]
               eq_refl eq_refl eq_refl) as (st & Hst & Hok & _).
    rewrite Hst. f_equal. apply Hok. split; reflexivity.
  - exact (proj2 (replication_classifier_rules "5.6.40" (Sample.legacy_replica "ON"))
             "ON" false eq_refl eq_refl eq_refl eq_refl eq_refl eq_refl).
Defined.

(** The gauge is 1 for OK and 0 for the three other statuses. *)
Lemma slave_running_gauge_spec (st : status) :
  (slave_running_gauge st = 1 <-> st = OK)
  /\ (st <> OK -> slave_running_gauge st = 0).
Proof. destruct st; simpl; split; try split; intros; try done. Qed.

(** C10: in a pass that monitors replication, the legacy gauge emitted next
    to the service check is 1 exactly when the classifier's status is OK and
    0 for WARNING, CRITICAL and UNKNOWN alike. *)
Theorem legacy_gauge_is_ok_flag (T : const_tables) (inp : pass_inputs)
    (q : qcache_entry) (S0 S' : catalog) (out : pass_outputs) :
  _collect_metrics T inp q S0 = (S', Ok out) ->
  replication (opts inp) = true ->
  exists g st,
    replication_emitted out = Some (g, st)
    /\ slave_running_status (server_version inp) (replica inp) = Ok st
    /\ (g = 1 <-> st = OK)
    /\ (st = WARNING \/ st = CRITICAL \/ st = UNKNOWN -> g = 0).
Proof.
  intros Hrun Hrep.
  apply collect_metrics_Ok in Hrun as (_ & _ & _ & _ & _ & _ & _ & Hsig).
  rewrite Hrep in Hsig. destruct Hsig as ([g st] & Hsig & Hout).
  unfold replication_signals in Hsig.
  apply bind_Ok in Hsig as (st' & Hst & [= <- <-]).
  exists (slave_running_gauge st'), st'. repeat split; try done.
  - by intros ?%slave_running_gauge_spec.
  - by intros ->.
  - intros [-> | [-> | ->]]; reflexivity.
Qed.

(** An unknown state and a failing one give the same gauge. *)
Example gauge_unknown_like_critical :
  replication_signals "5.7.21" Sample.silent_replica = Ok (0, UNKNOWN)
  /\ replication_signals "5.7.21" (Sample.legacy_replica "OFF") = Ok (0, CRITICAL).
Proof. split; vm_compute; reflexivity. Qed.

(** ** Version resolution and comparison *)

Lemma chars_of_chars (l : list ascii) : Str.chars (Str.of_chars l) = l.
Proof. apply list_ascii_of_string_of_list_ascii. Qed.

Lemma of_chars_chars (s : string) : Str.of_chars (Str.chars s) = s.
Proof. apply string_of_list_ascii_of_string. Qed.

Lemma split_aux_not_nil sep cur s : Str.split_aux sep cur s <> [].
Proof.
  revert cur. induction s as [|c s IH]; intros cur; simpl; [done|].
  destruct (Chr.eqb sep c); [done | apply IH].
Qed.

Lemma split_first sep s : exists first rest, Str.split sep s = first :: rest.
Proof.
  unfold Str.split. destruct (Str.split_aux sep [] s) eqn:E; [|eauto].
  by apply split_aux_not_nil in E.
Qed.

Section MetadataFacts.

Variable BUILDS : list string.

Lemma metadata_step_flavor acc data :
  acc.1 = "" \/ acc.1 = "MySQL" \/ acc.1 = "MariaDB" ->
  (metadata_step BUILDS acc data).1 = "MySQL"
  \/ (metadata_step BUILDS acc data).1 = "MariaDB".
Proof.
  destruct acc as [f b]. unfold metadata_step. simpl.
  destruct (String.eqb_spec data "MariaDB"); simpl.
  - intros _. by right.
  - intros [-> | [-> | ->]]; simpl; auto.
Qed.

Lemma metadata_step_build acc data :
  acc.2 = "" \/ acc.2 ∈ BUILDS ->
  (metadata_step BUILDS acc data).2 = "" \/ (metadata_step BUILDS acc data).2 ∈ BUILDS.
Proof.
  destruct acc as [f b]. unfold metadata_step. simpl.
  intros Hb. case_bool_decide; simpl; auto.
Qed.

Lemma metadata_fold parts acc :
  acc.1 = "MySQL" \/ acc.1 = "MariaDB" ->
  acc.2 = "" \/ acc.2 ∈ BUILDS ->
  let r := fold_left (metadata_step BUILDS) parts acc in
  (r.1 = "MySQL" \/ r.1 = "MariaDB") /\ (r.2 = "" \/ r.2 ∈ BUILDS).
Proof.
  revert acc. induction parts as [|p parts IH]; intros acc Hf Hb; simpl; [done|].
  apply IH; [apply metadata_step_flavor; by right | by apply metadata_step_build].
Qed.

(** [_get_metadata] never raises, and never leaves the flavor or the build
    empty. *)
Lemma get_metadata_total raw :
  exists md,
    _get_metadata BUILDS raw = Ok md
    /\ (flavor md = "MySQL" \/ flavor md = "MariaDB")
    /\ (build md = "unspecified" \/ build md ∈ BUILDS).
Proof.
  unfold _get_metadata. destruct (split_first "-" raw) as (first & rest & ->).
  cbn [py_index lookup list_lookup bind fold_left].
  destruct (metadata_fold rest (metadata_step BUILDS ("", "") first)) as [Hf Hb].
  { apply metadata_step_flavor. by left. }
  { apply metadata_step_build. by left. }
  destruct (fold_left _ rest _) as [f b]. simpl in *.
  eexists; split; [reflexivity|]. simpl. split; [done|].
  destruct (String.eqb_spec b ""); [by left|].
  destruct Hb; [done | by right].
Qed.

End MetadataFacts.

(** *** A run of digits always reads as an integer *)

Lemma digit_not_space c : Chr.is_ascii_digit c = true -> Chr.is_number_space c = false.
Proof. destruct c as [[] [] [] [] [] [] [] []]; vm_compute; congruence. Qed.

Lemma digit_not_sign c :
  Chr.is_ascii_digit c = true -> c <> "-"%char /\ c <> "+"%char.
Proof. destruct c as [[] [] [] [] [] [] [] []]; vm_compute; split; congruence. Qed.

Lemma digit_val_nonneg c : Chr.is_ascii_digit c = true -> 0 <= Chr.digit_val c.
Proof. destruct c as [[] [] [] [] [] [] [] []]; vm_compute; congruence. Qed.

Lemma drop_while_none (p : ascii -> bool) l :
  forallb (fun c => negb (p c)) l = true -> Str.drop_while p l = l.
Proof.
  destruct l as [|c l]; simpl; [done|].
  intros [Hc _]%andb_prop. by destruct (p c).
Qed.

Lemma forallb_rev {A} (f : A -> bool) l : forallb f (rev l) = forallb f l.
Proof.
  induction l as [|x l IH]; simpl; [done|].
  rewrite forallb_app, IH. simpl. rewrite andb_true_r. apply andb_comm.
Qed.

Lemma strip_by_none (p : ascii -> bool) s :
  forallb (fun c => negb (p c)) (Str.chars s) = true -> Str.strip_by p s = s.
Proof.
  intros H. unfold Str.strip_by.
  rewrite (drop_while_none p (Str.chars s)) by done.
  rewrite drop_while_none by (by rewrite forallb_rev).
  rewrite rev_involutive. apply of_chars_chars.
Qed.

Lemma digits_not_spaces l :
  forallb Chr.is_ascii_digit l = true ->
  forallb (fun c => negb (Chr.is_number_space c)) l = true.
Proof.
  induction l as [|c l IH]; simpl; [done|].
  intros [Hc Hl]%andb_prop. by rewrite (digit_not_space c Hc), IH.
Qed.

Lemma digits_value_digits l acc prev :
  forallb Chr.is_ascii_digit l = true ->
  l <> [] \/ prev = true ->
  0 <= acc ->
  exists z, Num.digits_value acc prev l = Some z /\ 0 <= z.
Proof.
  revert acc prev. induction l as [|c l IH]; intros acc prev Hl Hne Hacc; simpl.
  - destruct Hne as [? | ->]; [done | eauto].
  - simpl in Hl. apply andb_prop in Hl as [Hc Hl]. rewrite Hc.
    apply IH; [done | by right |]. pose proof (digit_val_nonneg c Hc). lia.
Qed.

Lemma signed_digits c l :
  Chr.is_ascii_digit c = true -> Num.signed (c :: l) = (false, c :: l).
Proof.
  intros [H1 H2]%digit_not_sign. unfold Num.signed.
  destruct c as [[] [] [] [] [] [] [] []]; try reflexivity; congruence.
Qed.

Lemma int_of_str_digits s :
  s <> "" -> forallb Chr.is_ascii_digit (Str.chars s) = true ->
  exists z, Num.int_of_str s = Ok z /\ 0 <= z.
Proof.
  intros Hne Hd. unfold Num.int_of_str.
  rewrite strip_by_none by by apply digits_not_spaces.
  destruct s as [|c s]; [done|]. change (Str.chars (String c s)) with (c :: Str.chars s) in *.
  simpl in Hd. apply andb_prop in Hd as [Hc Hd].
  rewrite (signed_digits c _ Hc).
  destruct (digits_value_digits (c :: Str.chars s) 0 false) as (z & -> & Hz);
    [by simpl; rewrite Hc | by left | lia | eauto].
Qed.

Lemma digit_run_digits s : forallb Chr.is_ascii_digit (Str.chars (Str.digit_run s)) = true.
Proof.
  induction s as [|c s IH]; simpl; [done|].
  destruct (Chr.is_ascii_digit c) eqn:E; [|done].
  change (Str.chars (String c (Str.digit_run s))) with (c :: Str.chars (Str.digit_run s)).
  simpl. by rewrite E.
Qed.

Lemma re_match_digits_Some s r : Str.re_match_digits s = Some r -> r = Str.digit_run s /\ r <> "".
Proof.
  unfold Str.re_match_digits. destruct (Str.digit_run s); [done|]. by intros [= <-].
Qed.

Lemma int_of_digit_run s r :
  Str.re_match_digits s = Some r -> exists z, Num.int_of_str r = Ok z /\ 0 <= z.
Proof.
  intros [-> Hne]%re_match_digits_Some.
  apply int_of_str_digits; [done | apply digit_run_digits].
Qed.

(** With three segments, two integers and a third segment that starts with a
    digit, the comparison is defined, and the patch level is the leading
    digit run of the third segment. *)
Lemma version_compatible_defined v a b c rest x y r t :
  Str.split "." v = a :: b :: c :: rest ->
  Num.int_of_str a = Ok x ->
  Num.int_of_str b = Ok y ->
  Str.re_match_digits c = Some r ->
  exists z, Num.int_of_str r = Ok z
            /\ _version_compatible v t = Ok (triple_geb (x, y, z) t).
Proof.
  intros Hs Ha Hb Hc. destruct (int_of_digit_run c r Hc) as (z & Hz & _).
  exists z. split; [done|].
  unfold _version_compatible. rewrite Hs. cbn [py_index lookup list_lookup bind].
  rewrite Hc. cbn [bind]. by rewrite Hz, Ha, Hb.
Qed.

(** C4, as stated, fails: a version with two segments makes the comparison
    raise, a letter in the minor segment does too, and a malformed version
    string resolves to the flavor "MySQL" and the build "unspecified", not to
    empty ones. *)
Lemma version_compare_can_raise :
  _version_compatible "5.7" (5, 7, 0) = Raise IndexError
  /\ _version_compatible "5.1a.3" (5, 0, 0) = Raise ValueError
  /\ _get_metadata Sample.builds "" =
       Ok {| version := ""; flavor := "MySQL"; build := "unspecified" |}.
Proof. repeat split; vm_compute; reflexivity. Qed.

(** C4 (amended): version resolution never fails for any version string and
    always yields the flavor "MySQL" or "MariaDB" and a build tag of the
    vocabulary or "unspecified"; the version comparison is defined whenever
    the version has at least three dot-separated segments of which the first
    two read as integers and the third starts with a digit, and then the patch
    level is the leading digit run of the third segment alone, so that
    "5.0.51a" compares >= (5, 0, 50). *)
Theorem version_resolution_and_compare :
  (forall (BUILDS : list string) (raw : string),
      exists md, _get_metadata BUILDS raw = Ok md
                 /\ (flavor md = "MySQL" \/ flavor md = "MariaDB")
                 /\ (build md = "unspecified" \/ build md ∈ BUILDS))
  /\ (forall v a b c rest x y r t,
      Str.split "." v = a :: b :: c :: rest ->
      Num.int_of_str a = Ok x ->
      Num.int_of_str b = Ok y ->
      Str.re_match_digits c = Some r ->
      exists z, Num.int_of_str r = Ok z
                /\ _version_compatible v t = Ok (triple_geb (x, y, z) t))
  /\ Str.re_match_digits "51a" = Some "51"
  /\ _version_compatible "5.0.51a" (5, 0, 50) = Ok true.
Proof.
  split; [apply get_metadata_total|].
  split; [apply version_compatible_defined|].
  split; vm_compute; reflexivity.
Qed.

Lemma version_resolution_and_compare_witness :
  exists z, Num.int_of_str "51" = Ok z
            /\ _version_compatible "5.0.51a" (5, 0, 50) = Ok (triple_geb (5, 0, z) (5, 0, 50)).
Proof.
  exact (proj1 (proj2 version_resolution_and_compare)
           "5.0.51a" "5" "0" "51a" [] 5 0 "51" (5, 0, 50)
           eq_refl eq_refl eq_refl eq_refl).
Defined.

(** ** The InnoDB status parser *)

(** *** Tests on a line *)

Lemma find_from_start p s : Str.find_from p s = Some 0%nat <-> Str.startswith p s = true.
Proof.
  destruct s as [|c s]; simpl.
  - destruct (Str.startswith p ""); split; congruence.
  - destruct (Str.startswith p (String c s)); [split; congruence|].
    destruct (Str.find_from p s); simpl; split; congruence.
Qed.

Lemma at_start_startswith line p : at_start line p = Str.startswith p line.
Proof.
  unfold at_start, Str.find.
  destruct (Str.startswith p line) eqn:E.
  - apply find_from_start in E. by rewrite E.
  - destruct (Str.find_from p line) as [[|n]|] eqn:F; try done.
    apply find_from_start in F. congruence.
Qed.

(** *** What a statement leaves untouched *)

(** [frames P st st']: the entries whose key satisfies [P], and the three
    other locals, are the same in [st'] as in [st]. *)
Definition frames (P : string -> Prop) (st st' : scan_state) : Prop :=
  buffer_id st' = buffer_id st
  /\ forall k, P k -> results st' !! k = results st !! k.

Definition keeps {A} (P : string -> Prop) (m : Scan A) : Prop :=
  forall st st' r, m st = (st', r) -> frames P st st'.

Lemma frames_refl P st : frames P st st.
Proof. by split. Qed.

Lemma frames_trans P st1 st2 st3 : frames P st1 st2 -> frames P st2 st3 -> frames P st1 st3.
Proof.
  intros [Hb1 Hr1] [Hb2 Hr2]. split; [congruence|].
  intros k Hk. by rewrite Hr2, Hr1.
Qed.

Create HintDb keeps discriminated.

Section Keeps.

Variable P : string -> Prop.

Lemma keeps_ret {A} (a : A) : keeps P (mret a).
Proof. intros st st' r [= <- _]. apply frames_refl. Qed.

Lemma keeps_pass : keeps P Stmt.pass.
Proof. apply keeps_ret. Qed.

Lemma keeps_lift {A} (r : pyres A) : keeps P (lift r).
Proof. intros st st' r' [= <- _]. apply frames_refl. Qed.

Lemma keeps_bind {A B} (m : Scan A) (k : A -> Scan B) :
  keeps P m -> (forall a, keeps P (k a)) -> keeps P (m ≫= k).
Proof.
  intros Hm Hk st st' r. rewrite eff_bind_run.
  destruct (m st) as [st1 [a|e]] eqn:E; intros H.
  - eapply frames_trans; [by eapply Hm | by eapply Hk].
  - injection H as <- _. by eapply Hm.
Qed.

Lemma keeps_setitem k v : ~ P k -> keeps P (Stmt.setitem k v).
Proof.
  intros Hk st st' r [= <- _]. split; [done|]. simpl.
  intros k' Hk'. apply lookup_insert_ne. congruence.
Qed.

Lemma keeps_getitem k : ~ P k -> keeps P (Stmt.getitem k).
Proof.
  intros Hk st st' r. unfold Stmt.getitem.
  destruct (results st !! k); intros [= <- _]; [apply frames_refl|].
  split; [done|]. simpl. intros k' Hk'. apply lookup_insert_ne. congruence.
Qed.

Lemma keeps_long_at row i : keeps P (Stmt.long_at row i).
Proof. apply keeps_lift. Qed.

Lemma keeps_long_float_at row i : keeps P (Stmt.long_float_at row i).
Proof. apply keeps_lift. Qed.

Lemma keeps_store k row i : ~ P k -> keeps P (Stmt.store k row i).
Proof.
  intros Hk. apply keeps_bind; [apply keeps_long_at|].
  intros v. by apply keeps_setitem.
Qed.

Lemma keeps_iadd k e : ~ P k -> keeps P e -> keeps P (Stmt.iadd k e).
Proof.
  intros Hk He. apply keeps_bind; [by apply keeps_getitem|].
  intros old. apply keeps_bind; [done|]. intros v. by apply keeps_setitem.
Qed.

Lemma keeps_log ev : keeps P (Stmt.log ev).
Proof. intros st st' r [= <- _]. by split. Qed.

Lemma keeps_set_txn_seen b : keeps P (Stmt.set_txn_seen b).
Proof. intros st st' r [= <- _]. by split. Qed.

Lemma keeps_set_prev_line l : keeps P (Stmt.set_prev_line l).
Proof. intros st st' r [= <- _]. by split. Qed.

Lemma keeps_try_except e body handler :
  keeps P body -> keeps P handler -> keeps P (Stmt.try_except e body handler).
Proof.
  intros Hb Hh st st' r. unfold Stmt.try_except.
  destruct (body st) as [st1 [[]|e']] eqn:E.
  - intros [= <- _]. by eapply Hb.
  - destruct (Stmt.exn_eqb e e'); intros H.
    + eapply frames_trans; [by eapply Hb | by eapply Hh].
    + injection H as <- _. by eapply Hb.
Qed.

Lemma keeps_if {A} (c : bool) (m1 m2 : Scan A) :
  keeps P m1 -> keeps P m2 -> keeps P (if c then m1 else m2).
Proof. by destruct c. Qed.

End Keeps.

#[local] Hint Resolve keeps_ret keeps_pass keeps_lift keeps_long_at keeps_long_float_at
  keeps_log keeps_set_txn_seen keeps_set_prev_line : keeps.
#[local] Hint Resolve keeps_bind keeps_setitem keeps_getitem keeps_store keeps_iadd
  keeps_try_except keeps_if : keeps.

(** A key that is not in a list of keys, by computation. *)
Ltac other_key :=
  match goal with
  | |- ~ (_ ∈ _) => apply (bool_decide_unpack _); vm_compute; reflexivity
  | |- ~ ~ (_ ∈ _) => fail
  end.

#[local] Hint Extern 1 (~ (_ ∈ _)) => other_key : keeps.
#[local] Hint Extern 2 (forall _, keeps _ _) => intro : keeps.

(** *** Lines of a named buffer pool *)

Lemma keeps_pending_normal_aio P line row :
  (forall k, k ∈ pending_aio_keys -> ~ P k) -> keeps P (pending_normal_aio line row).
Proof.
  intros HP.
  assert (~ P "Innodb_pending_normal_aio_reads") by (apply HP; set_solver).
  assert (~ P "Innodb_pending_normal_aio_writes") by (apply HP; set_solver).
  unfold pending_normal_aio, pending_normal_aio_body.
  apply keeps_try_except; [|auto with keeps].
  repeat (apply keeps_if); auto 20 with keeps.
Qed.

(** While [buffer_id] is not -1, no branch of the chain writes an aggregate
    entry. *)
Lemma dispatch_keeps_aggregate line row txn prev bid :
  bid <> -1 -> keeps (fun k => k ∈ aggregate_keys) (dispatch line row txn prev bid).
Proof.
  intros Hbid. unfold dispatch, ibuf_aio_reads, lock_structs, ibuf_merged_operations.
  apply Z.eqb_neq in Hbid. rewrite Hbid.
  repeat (apply keeps_if);
    first [ apply keeps_pending_normal_aio; intros k Hk;
            repeat (apply elem_of_cons in Hk as [-> | Hk]; [other_key|]);
            by apply elem_of_nil in Hk
          | auto 20 with keeps ].
Qed.

(** No branch of the chain changes [buffer_id]. *)
Lemma dispatch_keeps_buffer_id P line row txn prev bid :
  (forall k, ~ P k) -> keeps P (dispatch line row txn prev bid).
Proof.
  intros HP. unfold dispatch, ibuf_aio_reads, lock_structs, ibuf_merged_operations.
  repeat (apply keeps_if);
    first [ by apply keeps_pending_normal_aio | auto 20 with keeps ].
Qed.

(** The statement at the head of the loop body. *)
Lemma pool_header_run raw st st1 :
  (if Str.startswith "---BUFFER POOL" (Str.strip raw)
   then Stmt.long_at (tokens (Str.strip raw)) 2 ≫= Stmt.set_buffer_id
   else Stmt.pass) st = (st1, Ok tt) ->
  (names_pool raw (buffer_id st1)
   \/ Str.startswith "---BUFFER POOL" (Str.strip raw) = false
      /\ buffer_id st1 = buffer_id st)
  /\ results st1 = results st.
Proof.
  unfold names_pool.
  destruct (Str.startswith "---BUFFER POOL" (Str.strip raw)) eqn:E; intros H.
  - unfold Stmt.long_at in H. eff_inv.
    match goal with H : Stmt.set_buffer_id _ _ = _ |- _ => injection H as <- end.
    simpl. split; [|done]. left. by split.
  - apply eff_ret_Ok in H as [_ ->]. split; [|done]. by right.
Qed.

(** One line: the pool id it leaves, and the aggregate entries when that id
    is not -1. *)
Lemma scan_line_named_pool raw st st' :
  scan_line raw st = (st', Ok tt) ->
  (names_pool raw (buffer_id st')
   \/ Str.startswith "---BUFFER POOL" (Str.strip raw) = false
      /\ buffer_id st' = buffer_id st)
  /\ (buffer_id st' <> -1 ->
      forall k, k ∈ aggregate_keys -> results st' !! k = results st !! k).
Proof.
  unfold scan_line. intros H. eff_inv.
  repeat match goal with u : unit |- _ => destruct u end.
  match goal with
  | H1 : (if _ then _ else _) st = (?sA, Ok _),
    H2 : dispatch _ _ _ _ _ ?sA = (?sB, Ok _) |- _ =>
      apply pool_header_run in H1 as [Hhead Hres];
      pose proof (dispatch_keeps_buffer_id (fun _ => False) _ _ _ _ _
                    (fun _ F => F) _ _ _ H2) as [Hid _];
      pose proof (fun Hne => dispatch_keeps_aggregate _ _ _ _ _ Hne _ _ _ H2) as Hagg
  end.
  injection H as <-. simpl. rewrite Hid. split; [done|].
  intros Hne k Hk. destruct (Hagg Hne) as [_ Hr]. by rewrite Hr, Hres.
Qed.

(** A pool header sets the pool id to the number it names. *)
Lemma pool_header_sets_id raw n st st' :
  names_pool raw n -> scan_line raw st = (st', Ok tt) -> buffer_id st' = n.
Proof.
  intros [Hstart Hn] Hrun.
  apply scan_line_named_pool in Hrun as [[[_ Hid] | [Hno _]] _]; [|congruence].
  rewrite Hn in Hid. by injection Hid.
Qed.

(** While the pool id is not -1 and no line resets it, the aggregate entries
    stay. *)
Lemma inside_named_pool lines st st' :
  buffer_id st <> -1 ->
  Forall (fun raw => ~ names_pool raw (-1)) lines ->
  scan_lines lines st = (st', Ok tt) ->
  buffer_id st' <> -1
  /\ forall k, k ∈ aggregate_keys -> results st' !! k = results st !! k.
Proof.
  revert st. induction lines as [|raw lines IH]; intros st Hid Hall Hrun.
  - injection Hrun as <-. by split.
  - simpl in Hrun. apply eff_bind_Ok in Hrun as (st1 & [] & Hline & Hrest).
    apply Forall_cons in Hall as [Hraw Hall].
    apply scan_line_named_pool in Hline as [Hpool Hagg].
    assert (Hid1 : buffer_id st1 <> -1).
    { destruct Hpool as [Hn | [_ ->]]; [|done]. intros Heq. apply Hraw. by rewrite <- Heq. }
    destruct (IH st1 Hid1 Hall Hrest) as [Hid' Hr].
    split; [done|]. intros k Hk. rewrite (Hr k Hk). by apply Hagg.
Qed.

(** From the header of a named pool on, whatever the locals before it. *)
Lemma after_pool_header header n lines st st' :
  names_pool header n -> n <> -1 ->
  Forall (fun raw => ~ names_pool raw (-1)) lines ->
  scan_lines (header :: lines) st = (st', Ok tt) ->
  buffer_id st' <> -1
  /\ forall k, k ∈ aggregate_keys -> results st' !! k = results st !! k.
Proof.
  intros Hhead Hn Hall Hrun. simpl in Hrun.
  apply eff_bind_Ok in Hrun as (st1 & [] & Hline & Hrest).
  pose proof (pool_header_sets_id _ _ _ _ Hhead Hline) as Hid.
  apply scan_line_named_pool in Hline as [_ Hagg].
  assert (Hid1 : buffer_id st1 <> -1) by congruence.
  destruct (inside_named_pool lines st1 st' Hid1 Hall Hrest) as [Hid' Hr].
  split; [done|]. intros k Hk. rewrite (Hr k Hk). by apply Hagg.
Qed.

(** C9: a line '---BUFFER POOL n' sets the current pool id to n, from any
    state of the scan, the first line of the text included; while the pool
    id is not -1 and no line resets it to -1, the lines read leave the
    aggregate entries for the pool size, free, data and dirty pages and for
    pages read, created and written as they were; so from the header of a
    named pool on, the aggregate entries are what they were before the
    header.  The text 'Database pages 100', '---BUFFER POOL 1', 'Database
    pages 500' gives the aggregate 100: the first line, read while the id is
    -1, counts, and the line of pool 1 does not. *)
Theorem named_pool_lines_leave_aggregate :
  (forall raw n st st',
      names_pool raw n -> scan_line raw st = (st', Ok tt) -> buffer_id st' = n)
  /\ (forall lines st st',
      buffer_id st <> -1 ->
      Forall (fun raw => ~ names_pool raw (-1)) lines ->
      scan_lines lines st = (st', Ok tt) ->
      buffer_id st' <> -1
      /\ forall k, k ∈ aggregate_keys -> results st' !! k = results st !! k)
  /\ (forall header n lines st st',
      names_pool header n -> n <> -1 ->
      Forall (fun raw => ~ names_pool raw (-1)) lines ->
      scan_lines (header :: lines) st = (st', Ok tt) ->
      buffer_id st' <> -1
      /\ forall k, k ∈ aggregate_keys -> results st' !! k = results st !! k)
  /\ names_pool "---BUFFER POOL 1" 1
  /\ buffer_id initial_scan = -1
  /\ results (scan_lines ["Database pages 100"; "---BUFFER POOL 1"; "Database pages 500"]
                initial_scan).1 !! "Innodb_buffer_pool_pages_data" = Some 100
  /\ results (scan_lines ["---BUFFER POOL 1"; "Database pages 500"]
                initial_scan).1 !! "Innodb_buffer_pool_pages_data" = None.
Proof.
  split; [exact pool_header_sets_id|].
  split; [exact inside_named_pool|].
  split; [exact after_pool_header|].
  split; [by split|].
  split; [reflexivity|].
  split; vm_compute; reflexivity.
Qed.

(** The line '---BUFFER POOL 1' opens the report of a named pool. *)
Example header_opens_pool_1 :
  scan_lines ["---BUFFER POOL 1"] initial_scan = (Sample.in_pool_1, Ok tt).
Proof. vm_compute. reflexivity. Qed.

Lemma named_pool_lines_leave_aggregate_witness :
  let r := scan_lines ["---BUFFER POOL 1"; "Database pages 500"] initial_scan in
  r.2 = Ok tt
  /\ buffer_id r.1 <> -1
  /\ results r.1 !! "Innodb_buffer_pool_pages_data"
     = results initial_scan !! "Innodb_buffer_pool_pages_data".
Proof.
  intros r.
  assert (Hrun : r = (r.1, Ok tt)) by (vm_compute; reflexivity).
  split; [by rewrite Hrun|].
  destruct (proj1 (proj2 (proj2 named_pool_lines_leave_aggregate))
              "---BUFFER POOL 1" 1 ["Database pages 500"] initial_scan r.1)
    as [Hid Hagg].
  - by split.
  - lia.
  - repeat constructor. intros [_ H]. vm_compute in H. discriminate.
  - exact Hrun.
  - split; [done|]. apply Hagg. set_solver.
Defined.

(** A sub-report of pool 1 after the aggregate report: the aggregate count of
    data pages stays the one read before the pool header. *)
Example pool_1_after_aggregate :
  (_get_stats_from_innodb_status
     (QueryText (Sample.text_of ["Database pages 100"; "---BUFFER POOL 1";
                                 "Database pages 500"]))).2
  = Ok {[ "Innodb_buffer_pool_pages_data" := "100"; "Innodb_lsn_current" := "0";
          "Innodb_lsn_last_checkpoint" := "0"; "Innodb_checkpoint_age" := "0" ]}.
Proof. vm_compute. reflexivity. Qed.

(** *** The checkpoint age *)

(** Reading an entry of the [defaultdict] never raises, so the handler of the
    [try] is never run: the derived value is stored whatever was collected. *)
Lemma checkpoint_age_run st :
  exists cur last,
    default 0 (results st !! "Innodb_lsn_current") = cur
    /\ default 0 (results st !! "Innodb_lsn_last_checkpoint") = last
    /\ exists st', checkpoint_age st = (st', Ok tt)
                   /\ logged st' = logged st
                   /\ results st' !! "Innodb_checkpoint_age" = Some (cur - last)
                   /\ results st' !! "Innodb_lsn_current" = Some cur
                   /\ results st' !! "Innodb_lsn_last_checkpoint" = Some last.
Proof.
  eexists _, _. split; [reflexivity|]. split; [reflexivity|].
  unfold checkpoint_age, Stmt.try_except. rewrite !eff_bind_run.
  unfold Stmt.getitem at 1.
  destruct (results st !! "Innodb_lsn_current") as [cur|] eqn:Ecur;
    rewrite eff_bind_run; unfold Stmt.getitem; simpl.
  - destruct (results st !! "Innodb_lsn_last_checkpoint") as [last|] eqn:Elast; simpl.
    + eexists. split; [reflexivity|]. simpl. by simplify_map_eq.
    + eexists. split; [reflexivity|]. simpl. by simplify_map_eq.
  - rewrite lookup_insert_ne by done.
    destruct (results st !! "Innodb_lsn_last_checkpoint") as [last|] eqn:Elast; simpl.
    + eexists. split; [reflexivity|]. simpl. by simplify_map_eq.
    + eexists. split; [reflexivity|]. simpl. by simplify_map_eq.
Qed.

(** Every parse that ends well reports a checkpoint age. *)
Lemma checkpoint_age_always_reported text log m :
  _get_stats_from_innodb_status (QueryText text) = (log, Ok m) ->
  exists cur last,
    m !! "Innodb_lsn_current" = Some (Str.of_Z cur)
    /\ m !! "Innodb_lsn_last_checkpoint" = Some (Str.of_Z last)
    /\ m !! "Innodb_checkpoint_age" = Some (Str.of_Z (cur - last)).
Proof.
  unfold _get_stats_from_innodb_status, parse_innodb_status.
  rewrite eff_bind_run.
  destruct (scan_lines (Str.splitlines text) initial_scan) as [st [[]|e]]; [|done].
  destruct (checkpoint_age_run st) as (cur & last & _ & _ & st' & -> & _ & Ha & Hc & Hl).
  intros [= <- <-]. exists cur, last. rewrite !lookup_fmap, Ha, Hc, Hl. done.
Qed.

(** C3: on a status text in which neither LSN counter occurs (here the empty
    text) the parser still reports a checkpoint age, the string "0", stores
    both missing counters as "0", and logs nothing. *)
Theorem checkpoint_age_of_empty_text :
  _get_stats_from_innodb_status (QueryText "") =
    ([], Ok {[ "Innodb_lsn_current" := "0"; "Innodb_lsn_last_checkpoint" := "0";
               "Innodb_checkpoint_age" := "0" ]})
  /\ (_get_stats_from_innodb_status (QueryText "Log sequence number 272588624")).2 =
       Ok {[ "Innodb_lsn_current" := "272588624"; "Innodb_lsn_last_checkpoint" := "0";
             "Innodb_checkpoint_age" := "272588624" ]}.
Proof. split; vm_compute; reflexivity. Qed.

(** *** The line 'Pending normal aio reads:' *)

Lemma startswith_other p q s :
  Str.startswith p s = true ->
  Str.startswith p q = false ->
  Str.startswith q p = false ->
  Str.startswith q s = false.
Proof.
  revert q s. induction p as [|a p IH]; intros q s Hp Hpq Hqp; [done|].
  destruct q as [|b q]; [done|]. destruct s as [|c s]; [done|].
  simpl in *. apply andb_prop in Hp as [Hac Hp].
  apply Ascii.eqb_eq in Hac as <-. unfold Chr.eqb in *.
  rewrite (Ascii.eqb_sym b a).
  destruct (Ascii.eqb a b) eqn:Eab; [|done]. simpl in *.
  apply Ascii.eqb_eq in Eab as <-. rewrite Ascii.eqb_refl in Hqp. simpl in Hqp.
  by apply IH.
Qed.

(** A statement that raises nothing but [ValueError]. *)
Definition raises_value_only {A} (m : Scan A) : Prop :=
  forall st st' e, m st = (st', Raise e) -> e = ValueError.

Create HintDb raises discriminated.

Lemma rvo_ret {A} (a : A) : raises_value_only (mret a : Scan A).
Proof. by intros st st' e. Qed.

Lemma rvo_bind {A B} (m : Scan A) (k : A -> Scan B) :
  raises_value_only m -> (forall a, raises_value_only (k a)) -> raises_value_only (m ≫= k).
Proof.
  intros Hm Hk st st' e. rewrite eff_bind_run.
  destruct (m st) as [st1 [a|e1]] eqn:E; intros H.
  - by eapply Hk.
  - injection H as <- <-. by eapply Hm.
Qed.

Lemma rvo_setitem k v : raises_value_only (Stmt.setitem k v).
Proof. by intros st st' e. Qed.

Lemma rvo_log ev : raises_value_only (Stmt.log ev).
Proof. by intros st st' e. Qed.

Lemma int_of_str_raises s e : Num.int_of_str s = Raise e -> e = ValueError.
Proof.
  unfold Num.int_of_str. destruct (Num.signed _) as [neg body].
  destruct (Num.digits_value 0 false body); [done | by intros [= <-]].
Qed.

Lemma rvo_long_at row i : (i < length row)%nat -> raises_value_only (Stmt.long_at row i).
Proof.
  intros Hi st st' e. unfold Stmt.long_at, lift, py_index.
  destruct (lookup_lt_is_Some_2 row i Hi) as [tok ->]. simpl.
  intros [= _ H]. by apply int_of_str_raises in H.
Qed.

Lemma rvo_store k row i : (i < length row)%nat -> raises_value_only (Stmt.store k row i).
Proof.
  intros Hi. apply rvo_bind; [by apply rvo_long_at|]. intros v. apply rvo_setitem.
Qed.

#[local] Hint Resolve rvo_ret rvo_bind rvo_setitem rvo_log rvo_long_at rvo_store : raises.
#[local] Hint Extern 1 (_ < length _)%nat => lia : raises.
#[local] Hint Extern 2 (forall _, raises_value_only _) => intro : raises.

Lemma rvo_pending_body line row : raises_value_only (pending_normal_aio_body line row).
Proof.
  unfold pending_normal_aio_body, Stmt.pass.
  repeat match goal with
         | |- context [(length row =? ?n)%nat] => destruct (Nat.eqb_spec (length row) n)
         | |- raises_value_only (if ?c then _ else _) => destruct c
         end; auto 20 with raises.
Qed.

(** The [try] statement never raises, and changes [results] at the two
    pending entries at most; with an unknown number of tokens it changes
    nothing at all. *)
Lemma pending_normal_aio_total line row st :
  exists st',
    pending_normal_aio line row st = (st', Ok tt)
    /\ (forall k, k ∉ pending_aio_keys -> results st' !! k = results st !! k)
    /\ (length row ∉ pending_aio_layouts -> st' = st).
Proof.
  destruct (pending_normal_aio line row st) as [st' r] eqn:Hrun. exists st'.
  assert (Hkeep : frames (fun k => k ∉ pending_aio_keys) st st').
  { eapply keeps_pending_normal_aio; [|done]. by intros k Hk Hn. }
  revert Hrun. unfold pending_normal_aio, Stmt.try_except.
  destruct (pending_normal_aio_body line row st) as [st1 [[]|e]] eqn:Hbody.
  - intros [= <- <-]. split; [done|]. split; [apply Hkeep|].
    intros Hn. revert Hbody. unfold pending_normal_aio_body, pending_aio_layouts in *.
    repeat match goal with
           | |- context [(length row =? ?n)%nat] =>
               destruct (Nat.eqb_spec (length row) n); [exfalso; set_solver|]
           end.
    by intros [= <-].
  - rewrite (rvo_pending_body _ _ _ _ _ Hbody). simpl.
    intros [= <- <-]. split; [done|]. split; [apply Hkeep|].
    intros Hn. revert Hbody. unfold pending_normal_aio_body, pending_aio_layouts in *.
    repeat match goal with
           | |- context [(length row =? ?n)%nat] =>
               destruct (Nat.eqb_spec (length row) n); [exfalso; set_solver|]
           end.
    done.
Qed.


(** Case analysis on the token read at offset [i]: its integer, or the
    exception of the read; the cases in which the run is settled are closed. *)
Ltac read_token i :=
  match goal with
  | |- context [bind (py_index ?row i) ?f] =>
      let r := fresh "r" in
      set (r := bind (py_index row i) f);
      repeat match goal with
             | |- context [bind (py_index row i) ?g] =>
                 change (bind (py_index row i) g) with r
             end;
      clearbody r; destruct r as [?|[]]
  end;
  simpl;
  try (intros [= <-]; simpl;
       repeat split; intros; try discriminate; try done;
       by rewrite ?lookup_insert_ne by done).

(** What the branch leaves in the log: a line of 16 tokens that matches
    neither layout is reported as it is; a token that is read and is no
    number is reported with the error, and the entry for the writes is then
    left as it was; otherwise nothing is logged. *)
Lemma pending_normal_aio_log line row st st1 :
  pending_normal_aio line row st = (st1, Ok tt) ->
  (pending_aio_unparsed row = true ->
   results st1 = results st /\ logged st1 = (logged st ++ [WarnCantParse line])%list)
  /\ (forallb (readable row) (pending_aio_offsets row) = false ->
      logged st1 = (logged st ++ [WarnCantParseValue line])%list
      /\ results st1 !! "Innodb_pending_normal_aio_writes"
         = results st !! "Innodb_pending_normal_aio_writes")
  /\ (pending_aio_unparsed row = false ->
      forallb (readable row) (pending_aio_offsets row) = true ->
      logged st1 = logged st).
Proof.
  unfold pending_normal_aio, Stmt.try_except, pending_normal_aio_body,
    pending_aio_unparsed, pending_aio_offsets, readable,
    Stmt.store, Stmt.long_at, Stmt.pass.
  destruct (Nat.eqb_spec (length row) 8) as [Hlen|_];
    [rewrite Hlen; cbn [Nat.eqb andb forallb]; read_token 4%nat; read_token 7%nat|].
  destruct (Nat.eqb_spec (length row) 14) as [Hlen|_];
    [rewrite Hlen; cbn [Nat.eqb andb forallb]; read_token 4%nat; read_token 10%nat|].
  destruct (Nat.eqb_spec (length row) 16) as [Hlen|_].
  - cbn [andb].
    destruct (_are_values_numeric (py_slice row 4 8)
              && _are_values_numeric (py_slice row 11 15)).
    + cbn [forallb]. read_token 4%nat; read_token 5%nat; read_token 6%nat; read_token 7%nat; read_token 11%nat; read_token 12%nat; read_token 13%nat; read_token 14%nat.
    + destruct (_are_values_numeric (py_slice row 4 9)
                && _are_values_numeric (py_slice row 12 15));
        [cbn [forallb]; read_token 4%nat; read_token 12%nat|].
      cbn. intros [= <-]. cbn. repeat split; intros; try discriminate; done.
  - cbn [andb].
    destruct (Nat.eqb_spec (length row) 18) as [Hlen|_];
      [cbn [forallb]; read_token 4%nat; read_token 12%nat|].
    destruct (Nat.eqb_spec (length row) 22) as [Hlen|_];
      [cbn [forallb]; read_token 4%nat; read_token 16%nat|].
    cbn. intros [= <-]. repeat split; intros; try discriminate; done.
Qed.



(** A line of 16 tokens of which a value is no number matches neither
    layout: it is logged as unparsed and nothing is stored. *)
Example sixteen_tokens_unparsed :
  let line := "Pending normal aio reads: [0, 0, x, 0] , aio writes: [0, 0, 0, 0] ," in
  length (tokens line) = 16%nat
  /\ (scan_line line initial_scan).2 = Ok tt
  /\ logged (scan_line line initial_scan).1 = [WarnCantParse line]
  /\ results (scan_line line initial_scan).1 = ∅.
Proof. repeat split; vm_compute; reflexivity. Qed.

(** On such a line a value that is no number is logged and the rest of the
    line is skipped; a number of tokens without a layout is skipped without
    a word in the log. *)
Example pending_aio_lines_skipped :
  _get_stats_from_innodb_status
    (QueryText "Pending normal aio reads: 3, aio writes: n/a,")
  = ([WarnCantParseValue "Pending normal aio reads: 3, aio writes: n/a,"],
     Ok {[ "Innodb_pending_normal_aio_reads" := "3"; "Innodb_lsn_current" := "0";
           "Innodb_lsn_last_checkpoint" := "0"; "Innodb_checkpoint_age" := "0" ]})
  /\ _get_stats_from_innodb_status (QueryText "Pending normal aio reads: 3")
     = ([], Ok {[ "Innodb_lsn_current" := "0"; "Innodb_lsn_last_checkpoint" := "0";
                  "Innodb_checkpoint_age" := "0" ]}).
Proof. split; vm_compute; reflexivity. Qed.

(** ** Binary64 values of integers *)

Lemma digits2_bounds (p : positive) :
  2 ^ (Zpos (digits2_pos p) - 1) <= Zpos p < 2 ^ Zpos (digits2_pos p).
Proof.
  induction p as [p IH | p IH |]; simpl digits2_pos.
  - rewrite Pos2Z.inj_succ.
    replace (Z.succ (Zpos (digits2_pos p)) - 1) with (Z.succ (Zpos (digits2_pos p) - 1)) by lia.
    rewrite !Z.pow_succ_r by lia. lia.
  - rewrite Pos2Z.inj_succ.
    replace (Z.succ (Zpos (digits2_pos p)) - 1) with (Z.succ (Zpos (digits2_pos p) - 1)) by lia.
    rewrite !Z.pow_succ_r by lia. lia.
  - simpl. lia.
Qed.

Lemma digits2_iter_xO (p k : positive) :
  digits2_pos (Pos.iter xO p k) = (digits2_pos p + k)%positive.
Proof.
  induction k as [|k IH] using Pos.peano_ind.
  - simpl. lia.
  - rewrite Pos.iter_succ. simpl. rewrite IH. lia.
Qed.

Lemma shr_1_m (mrs : shr_record) : 0 <= shr_m mrs -> shr_m (shr_1 mrs) = shr_m mrs / 2.
Proof.
  destruct mrs as [m r s]. intros Hm.
  destruct m as [|[p|p|]|p]; cbn [shr_1 shr_m] in *.
  - reflexivity.
  - apply (Z.div_unique _ 2 _ 1); lia.
  - apply (Z.div_unique _ 2 _ 0); lia.
  - reflexivity.
  - lia.
Qed.

Lemma iter_shr_1_m (n : positive) (mrs : shr_record) :
  0 <= shr_m mrs ->
  shr_m (SpecFloat.iter_pos shr_1 n mrs) = shr_m mrs / 2 ^ Zpos n.
Proof.
  revert mrs. induction n as [n IH | n IH |]; intros mrs Hm; simpl SpecFloat.iter_pos.
  - assert (H1 : 0 <= shr_m (shr_1 mrs)) by (rewrite shr_1_m by done; apply Z.div_pos; lia).
    assert (H2 : 0 <= shr_m (SpecFloat.iter_pos shr_1 n (shr_1 mrs)))
      by (rewrite IH by done; apply Z.div_pos; lia).
    rewrite IH, IH, shr_1_m by done.
    rewrite !Z.div_div by lia. f_equal.
    replace (Zpos n~1) with (1 + Zpos n + Zpos n) by lia.
    rewrite !Z.pow_add_r by lia. lia.
  - assert (H2 : 0 <= shr_m (SpecFloat.iter_pos shr_1 n mrs))
      by (rewrite IH by done; apply Z.div_pos; lia).
    rewrite IH, IH by done. rewrite Z.div_div by lia. f_equal.
    replace (Zpos n~0) with (Zpos n + Zpos n) by lia.
    rewrite Z.pow_add_r by lia. lia.
  - rewrite shr_1_m by done. by rewrite Z.pow_1_r.
Qed.

Lemma shr_record_of_loc_m m l : shr_m (shr_record_of_loc m l) = m.
Proof. by destruct l as [|[]]. Qed.

(** The shift that brings a mantissa back to 53 bits. *)
Lemma shr_fexp_m (m e : Z) (l : location) :
  0 < m -> -1074 <= e ->
  shr_m (shr_fexp Num.prec Num.emax m e l).1 = m / 2 ^ Z.max 0 (Zdigits2 m - 53)
  /\ (shr_fexp Num.prec Num.emax m e l).2 = e + Z.max 0 (Zdigits2 m - 53).
Proof.
  intros Hm He. unfold shr_fexp, shr, fexp, emin, Num.prec, Num.emax.
  destruct m as [|p|p]; [lia | | lia]. cbn [Zdigits2].
  pose proof (Pos2Z.is_pos (digits2_pos p)) as HD.
  destruct (Z.max (Zpos (digits2_pos p) + e - 53) (3 - 1024 - 53) - e) as [|s|s] eqn:Es;
    cbn [fst snd].
  - rewrite shr_record_of_loc_m. replace (Z.max 0 _) with 0 by lia.
    by rewrite Z.pow_0_r, Z.div_1_r, Z.add_0_r.
  - rewrite iter_shr_1_m by (rewrite shr_record_of_loc_m; lia).
    rewrite shr_record_of_loc_m.
    replace (Z.max 0 (Zpos (digits2_pos p) - 53)) with (Zpos s) by lia. done.
  - rewrite shr_record_of_loc_m. replace (Z.max 0 _) with 0 by lia.
    by rewrite Z.pow_0_r, Z.div_1_r, Z.add_0_r.
Qed.

Lemma Zdigits2_bounds (m : Z) :
  0 < m -> 2 ^ (Zdigits2 m - 1) <= m < 2 ^ Zdigits2 m /\ 0 < Zdigits2 m.
Proof.
  destruct m as [|p|p]; try lia. intros _. cbn [Zdigits2].
  split; [apply digits2_bounds | lia].
Qed.

Lemma round_nearest_even_range m l :
  m <= round_nearest_even m l <= m + 1.
Proof. destruct l as [|[]]; simpl; try lia. destruct (Z.even m); lia. Qed.

(** Rounding a positive mantissa whose exponent is not below the smallest
    one gives a finite, non-zero value, unless it overflows. *)
Lemma binary_round_aux_finite (mx ex : Z) :
  0 < mx -> -1074 <= ex ->
  ex + Z.max 0 (Zdigits2 mx - 53) + 1 <= 971 ->
  exists m e, binary_round_aux Num.prec Num.emax false mx ex loc_Exact = S754_finite false m e.
Proof.
  intros Hmx Hex Hover. unfold binary_round_aux.
  destruct (shr_fexp_m mx ex loc_Exact Hmx Hex) as [Hm1 He1].
  destruct (shr_fexp Num.prec Num.emax mx ex loc_Exact) as [mrs1 e1].
  cbn [fst snd] in Hm1, He1.
  destruct (Zdigits2_bounds mx Hmx) as [[Hlo Hhi] HD].
  set (n1 := Z.max 0 (Zdigits2 mx - 53)) in *.
  assert (Hm1r : 1 <= shr_m mrs1 <= 2 ^ 53 - 1).
  { rewrite Hm1. destruct (Z.le_gt_cases (Zdigits2 mx) 53) as [Hle | Hgt].
    - replace n1 with 0 by lia. rewrite Z.pow_0_r, Z.div_1_r.
      assert (2 ^ Zdigits2 mx <= 2 ^ 53) by (apply Z.pow_le_mono_r; lia). lia.
    - replace n1 with (Zdigits2 mx - 53) by lia.
      assert (Hp : 0 < 2 ^ (Zdigits2 mx - 53)) by (apply Z.pow_pos_nonneg; lia).
      assert (H52 : 2 ^ (Zdigits2 mx - 1) = 2 ^ 52 * 2 ^ (Zdigits2 mx - 53)).
      { rewrite <- Z.pow_add_r by lia. f_equal. lia. }
      assert (H53 : 2 ^ Zdigits2 mx = 2 ^ 53 * 2 ^ (Zdigits2 mx - 53)).
      { rewrite <- Z.pow_add_r by lia. f_equal. lia. }
      split.
      + assert (2 ^ 52 <= mx / 2 ^ (Zdigits2 mx - 53)); [|lia].
        apply Z.div_le_lower_bound; lia.
      + assert (mx / 2 ^ (Zdigits2 mx - 53) < 2 ^ 53); [|lia].
        apply Z.div_lt_upper_bound; lia. }
  pose proof (round_nearest_even_range (shr_m mrs1) (loc_of_shr_record mrs1)) as Hr.
  set (r := round_nearest_even (shr_m mrs1) (loc_of_shr_record mrs1)) in *.
  assert (Hr0 : 0 < r) by lia.
  destruct (shr_fexp_m r e1 loc_Exact Hr0 ltac:(lia)) as [Hm2 He2].
  destruct (shr_fexp Num.prec Num.emax r e1 loc_Exact) as [mrs2 e2].
  cbn [fst snd] in Hm2, He2.
  destruct (Zdigits2_bounds r Hr0) as [[Hrlo Hrhi] HDr].
  assert (HDr54 : Zdigits2 r <= 54).
  { destruct (Z.le_gt_cases (Zdigits2 r) 54) as [|Hgt]; [done|].
    assert (2 ^ 54 <= 2 ^ (Zdigits2 r - 1)) by (apply Z.pow_le_mono_r; lia). lia. }
  assert (Hm2r : 1 <= shr_m mrs2).
  { rewrite Hm2. destruct (Z.le_gt_cases (Zdigits2 r) 53) as [Hle | Hgt].
    - replace (Z.max 0 _) with 0 by lia. rewrite Z.pow_0_r, Z.div_1_r. lia.
    - replace (Z.max 0 _) with 1 by lia. replace (Zdigits2 r) with 54 in Hrlo by lia.
      rewrite Z.pow_1_r. apply Z.div_le_lower_bound; lia. }
  destruct (shr_m mrs2) as [|q|q]; [lia | | lia].
  assert (He2r : e2 <= 1024 - 53) by lia.
  apply Z.leb_le in He2r. unfold Num.emax, Num.prec. rewrite He2r. eauto.
Qed.

(** An integer between 1 and [2^1023] has a finite, non-zero binary64 value. *)
Lemma of_Z_finite (z : Z) :
  0 < z < 2 ^ 1023 -> exists m e, Num.of_Z z = S754_finite false m e.
Proof.
  intros [Hz Hbig]. destruct z as [|p|p]; try lia.
  unfold Num.of_Z, binary_normalize, binary_round, shl_align.
  pose proof (digits2_bounds p) as [Hlo Hhi].
  pose proof (Pos2Z.is_pos (digits2_pos p)) as HD.
  assert (Hfexp : fexp Num.prec Num.emax (Zpos (digits2_pos p) + 0) = Zpos (digits2_pos p) - 53)
    by (unfold fexp, emin, Num.prec, Num.emax; lia).
  rewrite Hfexp.
  assert (HD1023 : Zpos (digits2_pos p) <= 1023).
  { destruct (Z.le_gt_cases (Zpos (digits2_pos p)) 1023) as [|Hgt]; [done|].
    assert (2 ^ 1023 <= 2 ^ (Zpos (digits2_pos p) - 1)) by (apply Z.pow_le_mono_r; lia).
    lia. }
  destruct (Zpos (digits2_pos p) - 53 - 0) as [|k|k] eqn:Ek.
  - apply binary_round_aux_finite; cbn [Zdigits2]; lia.
  - apply binary_round_aux_finite; cbn [Zdigits2]; lia.
  - apply binary_round_aux_finite; cbn [Zdigits2]; rewrite ?digits2_iter_xO; lia.
Qed.

(** ** The synthetic query-cache metrics *)

(** What [_compute_synthetic_results] did when it ended well: nothing when a
    counter is missing; otherwise the cumulative value, the instantaneous one
    when there is a previous sample, and the three new attributes. *)
Lemma compute_synthetic_Ok q res res' q' :
  _compute_synthetic_results q res = Ok (res', q') ->
  ((res !! "Qcache_hits" = None \/ res !! "Qcache_inserts" = None
    \/ res !! "Qcache_not_cached" = None)
   /\ res' = res /\ q' = q)
  \/ exists hits inserts not_cached u h i n,
       res !! "Qcache_hits" = Some hits
       /\ res !! "Qcache_inserts" = Some inserts
       /\ res !! "Qcache_not_cached" = Some not_cached
       /\ qcache_utilization hits inserts not_cached = Ok u
       /\ to_int hits = Ok h /\ to_int inserts = Ok i /\ to_int not_cached = Ok n
       /\ q' = {| _qcache_hits := Some h; _qcache_inserts := Some i;
                  _qcache_not_cached := Some n |}
       /\ match previous_sample q with
          | None => res' = <["Qcache_utilization" := u]> res
          | Some prev =>
              exists v, qcache_instant_utilization prev hits inserts not_cached = Ok v
                        /\ res' = <["Qcache_instant_utilization" := v]>
                                    (<["Qcache_utilization" := u]> res)
          end.
Proof.
  unfold _compute_synthetic_results.
  destruct (res !! "Qcache_hits") as [hits|]; [|intros [= <- <-]; left; auto].
  destruct (res !! "Qcache_inserts") as [inserts|]; [|intros [= <- <-]; left; auto].
  destruct (res !! "Qcache_not_cached") as [not_cached|]; [|intros [= <- <-]; left; auto 6].
  intros H. right.
  apply bind_Ok in H as (u & Hu & H).
  apply bind_Ok in H as (res1 & Hres1 & H).
  apply bind_Ok in H as (h & Hh & H).
  apply bind_Ok in H as (i & Hi & H).
  apply bind_Ok in H as (n & Hn & [= <- <-]).
  exists hits, inserts, not_cached, u, h, i, n. repeat split; try done.
  destruct (previous_sample q) as [prev|].
  - apply bind_Ok in Hres1 as (v & Hv & [= <-]). eauto.
  - by injection Hres1 as <-.
Qed.

(** A delta of zero hits gives the integer 0 before any division. *)
Lemma instant_utilization_zero_delta hits inserts not_cached h prev_inserts prev_not_cached :
  to_int hits = Ok h ->
  qcache_instant_utilization (h, prev_inserts, prev_not_cached) hits inserts not_cached
  = Ok (VInt 0).
Proof.
  intros Hh. unfold qcache_instant_utilization. rewrite Hh. cbn [bind].
  by rewrite Z.sub_diag.
Qed.

(** No hit at all gives the integer 0 before any division. *)
Lemma utilization_zero_hits hits inserts not_cached :
  to_int hits = Ok 0 -> qcache_utilization hits inserts not_cached = Ok (VInt 0).
Proof. intros Hh. unfold qcache_utilization. by rewrite Hh. Qed.

Lemma duplicate_other res d k : k <> d.2 -> duplicate res d !! k = res !! k.
Proof.
  intros Hk. unfold duplicate. destruct (res !! d.1); [|done].
  by apply lookup_insert_ne.
Qed.

Lemma dupes_other res k :
  k <> "Table_locks_waited_rate" -> k <> "Table_locks_immediate_rate" ->
  fold_left duplicate dupes res !! k = res !! k.
Proof.
  intros H1 H2. unfold dupes. simpl. by rewrite !duplicate_other.
Qed.

Section CheckInversion.

Variable T : const_tables.

(** What a pass of [check] that ended well did to the instance. *)
Lemma check_Ok inp self S0 self' S' out :
  check T inp self S0 = (self', S', Ok out) ->
  let host_key := _get_host_key (instance self) in
  let q := default no_sample (qcache_stats self !! host_key) in
  _collect_metrics T inp q S0 = (S', Ok out)
  /\ instance self' = instance self
  /\ qcache_stats self' = <[host_key := qcache_after out]> (qcache_stats self).
Proof.
  unfold check, _set_qcache_stats, _put_qcache_stats. simpl.
  destruct (_collect_metrics T inp _ S0) as [S1 [out1|e]]; [|done].
  by intros [= <- <- <-].
Qed.

(** The instantaneous entry of a pass that ended well. *)
Lemma instant_entry_of_pass inp q S0 S' out :
  _collect_metrics T inp q S0 = (S', Ok out) ->
  exists res' q',
    _compute_synthetic_results q (merged_results inp) = Ok (res', q')
    /\ qcache_after out = q'
    /\ submitted_results out !! "Qcache_instant_utilization"
       = res' !! "Qcache_instant_utilization"
    /\ submitted_results out !! "Qcache_utilization" = res' !! "Qcache_utilization"
    /\ (is_Some (SYNTHETIC_VARS T !! "Qcache_instant_utilization") ->
        res' !! "Qcache_instant_utilization" = None ->
        submitted_metrics out !! "Qcache_instant_utilization" = None).
Proof.
  intros Hrun.
  apply collect_metrics_Ok in Hrun
    as ([res' q'] & S1 & Hsyn & Hres & Hq & Hmet & Hprune & _).
  exists res', q'. cbn [fst snd] in *. rewrite Hres, !dupes_other by done.
  repeat split; try done.
  intros Hin Hnone. rewrite Hmet. unfold Cat.prune in Hprune.
  injection Hprune as <-. apply map_lookup_filter_None. right.
  intros d _ [Hd | Hd]; simpl in Hd.
  - rewrite Hd in Hin. by destruct Hin.
  - rewrite Hnone in Hd. by destruct Hd.
Qed.

End CheckInversion.

Lemma float_of_int_finite (z : Z) :
  0 < z < 2 ^ 1023 ->
  Num.float_of_int z = Ok (Num.of_Z z) /\ Num.is_zero (Num.of_Z z) = false.
Proof.
  intros Hz. unfold Num.float_of_int.
  destruct (of_Z_finite z Hz) as (m & e & ->). by split.
Qed.

(** With counters that are natural numbers and at least one hit, the
    cumulative value is the binary64 quotient of the hits by the sum of the
    three counters, times 100. *)
Lemma utilization_formula hits inserts not_cached h i n fh :
  to_int hits = Ok h -> to_int inserts = Ok i -> to_int not_cached = Ok n ->
  to_float hits = Ok fh ->
  0 < h -> 0 <= i -> 0 <= n -> i + n + h < 2 ^ 1023 ->
  qcache_utilization hits inserts not_cached =
    Ok (VFloat (Num.mul (SFdiv Num.prec Num.emax fh (Num.of_Z (i + n + h)))
                        (Num.of_Z 100))).
Proof.
  intros Hh Hi Hn Hfh Hpos Hi0 Hn0 Hbig.
  unfold qcache_utilization. rewrite Hh. cbn [bind].
  destruct (Z.eqb_spec h 0) as [|_]; [lia|].
  rewrite Hfh, Hi, Hn. cbn [bind].
  destruct (float_of_int_finite (i + n + h)) as [-> Hnz]; [lia|]. cbn [bind].
  unfold Num.div. by rewrite Hnz.
Qed.

(** C8: when the three raw counters are present and the synthetic metrics
    are computed, the cumulative utilization stored is the value of
    hits / (inserts + not_cached + hits) * 100 in binary64 arithmetic, for
    counters that are natural numbers; it is the integer 0 when there is no
    hit; and hits = 50, inserts = 30, not_cached = 20 give 50.0. *)
Theorem cumulative_utilization_formula :
  (forall q res res' q' hits inserts not_cached,
      _compute_synthetic_results q res = Ok (res', q') ->
      res !! "Qcache_hits" = Some hits ->
      res !! "Qcache_inserts" = Some inserts ->
      res !! "Qcache_not_cached" = Some not_cached ->
      exists u, qcache_utilization hits inserts not_cached = Ok u
                /\ res' !! "Qcache_utilization" = Some u)
  /\ (forall hits inserts not_cached,
      to_int hits = Ok 0 ->
      qcache_utilization hits inserts not_cached = Ok (VInt 0))
  /\ (forall hits inserts not_cached h i n fh,
      to_int hits = Ok h -> to_int inserts = Ok i -> to_int not_cached = Ok n ->
      to_float hits = Ok fh ->
      0 < h -> 0 <= i -> 0 <= n -> i + n + h < 2 ^ 1023 ->
      qcache_utilization hits inserts not_cached =
        Ok (VFloat (Num.mul (SFdiv Num.prec Num.emax fh (Num.of_Z (i + n + h)))
                            (Num.of_Z 100))))
  /\ qcache_utilization (VStr "50") (VStr "30") (VStr "20") = Ok (VFloat (Num.of_Z 50))
  /\ (let* r := _compute_synthetic_results no_sample
                   (Sample.qcache_results "50" "30" "20") in
      Ok (r.1 !! "Qcache_utilization"))
     = Ok (Some (VFloat (Num.of_Z 50))).
Proof.
  split; [|split; [apply utilization_zero_hits | split; [apply utilization_formula|]]].
  - intros q res res' q' hits inserts not_cached Hrun Hh Hi Hn.
    apply compute_synthetic_Ok in Hrun as [([H | [H | H]] & _) | Hrun]; try congruence.
    destruct Hrun as (hits' & ins' & nc' & u & h & i & n & Hh' & Hi' & Hn' & Hu & _ & _ & _ & _ & Hres).
    simplify_eq. exists u. split; [done|].
    destruct (previous_sample q) as [prev|].
    + destruct Hres as (v & _ & ->). by simplify_map_eq.
    + subst res'. by simplify_map_eq.
  - split; vm_compute; reflexivity.
Qed.

Lemma cumulative_utilization_formula_witness :
  qcache_utilization (VStr "7") (VStr "2") (VStr "1") =
    Ok (VFloat (Num.mul (SFdiv Num.prec Num.emax (Num.of_Z 7) (Num.of_Z (2 + 1 + 7)))
                        (Num.of_Z 100))).
Proof.
  refine (proj1 (proj2 (proj2 cumulative_utilization_formula))
            (VStr "7") (VStr "2") (VStr "1") 7 2 1 (Num.of_Z 7) _ _ _ _ _ _ _ _);
    try reflexivity; try lia.
Defined.

(** Without a complete previous sample the instantaneous entry is left as
    it was. *)
Lemma instant_needs_previous_sample q res res' q' :
  _compute_synthetic_results q res = Ok (res', q') ->
  previous_sample q = None ->
  res' !! "Qcache_instant_utilization" = res !! "Qcache_instant_utilization".
Proof.
  intros Hrun Hprev.
  apply compute_synthetic_Ok in Hrun as [(_ & -> & _) | Hrun]; [done|].
  destruct Hrun as (? & ? & ? & u & ? & ? & ? & _ & _ & _ & _ & _ & _ & _ & _ & Hres).
  rewrite Hprev in Hres. subst res'. by rewrite lookup_insert_ne.
Qed.

Section TwoSamples.

Variable T : const_tables.

(** The first sample of a server identity: no instantaneous entry in the
    results, and none in the catalogue. *)
Lemma first_sample_has_no_instant inp self S0 self' S' out :
  check T inp self S0 = (self', S', Ok out) ->
  qcache_stats self !! _get_host_key (instance self) = None ->
  merged_results inp !! "Qcache_instant_utilization" = None ->
  submitted_results out !! "Qcache_instant_utilization" = None
  /\ (is_Some (SYNTHETIC_VARS T !! "Qcache_instant_utilization") ->
      submitted_metrics out !! "Qcache_instant_utilization" = None).
Proof.
  intros Hrun Hfirst Hraw. apply check_Ok in Hrun as (Hrun & _ & _).
  rewrite Hfirst in Hrun. cbn [default] in Hrun.
  apply instant_entry_of_pass in Hrun as (res' & q' & Hsyn & _ & Hinst & _ & Hcat).
  apply instant_needs_previous_sample in Hsyn; [|done].
  rewrite Hraw in Hsyn. rewrite Hinst. split; [done | auto].
Qed.

(** A second sample with the counters of the first: the instantaneous entry
    is the integer 0. *)
Lemma second_identical_sample inp1 inp2 self S0 self1 S1 out1 self2 S2 out2
    hits inserts not_cached :
  merged_results inp1 !! "Qcache_hits" = Some hits ->
  merged_results inp1 !! "Qcache_inserts" = Some inserts ->
  merged_results inp1 !! "Qcache_not_cached" = Some not_cached ->
  merged_results inp2 !! "Qcache_hits" = Some hits ->
  merged_results inp2 !! "Qcache_inserts" = Some inserts ->
  merged_results inp2 !! "Qcache_not_cached" = Some not_cached ->
  check T inp1 self S0 = (self1, S1, Ok out1) ->
  check T inp2 self1 S1 = (self2, S2, Ok out2) ->
  submitted_results out2 !! "Qcache_instant_utilization" = Some (VInt 0).
Proof.
  intros Hh1 Hi1 Hn1 Hh2 Hi2 Hn2 Hrun1 Hrun2.
  apply check_Ok in Hrun1 as (Hrun1 & Hinst1 & Hstore1).
  apply check_Ok in Hrun2 as (Hrun2 & _ & _).
  rewrite Hinst1, Hstore1, lookup_insert_eq in Hrun2. cbn [default] in Hrun2.
  apply instant_entry_of_pass in Hrun1 as (res1 & q1 & Hsyn1 & Hq1 & _).
  apply instant_entry_of_pass in Hrun2 as (res2 & q2 & Hsyn2 & _ & Hinst2 & _).
  rewrite Hq1 in Hsyn2.
  apply compute_synthetic_Ok in Hsyn1 as [([Hx | [Hx | Hx]] & _) | Hsyn1]; try congruence.
  destruct Hsyn1
    as (hits1 & ins1 & nc1 & u1 & h & i & n & Ha1 & Hb1 & Hc1 & _ & Hh & _ & _ & -> & _).
  apply compute_synthetic_Ok in Hsyn2 as [([Hx | [Hx | Hx]] & _) | Hsyn2]; try congruence.
  destruct Hsyn2
    as (hits2 & ins2 & nc2 & u2 & h2 & i2 & n2 & Ha2 & Hb2 & Hc2 & _ & _ & _ & _ & _ & Hres).
  simplify_eq. cbn [previous_sample _qcache_hits _qcache_inserts _qcache_not_cached] in Hres.
  destruct Hres as (v & Hv & ->).
  rewrite (instant_utilization_zero_delta _ _ _ _ _ _ Hh) in Hv. injection Hv as <-.
  rewrite Hinst2. by rewrite lookup_insert_eq.
Qed.

End TwoSamples.

(** C7: the instantaneous utilization is computed only when the three
    counters of a previous sample are present; the first sample of a server
    identity has no instantaneous value, in the results or in the catalogue; a
    hits delta of zero gives the integer 0 without a division; and a second
    sample with the counters of the first gives 0. *)
Theorem instant_utilization_needs_history (T : const_tables) :
  (forall q res res' q',
      _compute_synthetic_results q res = Ok (res', q') ->
      previous_sample q = None ->
      res' !! "Qcache_instant_utilization" = res !! "Qcache_instant_utilization")
  /\ (forall inp self S0 self' S' out,
      check T inp self S0 = (self', S', Ok out) ->
      qcache_stats self !! _get_host_key (instance self) = None ->
      merged_results inp !! "Qcache_instant_utilization" = None ->
      submitted_results out !! "Qcache_instant_utilization" = None
      /\ (is_Some (SYNTHETIC_VARS T !! "Qcache_instant_utilization") ->
          submitted_metrics out !! "Qcache_instant_utilization" = None))
  /\ (forall hits inserts not_cached h prev_inserts prev_not_cached,
      to_int hits = Ok h ->
      qcache_instant_utilization (h, prev_inserts, prev_not_cached)
        hits inserts not_cached = Ok (VInt 0))
  /\ (forall inp1 inp2 self S0 self1 S1 out1 self2 S2 out2 hits inserts not_cached,
      merged_results inp1 !! "Qcache_hits" = Some hits ->
      merged_results inp1 !! "Qcache_inserts" = Some inserts ->
      merged_results inp1 !! "Qcache_not_cached" = Some not_cached ->
      merged_results inp2 !! "Qcache_hits" = Some hits ->
      merged_results inp2 !! "Qcache_inserts" = Some inserts ->
      merged_results inp2 !! "Qcache_not_cached" = Some not_cached ->
      check T inp1 self S0 = (self1, S1, Ok out1) ->
      check T inp2 self1 S1 = (self2, S2, Ok out2) ->
      submitted_results out2 !! "Qcache_instant_utilization" = Some (VInt 0)).
Proof.
  split; [apply instant_needs_previous_sample|].
  split; [apply first_sample_has_no_instant|].
  split; [apply instant_utilization_zero_delta|].
  apply second_identical_sample.
Qed.

Lemma instant_utilization_needs_history_witness :
  let p := Sample.pass Sample.all_off Sample.silent_replica
             (Sample.qcache_results "50" "30" "20") in
  let r1 := check Sample.tables p Sample.fresh_check Sample.status_vars in
  let r2 := check Sample.tables p r1.1.1 r1.1.2 in
  exists out1 out2,
    r1.2 = Ok out1 /\ r2.2 = Ok out2
    /\ submitted_results out1 !! "Qcache_instant_utilization" = None
    /\ submitted_results out2 !! "Qcache_instant_utilization" = Some (VInt 0).
Proof.
  intros p r1 r2.
  assert (H1 : exists out1, r1 = (r1.1.1, r1.1.2, Ok out1))
    by (vm_compute; eexists; reflexivity).
  assert (H2 : exists out2, r2 = (r2.1.1, r2.1.2, Ok out2))
    by (vm_compute; eexists; reflexivity).
  destruct H1 as [out1 H1], H2 as [out2 H2]. exists out1, out2.
  destruct (instant_utilization_needs_history Sample.tables) as (_ & Hfirst & _ & Hsecond).
  split; [by rewrite H1|]. split; [by rewrite H2|]. split.
  - exact (proj1 (Hfirst p _ _ _ _ _ H1 eq_refl eq_refl)).
  - exact (Hsecond p p _ _ _ _ _ _ _ _ (VStr "50") (VStr "30") (VStr "20")
             eq_refl eq_refl eq_refl eq_refl eq_refl eq_refl H1 H2).
Defined.

(** ** The catalogue across passes *)

(** A statement that never drops the key [k] from [STATUS_VARS]. *)
Definition retains {A} (k : string) (m : Metrics A) : Prop :=
  forall S0 S' r, m S0 = (S', r) -> is_Some (S0 !! k) -> is_Some (S' !! k).

(** A statement after which, when it ends well, [STATUS_VARS] holds [k]. *)
Definition supplies {A} (k : string) (m : Metrics A) : Prop :=
  forall S0 S' a, m S0 = (S', Ok a) -> is_Some (S' !! k).

Create HintDb retains discriminated.

Section Retains.

Variable k : string.

Lemma retains_ret {A} (a : A) : retains k (mret a).
Proof. by intros S0 S' r [= <- _]. Qed.

Lemma retains_lift {A} (r : pyres A) : retains k (lift r).
Proof. by intros S0 S' r' [= <- _]. Qed.

Lemma retains_bind {A B} (m : Metrics A) (f : A -> Metrics B) :
  retains k m -> (forall a, retains k (f a)) -> retains k (m ≫= f).
Proof.
  intros Hm Hf S0 S' r. rewrite eff_bind_run.
  destruct (m S0) as [S1 [a|e]] eqn:E; intros H Hk.
  - eapply Hf; [done|]. by eapply Hm.
  - injection H as <- _. by eapply Hm.
Qed.

Lemma retains_update table : retains k (Cat.update table).
Proof.
  intros S0 S' r [= <- _] Hk. apply lookup_union_is_Some. by right.
Qed.

Lemma retains_prune table results :
  table !! k = None -> retains k (Cat.prune table results).
Proof.
  intros Hk S0 S' r [= <- _] [d Hd]. exists d.
  apply map_lookup_filter_Some. split; [done|]. by left.
Qed.

Lemma retains_current : retains k Cat.current.
Proof. by intros S0 S' r [= <- _]. Qed.

Lemma retains_when c body : retains k body -> retains k (Cat.when c body).
Proof. destruct c; [done|]. intros _. apply retains_ret. Qed.

Lemma retains_if {A} (c : bool) (m1 m2 : Metrics A) :
  retains k m1 -> retains k m2 -> retains k (if c then m1 else m2).
Proof. by destruct c. Qed.

Lemma supplies_update table : is_Some (table !! k) -> supplies k (Cat.update table).
Proof.
  intros Hk S0 S' a [= <-]. apply lookup_union_is_Some. by left.
Qed.

Lemma supplies_bind_l {A B} (m : Metrics A) (f : A -> Metrics B) :
  supplies k m -> (forall a, retains k (f a)) -> supplies k (m ≫= f).
Proof.
  intros Hm Hf S0 S' b Hrun. apply eff_bind_Ok in Hrun as (S1 & a & H1 & H2).
  eapply Hf; [done|]. by eapply Hm.
Qed.

Lemma supplies_bind_r {A B} (m : Metrics A) (f : A -> Metrics B) :
  (forall a, supplies k (f a)) -> supplies k (m ≫= f).
Proof.
  intros Hf S0 S' b Hrun. apply eff_bind_Ok in Hrun as (S1 & a & H1 & H2).
  by eapply Hf.
Qed.

(** After a test that answered [true]. *)
Lemma supplies_lift_true {B} (r : pyres bool) (f : bool -> Metrics B) :
  match r with Ok b => b | Raise _ => false end = true ->
  supplies k (f true) -> supplies k (lift r ≫= f).
Proof.
  intros Hr Hf S0 S' a Hrun. apply eff_bind_Ok in Hrun as (S1 & b & H1 & H2).
  apply lift_Ok in H1 as [-> ->]. simpl in Hr. subst b. by eapply Hf.
Qed.

Lemma supplies_when_true body : supplies k body -> supplies k (Cat.when true body).
Proof. done. Qed.

End Retains.

#[local] Hint Resolve retains_ret retains_lift retains_bind retains_update
  retains_prune retains_current retains_when retains_if : retains.
#[local] Hint Extern 2 (forall _, retains _ _) => intro : retains.

Section AcrossPasses.

Variable T : const_tables.

(** A pass drops nothing from [STATUS_VARS] but synthetic entries. *)
Lemma collect_metrics_retains inp q k :
  SYNTHETIC_VARS T !! k = None -> retains k (_collect_metrics T inp q).
Proof.
  intros Hk. unfold _collect_metrics. auto 40 with retains.
Qed.

(** A pass that adds a group leaves the group's entries in [STATUS_VARS]. *)
Lemma collect_metrics_supplies g inp q k :
  group_switch g inp = true ->
  is_Some (group_table T g !! k) ->
  SYNTHETIC_VARS T !! k = None ->
  supplies k (_collect_metrics T inp q).
Proof.
  intros Hon Hk Hsyn. unfold _collect_metrics.
  destruct g; cbn [group_switch group_table] in Hon, Hk.
  - (* extra status *)
    do 4 (apply supplies_bind_r; intros ?).
    apply supplies_bind_l; [|auto 40 with retains].
    rewrite Hon. apply supplies_when_true.
    apply supplies_bind_l; [by apply supplies_update | auto 20 with retains].
  - (* version-gated status *)
    apply andb_prop in Hon as [Hon Hv].
    do 4 (apply supplies_bind_r; intros ?).
    apply supplies_bind_l; [|auto 40 with retains].
    rewrite Hon. apply supplies_when_true.
    apply supplies_bind_r; intros ?.
    apply supplies_lift_true; [exact Hv|].
    by apply supplies_when_true, supplies_update.
  - (* Galera *)
    do 5 (apply supplies_bind_r; intros ?).
    apply supplies_bind_l; [|auto 40 with retains].
    rewrite Hon. by apply supplies_when_true, supplies_update.
  - (* performance digest *)
    apply andb_prop in Hon as [Hon Hp]. apply andb_prop in Hon as [Hon Hv].
    do 6 (apply supplies_bind_r; intros ?).
    apply supplies_lift_true; [exact Hv|].
    apply supplies_bind_l; [|auto 40 with retains].
    rewrite Hon, Hp. by apply supplies_when_true, supplies_update.
  - (* schema size *)
    do 6 (apply supplies_bind_r; intros ?).
    apply supplies_bind_r; intros ?.
    apply supplies_bind_r; intros ?.
    apply supplies_bind_l; [|auto 40 with retains].
    rewrite Hon. by apply supplies_when_true, supplies_update.
  - (* extra InnoDB *)
    apply andb_prop in Hon as [Hon He].
    apply supplies_bind_l; [|auto 40 with retains].
    rewrite Hon, He. by apply supplies_when_true, supplies_when_true, supplies_update.
Qed.

End AcrossPasses.

(** C6: [metrics] names the module-level dict [STATUS_VARS] itself, so a
    group that a pass switched on stays in the catalogue of every later pass
    of the process, whatever that pass's toggles say: every entry of the
    group's table (synthetic keys apart) is in the catalogue the later pass
    submits. *)
Theorem optional_group_outlives_toggle (T : const_tables) (g : optional_group)
    (inp1 inp2 : pass_inputs) (self self1 self2 : check_self)
    (S0 S1 S2 : catalog) (out1 out2 : pass_outputs) (k : string) :
  group_switch g inp1 = true ->
  check T inp1 self S0 = (self1, S1, Ok out1) ->
  check T inp2 self1 S1 = (self2, S2, Ok out2) ->
  is_Some (group_table T g !! k) ->
  SYNTHETIC_VARS T !! k = None ->
  is_Some (submitted_metrics out2 !! k).
Proof.
  intros Hon Hrun1 Hrun2 Hk Hsyn.
  apply check_Ok in Hrun1 as (Hrun1 & _ & _).
  apply check_Ok in Hrun2 as (Hrun2 & _ & _).
  pose proof (collect_metrics_supplies T g inp1 _ k Hon Hk Hsyn _ _ _ Hrun1) as H1.
  pose proof (collect_metrics_retains T inp2 _ k Hsyn _ _ _ Hrun2 H1) as H2.
  apply collect_metrics_Ok in Hrun2 as (_ & _ & _ & _ & _ & -> & _). exact H2.
Qed.

Lemma optional_group_outlives_toggle_witness :
  let p1 := Sample.pass Sample.extra_status_on Sample.silent_replica ∅ in
  let p2 := Sample.pass Sample.all_off Sample.silent_replica ∅ in
  let r1 := check Sample.tables p1 Sample.fresh_check Sample.status_vars in
  let r2 := check Sample.tables p2 r1.1.1 r1.1.2 in
  group_switch ExtraStatus p2 = false
  /\ exists out2, r2.2 = Ok out2
                  /\ is_Some (submitted_metrics out2 !! "Binlog_cache_use").
Proof.
  intros p1 p2 r1 r2. split; [reflexivity|].
  assert (H1 : exists out1, r1 = (r1.1.1, r1.1.2, Ok out1))
    by (vm_compute; eexists; reflexivity).
  assert (H2 : exists out2, r2 = (r2.1.1, r2.1.2, Ok out2))
    by (vm_compute; eexists; reflexivity).
  destruct H1 as [out1 H1], H2 as [out2 H2]. exists out2.
  split; [by rewrite H2|].
  refine (optional_group_outlives_toggle Sample.tables ExtraStatus p1 p2
            _ _ _ _ _ _ _ _ "Binlog_cache_use" eq_refl H1 H2 _ eq_refl).
  vm_compute. eauto.
Defined.

(** Two passes of one process, the first with the extra status metrics on,
    the second with every toggle off: the second catalogue still holds the
    optional descriptor. *)
Example second_pass_keeps_optional_descriptor :
  (fun r => match r with
            | Ok out => Some (submitted_metrics out !! "Binlog_cache_use")
            | Raise _ => None
            end)
    <$> run_passes Sample.tables
          [Sample.pass Sample.extra_status_on Sample.silent_replica ∅;
           Sample.pass Sample.all_off Sample.silent_replica ∅]
          Sample.fresh_check Sample.status_vars
  = [Some (Some ("mysql.binlog.cache_use", RATE));
     Some (Some ("mysql.binlog.cache_use", RATE))].
Proof. vm_compute. reflexivity. Qed.

Lemma legacy_gauge_is_ok_flag_witness :
  let p := Sample.pass Sample.replication_on Sample.healthy_replica ∅ in
  let r := _collect_metrics Sample.tables p no_sample Sample.status_vars in
  exists out, r.2 = Ok out /\ replication_emitted out = Some (1, OK).
Proof.
  intros p r.
  assert (H : exists out, r = (r.1, Ok out)) by (vm_compute; eexists; reflexivity).
  destruct H as [out H]. exists out. split; [by rewrite H|].
  destruct (legacy_gauge_is_ok_flag Sample.tables p no_sample Sample.status_vars
              r.1 out H eq_refl) as (g & st & Hout & Hst & Hg & _).
  assert (st = OK) as -> by (vm_compute in Hst; congruence).
  rewrite Hout. f_equal. f_equal. by apply Hg.
Defined.

(** * Further properties of the check *)

(** ** Version gates *)

Lemma triple_geb_trans (a b c : Z * Z * Z) :
  triple_geb a b = true -> triple_geb b c = true -> triple_geb a c = true.
Proof.
  destruct a as [[a0 a1] a2], b as [[b0 b1] b2], c as [[c0 c1] c2].
  unfold triple_geb.
  repeat match goal with
         | |- context [?x =? ?y] => destruct (Z.eqb_spec x y)
         end; rewrite ?Z.ltb_lt, ?Z.leb_le; intros; subst; try lia.
  all: try match goal with H : false = true |- _ => discriminate end.
Qed.

(** The threshold enters [_version_compatible] in the last comparison only:
    either the call raises the same exception for every threshold, or it
    compares one triple, read from the version, with every threshold. *)
Lemma version_compatible_shape (v : string) :
  (exists e, forall t, _version_compatible v t = Raise e)
  \/ (exists ver, forall t, _version_compatible v t = Ok (triple_geb ver t)).
Proof.
  unfold _version_compatible.
  destruct (py_index (Str.split "." v) 2) as [seg|e]; [|left; eauto].
  cbn [bind]. destruct (Str.re_match_digits seg) as [run|]; [|left; eauto].
  cbn [bind]. destruct (Num.int_of_str run) as [p|e]; [|left; eauto].
  cbn [bind]. destruct (py_index (Str.split "." v) 0) as [s0|e]; [|left; eauto].
  cbn [bind]. destruct (Num.int_of_str s0) as [x|e]; [|left; eauto].
  cbn [bind]. destruct (py_index (Str.split "." v) 1) as [s1|e]; [|left; eauto].
  cbn [bind]. destruct (Num.int_of_str s1) as [y|e]; [|left; eauto].
  right. exists (x, y, p). reflexivity.
Qed.

(** X1: the version gates are nested: a server that passes the gate of a
    version passes the gate of every version below it, so that whoever is
    compatible with 5.7.0 is compatible with 5.6.6 and with 5.6.0. *)
Theorem version_gates_nested (v : string) (t t' : Z * Z * Z) :
  _version_compatible v t = Ok true ->
  triple_geb t t' = true ->
  _version_compatible v t' = Ok true.
Proof.
  intros Hv Ht. destruct (version_compatible_shape v) as [[e He] | [ver Hver]].
  - rewrite He in Hv. discriminate.
  - rewrite Hver in *. injection Hv as Hv. f_equal. by eapply triple_geb_trans.
Qed.

Lemma version_gates_nested_witness :
  _version_compatible "5.7.21" (5, 6, 6) = Ok true.
Proof.
  exact (version_gates_nested "5.7.21" (5, 7, 0) (5, 6, 6) eq_refl eq_refl).
Defined.

(** X2: whether the comparison raises, and with which exception, depends on
    the version string alone, not on the threshold it is compared with. *)
Theorem version_failure_ignores_threshold (v : string) (t t' : Z * Z * Z) (e : exn) :
  _version_compatible v t = Raise e -> _version_compatible v t' = Raise e.
Proof.
  intros Hv. destruct (version_compatible_shape v) as [[e' He] | [ver Hver]].
  - rewrite He in *. done.
  - rewrite Hver in Hv. discriminate.
Qed.

Lemma version_failure_ignores_threshold_witness :
  _version_compatible "5.7" (5, 6, 0) = Raise IndexError.
Proof.
  exact (version_failure_ignores_threshold "5.7" (5, 7, 0) (5, 6, 0) IndexError eq_refl).
Defined.

(** ** What [_get_metadata] reads from the version string *)

Lemma split_aux_head sep cur s :
  exists pre rest tl,
    s = pre +:+ rest
    /\ Str.split_aux sep cur s = Str.of_chars (rev cur ++ Str.chars pre) :: tl
    /\ (sep ∉ Str.chars pre)
    /\ (rest = "" /\ tl = [] \/ exists r, rest = String sep r /\ tl = Str.split_aux sep [] r).
Proof.
  revert cur. induction s as [|c s IH]; intros cur.
  - exists "", "", []. simpl. rewrite app_nil_r.
    repeat split; [apply not_elem_of_nil | by left].
  - simpl. destruct (Ascii.eqb_spec sep c) as [<- | Hne]; unfold Chr.eqb.
    + rewrite Ascii.eqb_refl. exists "", (String sep s), (Str.split_aux sep [] s).
      simpl. rewrite app_nil_r. repeat split; [apply not_elem_of_nil | right; eauto].
    + rewrite (proj2 (Ascii.eqb_neq sep c) Hne).
      destruct (IH (c :: cur)) as (pre & rest & tl & -> & Hsplit & Hpre & Hrest).
      exists (String c pre), rest, tl. rewrite Hsplit. simpl.
      rewrite <- app_assoc. simpl. repeat split; [|done].
      change (Str.chars (String c pre)) with (c :: Str.chars pre).
      rewrite not_elem_of_cons. by split.
Qed.

Section MetadataShape.

Variable BUILDS : list string.

Lemma flavor_stays_mariadb parts acc :
  acc.1 = "MariaDB" -> (fold_left (metadata_step BUILDS) parts acc).1 = "MariaDB".
Proof.
  revert acc. induction parts as [|p parts IH]; intros [f b] Hf; simpl in *; [done|].
  apply IH. subst f. simpl. by destruct (String.eqb p "MariaDB").
Qed.

Lemma flavor_with_mariadb parts acc :
  "MariaDB" ∈ parts -> (fold_left (metadata_step BUILDS) parts acc).1 = "MariaDB".
Proof.
  revert acc. induction parts as [|p parts IH]; intros [f b] Hin;
    [by apply elem_of_nil in Hin|].
  simpl. destruct (String.eqb_spec p "MariaDB") as [-> | Hne].
  - by apply flavor_stays_mariadb.
  - apply IH. apply elem_of_cons in Hin as [Hin | Hin]; [congruence | done].
Qed.

Lemma flavor_without_mariadb parts acc :
  "MariaDB" ∉ parts -> acc.1 = "" \/ acc.1 = "MySQL" ->
  parts <> [] \/ acc.1 = "MySQL" ->
  (fold_left (metadata_step BUILDS) parts acc).1 = "MySQL".
Proof.
  revert acc. induction parts as [|p parts IH]; intros [f b] Hin Hf Hne; simpl in *.
  - by destruct Hne.
  - apply not_elem_of_cons in Hin as [Hp Hin].
    apply IH; [done | |]; simpl;
      (destruct (String.eqb_spec p "MariaDB") as [-> | _]; [done|]);
      destruct Hf as [-> | ->]; simpl; auto.
Qed.

Lemma build_is_last_hit parts acc :
  (fold_left (metadata_step BUILDS) parts acc).2
  = default acc.2 (last (filter (fun d => d ∈ BUILDS) parts)).
Proof.
  revert acc. induction parts as [|p parts IH]; intros [f b]; simpl; [done|].
  rewrite IH, filter_cons. simpl. case_bool_decide as Hp.
  - rewrite decide_True by done. rewrite last_cons.
    by destruct (last (filter _ parts)).
  - by rewrite decide_False by done.
Qed.

(** X3: the flavor is "MariaDB" exactly when one of the parts between
    dashes is the word "MariaDB" itself, and "MySQL" otherwise. *)
Theorem flavor_is_mariadb_iff_part (raw : string) (md : MySQLMetadata) :
  _get_metadata BUILDS raw = Ok md ->
  (flavor md = "MariaDB" <-> "MariaDB" ∈ Str.split "-" raw)
  /\ (flavor md = "MySQL" <-> "MariaDB" ∉ Str.split "-" raw).
Proof.
  unfold _get_metadata. destruct (split_first "-" raw) as (first & rest & Hsplit).
  rewrite Hsplit. cbn [py_index lookup list_lookup bind].
  destruct (fold_left _ (first :: rest) ("", "")) as [f b] eqn:Hfold.
  intros [= <-]. simpl.
  destruct (decide ("MariaDB" ∈ first :: rest)) as [Hin | Hnin].
  - pose proof (flavor_with_mariadb (first :: rest) ("", "") Hin) as H.
    rewrite Hfold in H. simpl in H. subst f. split; split; try done.
  - pose proof (flavor_without_mariadb (first :: rest) ("", "") Hnin) as H.
    rewrite Hfold in H. simpl in H. rewrite H by auto. split; split; try done.
Qed.

(** X4: the build is the last part between dashes that belongs to the
    vocabulary, and "unspecified" when there is none (or when that part is
    the empty string). *)
Theorem build_is_last_known_part (raw : string) (md : MySQLMetadata) :
  _get_metadata BUILDS raw = Ok md ->
  build md =
    match last (filter (fun d => d ∈ BUILDS) (Str.split "-" raw)) with
    | Some b => if String.eqb b "" then "unspecified" else b
    | None => "unspecified"
    end.
Proof.
  unfold _get_metadata. destruct (split_first "-" raw) as (first & rest & Hsplit).
  rewrite Hsplit. cbn [py_index lookup list_lookup bind].
  pose proof (build_is_last_hit (first :: rest) ("", "")) as H.
  destruct (fold_left _ (first :: rest) ("", "")) as [f b].
  intros [= <-]. simpl in *. rewrite H.
  by destruct (last (filter _ (first :: rest))).
Qed.

(** X5: the version is the text before the first dash: the raw string is the
    version followed by nothing or by a dash and the rest, and the version
    holds no dash. *)
Theorem version_is_text_before_dash (raw : string) (md : MySQLMetadata) :
  _get_metadata BUILDS raw = Ok md ->
  ("-"%char ∉ Str.chars (version md))
  /\ (raw = version md \/ exists rest, raw = version md +:+ String "-" rest).
Proof.
  unfold _get_metadata, Str.split.
  destruct (split_aux_head "-" [] raw) as (pre & rest & tl & -> & Hsplit & Hpre & Hrest).
  rewrite Hsplit. cbn [py_index lookup list_lookup bind rev app].
  destruct (fold_left _ _ ("", "")) as [f b]. intros [= <-]. simpl.
  rewrite of_chars_chars. split; [done|].
  destruct Hrest as [[-> _] | (r & -> & _)].
  - left. clear. induction pre as [|c pre IH]; [done|].
    change (String c pre +:+ "") with (String c (pre +:+ "")). by f_equal.
  - right. eauto.
Qed.

End MetadataShape.

Lemma flavor_is_mariadb_iff_part_witness :
  "MariaDB" ∈ Str.split "-" "10.0.1-MariaDB-mariadb1precise-log".
Proof.
  refine (proj1 (proj1 (flavor_is_mariadb_iff_part Sample.builds
            "10.0.1-MariaDB-mariadb1precise-log"
            {| version := "10.0.1"; flavor := "MariaDB"; build := "log" |} eq_refl)) eq_refl).
Defined.

Lemma build_is_last_known_part_witness :
  build {| version := "4.1.26"; flavor := "MySQL"; build := "log" |} =
    match last (filter (fun d => d ∈ Sample.builds) (Str.split "-" "4.1.26-debug-log")) with
    | Some b => if String.eqb b "" then "unspecified" else b
    | None => "unspecified"
    end.
Proof.
  exact (build_is_last_known_part Sample.builds "4.1.26-debug-log"
           {| version := "4.1.26"; flavor := "MySQL"; build := "log" |} eq_refl).
Defined.

Lemma version_is_text_before_dash_witness :
  ("-"%char ∉ Str.chars "4.1.26")
  /\ ("4.1.26-log" = "4.1.26" \/ exists rest, "4.1.26-log" = "4.1.26" +:+ String "-" rest).
Proof.
  exact (version_is_text_before_dash Sample.builds "4.1.26-log"
           {| version := "4.1.26"; flavor := "MySQL"; build := "log" |} eq_refl).
Defined.

(** ** The text of an integer reads back as that integer *)

(** The value of a decimal numeral read from the left, after [acc]. *)
Fixpoint uint_value (d : Decimal.uint) (acc : Z) : Z :=
  match d with
  | Decimal.Nil => acc
  | Decimal.D0 l => uint_value l (10 * acc)
  | Decimal.D1 l => uint_value l (10 * acc + 1)
  | Decimal.D2 l => uint_value l (10 * acc + 2)
  | Decimal.D3 l => uint_value l (10 * acc + 3)
  | Decimal.D4 l => uint_value l (10 * acc + 4)
  | Decimal.D5 l => uint_value l (10 * acc + 5)
  | Decimal.D6 l => uint_value l (10 * acc + 6)
  | Decimal.D7 l => uint_value l (10 * acc + 7)
  | Decimal.D8 l => uint_value l (10 * acc + 8)
  | Decimal.D9 l => uint_value l (10 * acc + 9)
  end.

Lemma of_uint_acc_value (d : Decimal.uint) (acc : positive) :
  Zpos (Pos.of_uint_acc d acc) = uint_value d (Zpos acc).
Proof.
  revert acc. induction d; intros acc; simpl; [done | rewrite IHd; f_equal; lia ..].
Qed.

Lemma of_uint_value (d : Decimal.uint) : Z.of_N (Pos.of_uint d) = uint_value d 0.
Proof.
  induction d; simpl; [done | done | rewrite of_uint_acc_value; f_equal ..].
Qed.

Lemma digits_value_of_uint (d : Decimal.uint) (acc : Z) (prev : bool) :
  d <> Decimal.Nil \/ prev = true ->
  Num.digits_value acc prev (Str.chars (NilEmpty.string_of_uint d))
  = Some (uint_value d acc).
Proof.
  revert acc prev. induction d; intros acc prev Hne;
    [destruct Hne as [? | ->]; done | ..];
    simpl NilEmpty.string_of_uint;
    unfold Str.chars; simpl list_ascii_of_string;
    fold (Str.chars (NilEmpty.string_of_uint d));
    cbn [Num.digits_value];
    match goal with
    | |- context [Chr.is_ascii_digit ?c] => change (Chr.is_ascii_digit c) with true
    end; cbv iota;
    match goal with
    | |- context [Chr.digit_val ?c] =>
        let v := eval vm_compute in (Chr.digit_val c) in
        change (Chr.digit_val c) with v
    end;
    rewrite IHd by (by right); cbn [uint_value]; do 2 f_equal; lia.
Qed.

Lemma string_of_uint_digits (d : Decimal.uint) :
  forallb Chr.is_ascii_digit (Str.chars (NilEmpty.string_of_uint d)) = true.
Proof. induction d; simpl; try done; exact IHd. Qed.

Lemma int_of_digits_string (d : Decimal.uint) :
  d <> Decimal.Nil ->
  Num.int_of_str (NilEmpty.string_of_uint d) = Ok (uint_value d 0).
Proof.
  intros Hne. unfold Num.int_of_str.
  rewrite strip_by_none by (apply digits_not_spaces, string_of_uint_digits).
  pose proof (string_of_uint_digits d) as Hd.
  pose proof (digits_value_of_uint d 0 false (or_introl Hne)) as Hv.
  destruct (Str.chars (NilEmpty.string_of_uint d)) as [|c l] eqn:E.
  - by destruct d.
  - simpl in Hd. apply andb_prop in Hd as [Hc _].
    by rewrite (signed_digits c l Hc), Hv.
Qed.

Lemma int_of_negative_string (d : Decimal.uint) :
  d <> Decimal.Nil ->
  Num.int_of_str (String "-" (NilEmpty.string_of_uint d)) = Ok (- uint_value d 0).
Proof.
  intros Hne. unfold Num.int_of_str.
  rewrite strip_by_none.
  - change (Str.chars (String "-" ?s)) with ("-"%char :: Str.chars s).
    cbn [Num.signed].
    by rewrite (digits_value_of_uint d 0 false (or_introl Hne)).
  - change (Str.chars (String "-" ?s)) with ("-"%char :: Str.chars s).
    simpl. apply digits_not_spaces, string_of_uint_digits.
Qed.

(** [int(str(z))] is [z]. *)
Lemma int_of_str_of_Z (z : Z) : Num.int_of_str (Str.of_Z z) = Ok z.
Proof.
  unfold Str.of_Z. destruct z as [|p|p]; [reflexivity | |].
  - pose proof (DecimalPos.Unsigned.to_uint_nonnil p) as Hne.
    pose proof (DecimalPos.Unsigned.of_to p) as Hof.
    unfold Z.to_int, NilZero.string_of_int, NilZero.string_of_uint.
    destruct (Pos.to_uint p) eqn:E; [done | ..];
      rewrite <- E in *; rewrite (int_of_digits_string _ Hne);
      by rewrite <- of_uint_value, Hof.
  - pose proof (DecimalPos.Unsigned.to_uint_nonnil p) as Hne.
    pose proof (DecimalPos.Unsigned.of_to p) as Hof.
    unfold Z.to_int, NilZero.string_of_int, NilZero.string_of_uint.
    destruct (Pos.to_uint p) eqn:E; [done | ..];
      rewrite <- E in *; rewrite (int_of_negative_string _ Hne);
      by rewrite <- of_uint_value, Hof.
Qed.

Lemma of_Z_inj (a b : Z) : Str.of_Z a = Str.of_Z b -> a = b.
Proof.
  intros H. pose proof (int_of_str_of_Z a) as Ha. rewrite H, int_of_str_of_Z in Ha.
  congruence.
Qed.

(** ** Server identities and the query-cache history *)

Lemma append_inv_head (h a b : string) : h +:+ a = h +:+ b -> a = b.
Proof. induction h as [|c h IH]; simpl; [done|]. intros [= H]. auto. Qed.

Lemma append_longer (h : string) (c : ascii) (x : string) : h <> h +:+ String c x.
Proof. induction h as [|d h IH]; simpl; [done|]. intros [= H]. auto. Qed.

(** The text of the port after the host tells the ports apart. *)
Lemma port_suffix_inj (h : string) (p q : Z) :
  (if negb (p =? 0) then format_pair h (Str.of_Z p) else h)
  = (if negb (q =? 0) then format_pair h (Str.of_Z q) else h) ->
  p = q.
Proof.
  unfold format_pair.
  destruct (Z.eqb_spec p 0) as [-> | Hp], (Z.eqb_spec q 0) as [-> | Hq];
    simpl; intros H; [done | | |].
  - by apply append_longer in H.
  - symmetry in H. by apply append_longer in H.
  - apply append_inv_head in H. injection H as H. by apply of_Z_inj.
Qed.

(** X6: of two instances on the same host, both without defaults file and
    without socket, the identities are equal only when the ports are: the
    history kept under one port is never read for another. *)
Theorem host_key_separates_ports (c1 c2 : instance_config) :
  defaults_file c1 = "" -> mysql_sock c1 = "" ->
  defaults_file c2 = "" -> mysql_sock c2 = "" ->
  host c1 = host c2 ->
  _get_host_key c1 = _get_host_key c2 -> port c1 = port c2.
Proof.
  unfold _get_host_key. intros -> -> -> -> ->. simpl.
  apply port_suffix_inj.
Qed.

Lemma host_key_separates_ports_witness :
  port {| host := "db1"; port := 3306; mysql_sock := ""; defaults_file := "" |}
  = port {| host := "db1"; port := 3306; mysql_sock := ""; defaults_file := "" |}.
Proof.
  exact (host_key_separates_ports
           {| host := "db1"; port := 3306; mysql_sock := ""; defaults_file := "" |}
           {| host := "db1"; port := 3306; mysql_sock := ""; defaults_file := "" |}
           eq_refl eq_refl eq_refl eq_refl eq_refl eq_refl).
Defined.

(** What a pass leaves in the store of samples: the entry of its own
    identity is replaced when the pass ends well, and nothing else changes. *)
Lemma check_store (T : const_tables) inp self S0 :
  let self' := (check T inp self S0).1.1 in
  instance self' = instance self
  /\ forall k, k <> _get_host_key (instance self) ->
               qcache_stats self' !! k = qcache_stats self !! k.
Proof.
  unfold check, _set_qcache_stats, _put_qcache_stats. simpl.
  destruct (_collect_metrics T inp _ S0) as [S1 [out|e]]; simpl; [|done].
  split; [done|]. intros k Hk. by rewrite lookup_insert_ne.
Qed.

(** X7: a pass on one instance, whether it ends well or raises, leaves the
    query-cache history of every instance on the same host with another port
    (both without defaults file and socket) as it was. *)
Theorem check_keeps_other_ports (T : const_tables) (inp : pass_inputs)
    (self : check_self) (S0 : catalog) (other : instance_config) :
  defaults_file (instance self) = "" -> mysql_sock (instance self) = "" ->
  defaults_file other = "" -> mysql_sock other = "" ->
  host other = host (instance self) ->
  port other <> port (instance self) ->
  qcache_stats (check T inp self S0).1.1 !! _get_host_key other
  = qcache_stats self !! _get_host_key other.
Proof.
  intros Hd Hs Hd' Hs' Hh Hp. apply check_store. intros Hk.
  apply Hp. revert Hk. unfold _get_host_key. rewrite Hd, Hs, Hd', Hs', Hh. simpl.
  apply port_suffix_inj.
Qed.

Lemma check_keeps_other_ports_witness :
  let p := Sample.pass Sample.all_off Sample.silent_replica
             (Sample.qcache_results "50" "30" "20") in
  let other := {| host := "db1"; port := 3307; mysql_sock := ""; defaults_file := "" |} in
  qcache_stats (check Sample.tables p Sample.fresh_check Sample.status_vars).1.1
    !! _get_host_key other
  = qcache_stats Sample.fresh_check !! _get_host_key other.
Proof.
  intros p other.
  refine (check_keeps_other_ports Sample.tables p Sample.fresh_check Sample.status_vars
            other eq_refl eq_refl eq_refl eq_refl eq_refl _).
  simpl. lia.
Defined.

(** A stored sample is consistent when it holds the three counters of one
    pass, or none. *)
Definition consistent (q : qcache_entry) : Prop :=
  q = no_sample \/ is_Some (previous_sample q).

Lemma compute_synthetic_consistent q res res' q' :
  _compute_synthetic_results q res = Ok (res', q') -> consistent q -> consistent q'.
Proof.
  intros Hrun Hq. apply compute_synthetic_Ok in Hrun as [(_ & _ & ->) | Hrun]; [done|].
  destruct Hrun as (? & ? & ? & ? & h & i & n & _ & _ & _ & _ & _ & _ & _ & -> & _).
  right. by exists (h, i, n).
Qed.

(** X8: the three counters of a sample are stored together or not at all:
    if every stored sample is consistent before a pass, every stored sample
    is consistent after it, whether the pass ended well or raised. *)
Theorem check_keeps_samples_consistent (T : const_tables) (inp : pass_inputs)
    (self : check_self) (S0 : catalog) :
  (forall k q, qcache_stats self !! k = Some q -> consistent q) ->
  forall k q, qcache_stats (check T inp self S0).1.1 !! k = Some q -> consistent q.
Proof.
  intros Hall k q. unfold check, _set_qcache_stats, _put_qcache_stats. simpl.
  destruct (_collect_metrics T inp _ S0) as [S1 [out|e]] eqn:Hrun; simpl; [|apply Hall].
  destruct (decide (k = _get_host_key (instance self))) as [-> | Hk].
  - rewrite lookup_insert_eq. intros [= <-].
    apply collect_metrics_Ok in Hrun as ([res' q'] & _ & Hsyn & _ & -> & _).
    apply compute_synthetic_consistent in Hsyn; [done|].
    destruct (qcache_stats self !! _) as [q0|] eqn:E; simpl; [by eapply Hall | by left].
  - rewrite lookup_insert_ne by done. apply Hall.
Qed.

Lemma check_keeps_samples_consistent_witness :
  consistent {| _qcache_hits := Some 50; _qcache_inserts := Some 30;
                _qcache_not_cached := Some 20 |}.
Proof.
  refine (check_keeps_samples_consistent Sample.tables
            (Sample.pass Sample.all_off Sample.silent_replica
               (Sample.qcache_results "50" "30" "20"))
            Sample.fresh_check Sample.status_vars _ "db1:3306" _ _).
  - intros k q H. vm_compute in H. discriminate.
  - vm_compute. reflexivity.
Defined.

(** ** The instantaneous utilization *)

Lemma float_of_int_zero : Num.float_of_int 0 = Ok (S754_zero false).
Proof. reflexivity. Qed.

Lemma float_of_int_natural (z : Z) :
  0 <= z < 2 ^ 1023 -> Num.float_of_int z = Ok (Num.of_Z z).
Proof.
  intros Hz. destruct (Z.eq_dec z 0) as [-> | Hne]; [reflexivity|].
  apply float_of_int_finite. lia.
Qed.

(** X9: when the hit counter moved but the three deltas since the stored
    sample add up to zero (counters that were reset, for one), the division
    of the instantaneous utilization is by zero and the whole computation
    raises [ZeroDivisionError], although the cumulative value is defined. *)
Theorem instant_utilization_divides_by_zero (q : qcache_entry)
    (res : gmap string pyval) (hits inserts not_cached u : pyval)
    (h i n : Z) (fh : Num.float) (ph pi pn : Z) :
  res !! "Qcache_hits" = Some hits ->
  res !! "Qcache_inserts" = Some inserts ->
  res !! "Qcache_not_cached" = Some not_cached ->
  qcache_utilization hits inserts not_cached = Ok u ->
  to_int hits = Ok h -> to_int inserts = Ok i -> to_int not_cached = Ok n ->
  to_float hits = Ok fh ->
  previous_sample q = Some (ph, pi, pn) ->
  0 <= ph < 2 ^ 1023 ->
  h <> ph ->
  (i - pi) + (n - pn) + (h - ph) = 0 ->
  _compute_synthetic_results q res = Raise ZeroDivisionError.
Proof.
  intros Hh Hi Hn Hu Hth Hti Htn Hfh Hprev Hph Hne Hsum.
  unfold _compute_synthetic_results. rewrite Hh, Hi, Hn, Hu, Hprev. cbn [bind].
  unfold qcache_instant_utilization. rewrite Hth. cbn [bind].
  destruct (Z.eqb_spec (h - ph) 0) as [|_]; [lia|].
  rewrite Hfh, (float_of_int_natural ph Hph), Hti, Htn. cbn [bind].
  by rewrite Hsum.
Qed.

Lemma instant_utilization_divides_by_zero_witness :
  _compute_synthetic_results
    {| _qcache_hits := Some 100; _qcache_inserts := Some 10; _qcache_not_cached := Some 0 |}
    (Sample.qcache_results "40" "50" "20")
  = Raise ZeroDivisionError.
Proof.
  refine (instant_utilization_divides_by_zero _ _ (VStr "40") (VStr "50") (VStr "20")
            (VFloat (Num.mul (SFdiv Num.prec Num.emax (Num.of_Z 40) (Num.of_Z 110))
                             (Num.of_Z 100)))
            40 50 20 (Num.of_Z 40) 100 10 0 _ _ _ _ _ _ _ _ _ _ _ _);
    try reflexivity; try lia.
Defined.

(** X10: with counters that grew since the stored sample, the instantaneous
    utilization stored by the computation is the binary64 value of
    (hits - previous hits) / (sum of the three deltas) * 100. *)
Theorem instant_utilization_formula (q q' : qcache_entry)
    (res res' : gmap string pyval) (hits inserts not_cached : pyval)
    (h i n : Z) (fh : Num.float) (ph pi pn : Z) :
  _compute_synthetic_results q res = Ok (res', q') ->
  res !! "Qcache_hits" = Some hits ->
  res !! "Qcache_inserts" = Some inserts ->
  res !! "Qcache_not_cached" = Some not_cached ->
  to_int hits = Ok h -> to_int inserts = Ok i -> to_int not_cached = Ok n ->
  to_float hits = Ok fh ->
  previous_sample q = Some (ph, pi, pn) ->
  0 <= ph < h -> pi <= i -> pn <= n ->
  ph < 2 ^ 1023 -> (i - pi) + (n - pn) + (h - ph) < 2 ^ 1023 ->
  res' !! "Qcache_instant_utilization" =
    Some (VFloat (Num.mul
                    (SFdiv Num.prec Num.emax (Num.sub fh (Num.of_Z ph))
                       (Num.of_Z ((i - pi) + (n - pn) + (h - ph))))
                    (Num.of_Z 100))).
Proof.
  intros Hrun Hh Hi Hn Hth Hti Htn Hfh Hprev Hph Hpi Hpn Hbig Hsum.
  apply compute_synthetic_Ok in Hrun as [([Hx | [Hx | Hx]] & _) | Hrun]; try congruence.
  destruct Hrun as (hits' & ins' & nc' & u & h' & i' & n' & Ha & Hb & Hc & _ & _ & _ & _ & _ & Hres).
  simplify_eq. rewrite Hprev in Hres. destruct Hres as (v & Hv & ->).
  rewrite lookup_insert_eq. f_equal. revert Hv.
  unfold qcache_instant_utilization. rewrite Hth. cbn [bind].
  destruct (Z.eqb_spec (h - ph) 0) as [|_]; [lia|].
  rewrite Hfh, (float_of_int_natural ph) by lia. rewrite Hti, Htn. cbn [bind].
  destruct (float_of_int_finite ((i - pi) + (n - pn) + (h - ph))) as [-> Hnz]; [lia|].
  cbn [bind]. unfold Num.div. rewrite Hnz. cbn [bind]. congruence.
Qed.

Lemma instant_utilization_formula_witness :
  let r := _compute_synthetic_results
             {| _qcache_hits := Some 50; _qcache_inserts := Some 30;
                _qcache_not_cached := Some 20 |}
             (Sample.qcache_results "80" "40" "30") in
  exists res' q',
    r = Ok (res', q')
    /\ res' !! "Qcache_instant_utilization" =
       Some (VFloat (Num.mul
                       (SFdiv Num.prec Num.emax (Num.sub (Num.of_Z 80) (Num.of_Z 50))
                          (Num.of_Z ((40 - 30) + (30 - 20) + (80 - 50))))
                       (Num.of_Z 100))).
Proof.
  intros r.
  assert (H : match r with Ok _ => True | Raise _ => False end) by (vm_compute; exact I).
  destruct r as [[res' q']|e] eqn:E; [|destruct H]. exists res', q'. split; [done|].
  refine (instant_utilization_formula _ q' _ res' (VStr "80") (VStr "40") (VStr "30")
            80 40 30 (Num.of_Z 80) 50 30 20 E _ _ _ _ _ _ _ _ _ _ _ _ _);
    try reflexivity; try lia.
Defined.

(** The instantaneous utilization of that sample is 60 per cent. *)
Example instant_utilization_sixty :
  (let* r := _compute_synthetic_results
               {| _qcache_hits := Some 50; _qcache_inserts := Some 30;
                  _qcache_not_cached := Some 20 |}
               (Sample.qcache_results "80" "40" "30") in
   Ok (r.1 !! "Qcache_instant_utilization"))
  = Ok (Some (VFloat (Num.of_Z 60))).
Proof. vm_compute. reflexivity. Qed.

(** ** Synthetic metrics in the submitted catalogue *)

Lemma duplicate_is_Some res d k : is_Some (res !! k) -> is_Some (duplicate res d !! k).
Proof.
  intros Hk. unfold duplicate. destruct (res !! d.1); [|done].
  destruct (decide (k = d.2)) as [-> | Hne].
  - rewrite lookup_insert_eq. eauto.
  - by rewrite lookup_insert_ne.
Qed.

Lemma dupes_is_Some res k :
  is_Some (res !! k) -> is_Some (fold_left duplicate dupes res !! k).
Proof. intros Hk. unfold dupes. simpl. by do 2 apply duplicate_is_Some. Qed.

(** X11: no synthetic metric is announced without a value: a key of
    [SYNTHETIC_VARS] that is in the catalogue a pass submits has a value in
    the results the pass submits, and, the other way round, a key of
    [SYNTHETIC_VARS] that has a value after the synthetic computation is in
    the submitted catalogue. *)
Theorem synthetic_metric_has_value (T : const_tables) (inp : pass_inputs)
    (q : qcache_entry) (S0 S' : catalog) (out : pass_outputs) (k : string) :
  _collect_metrics T inp q S0 = (S', Ok out) ->
  is_Some (SYNTHETIC_VARS T !! k) ->
  (is_Some (submitted_metrics out !! k) -> is_Some (submitted_results out !! k))
  /\ (k <> "Table_locks_waited_rate" -> k <> "Table_locks_immediate_rate" ->
      is_Some (submitted_results out !! k) -> is_Some (submitted_metrics out !! k)).
Proof.
  intros Hrun Hk.
  apply collect_metrics_Ok in Hrun as (synth & S1 & _ & Hres & _ & Hmet & Hprune & _).
  unfold Cat.prune in Hprune. injection Hprune as <-. rewrite Hmet, Hres. split.
  - intros [d Hd]. apply map_lookup_filter_Some in Hd as [_ [Hn | Hs]]; simpl in *.
    + rewrite Hn in Hk. by destruct Hk.
    + by apply dupes_is_Some.
  - intros H1 H2. rewrite dupes_other by done. intros Hs.
    destruct Hk as [d Hd]. exists d. apply map_lookup_filter_Some. split.
    + by apply lookup_union_Some_l.
    + by right.
Qed.

Lemma synthetic_metric_has_value_witness :
  let p := Sample.pass Sample.all_off Sample.silent_replica
             (Sample.qcache_results "50" "30" "20") in
  let r := _collect_metrics Sample.tables p no_sample Sample.status_vars in
  exists out, r.2 = Ok out /\ is_Some (submitted_metrics out !! "Qcache_utilization").
Proof.
  intros p r.
  assert (H : match r.2 with
              | Ok out => is_Some (submitted_results out !! "Qcache_utilization")
              | Raise _ => False
              end) by (vm_compute; eauto).
  destruct r as [S' [out|e]] eqn:E; [|destruct H]. exists out. split; [done|].
  refine (proj2 (synthetic_metric_has_value Sample.tables p no_sample Sample.status_vars
                   S' out "Qcache_utilization" E _) _ _ H); [vm_compute; eauto | done..].
Defined.

(** ** Where the descriptors of a catalogue come from *)

(** The tables of [const] that a pass can merge into [STATUS_VARS]. *)
Definition tables_of (T : const_tables) : list catalog :=
  [OPTIONAL_INNODB_VARS T; VARIABLES_VARS T; INNODB_VARS T; BINLOG_VARS T;
   OPTIONAL_STATUS_VARS T; OPTIONAL_STATUS_VARS_5_6_6 T; GALERA_VARS T;
   PERFORMANCE_VARS T; SCHEMA_VARS T; REPLICA_VARS T; SYNTHETIC_VARS T].

(** A statement after which every descriptor of [STATUS_VARS] was there
    before or stands in one of the tables. *)
Definition sourced {A} (T : const_tables) (m : Metrics A) : Prop :=
  forall S0 S' r k d,
    m S0 = (S', r) -> S' !! k = Some d ->
    S0 !! k = Some d \/ exists t, t ∈ tables_of T /\ t !! k = Some d.

Create HintDb sourced discriminated.

Section Sourced.

Variable T : const_tables.

Lemma sourced_ret {A} (a : A) : sourced T (mret a).
Proof. intros S0 S' r k d [= <- _]. auto. Qed.

Lemma sourced_lift {A} (r : pyres A) : sourced T (lift r).
Proof. intros S0 S' r' k d [= <- _]. auto. Qed.

Lemma sourced_bind {A B} (m : Metrics A) (f : A -> Metrics B) :
  sourced T m -> (forall a, sourced T (f a)) -> sourced T (m ≫= f).
Proof.
  intros Hm Hf S0 S' r k d. rewrite eff_bind_run.
  destruct (m S0) as [S1 [a|e]] eqn:E; intros H Hk.
  - destruct (Hf a _ _ _ _ _ H Hk) as [H1 | H1]; [|by right]. by eapply Hm.
  - injection H as <- _. by eapply Hm.
Qed.

Lemma sourced_update table : table ∈ tables_of T -> sourced T (Cat.update table).
Proof.
  intros Hin S0 S' r k d [= <- _] Hk.
  apply lookup_union_Some_raw in Hk as [Hk | [_ Hk]]; [right; eauto | by left].
Qed.

Lemma sourced_prune table results : sourced T (Cat.prune table results).
Proof.
  intros S0 S' r k d [= <- _] Hk. left. by apply map_lookup_filter_Some in Hk as [Hk _].
Qed.

Lemma sourced_current : sourced T Cat.current.
Proof. intros S0 S' r k d [= <- _]. auto. Qed.

Lemma sourced_when c body : sourced T body -> sourced T (Cat.when c body).
Proof. destruct c; [done|]. intros _. apply sourced_ret. Qed.

Lemma sourced_if {A} (c : bool) (m1 m2 : Metrics A) :
  sourced T m1 -> sourced T m2 -> sourced T (if c then m1 else m2).
Proof. by destruct c. Qed.

End Sourced.

#[local] Hint Resolve sourced_ret sourced_lift sourced_bind sourced_update
  sourced_prune sourced_current sourced_when sourced_if : sourced.
#[local] Hint Extern 2 (forall _, sourced _ _) => intro : sourced.
#[local] Hint Extern 1 (_ ∈ tables_of _) =>
  unfold tables_of; repeat (first [apply list_elem_of_here | apply list_elem_of_further])
  : sourced.

Lemma collect_metrics_sourced (T : const_tables) inp q : sourced T (_collect_metrics T inp q).
Proof. unfold _collect_metrics. auto 40 with sourced. Qed.

(** X12: a pass invents no descriptor: every descriptor of the catalogue it
    submits was in [STATUS_VARS] when the pass began, or stands under the
    same key in one of the eleven tables of [const]. *)
Theorem submitted_descriptors_have_a_source (T : const_tables) (inp : pass_inputs)
    (q : qcache_entry) (S0 S' : catalog) (out : pass_outputs)
    (k : string) (d : string * metric_type) :
  _collect_metrics T inp q S0 = (S', Ok out) ->
  submitted_metrics out !! k = Some d ->
  S0 !! k = Some d \/ exists t, t ∈ tables_of T /\ t !! k = Some d.
Proof.
  intros Hrun Hk. eapply collect_metrics_sourced; [exact Hrun|].
  by apply collect_metrics_Ok in Hrun as (_ & _ & _ & _ & _ & <- & _).
Qed.

Lemma submitted_descriptors_have_a_source_witness :
  let S0 := Sample.status_vars in
  let d := ("mysql.myisam.key_buffer_size", GAUGE) in
  S0 !! "Key_buffer_size" = Some d
  \/ exists t, t ∈ tables_of Sample.tables /\ t !! "Key_buffer_size" = Some d.
Proof.
  intros S0 d.
  pose (p := Sample.pass Sample.all_off Sample.silent_replica ∅).
  pose (r := _collect_metrics Sample.tables p no_sample S0).
  assert (H : match r.2 with
              | Ok out => submitted_metrics out !! "Key_buffer_size"
              | Raise _ => None
              end = Some d) by (vm_compute; reflexivity).
  destruct r as [S' [out|e]] eqn:E; [|discriminate].
  exact (submitted_descriptors_have_a_source Sample.tables p no_sample S0 S' out
           "Key_buffer_size" d E H).
Defined.

(** X13: the three tables [VARIABLES_VARS], [INNODB_VARS] and [BINLOG_VARS]
    are merged by every pass, whatever the options say, also with
    [disable_innodb_metrics] set: each of their keys that is not a synthetic
    one is in the catalogue a pass submits. *)
Theorem always_on_tables_submitted (T : const_tables) (inp : pass_inputs)
    (q : qcache_entry) (S0 S' : catalog) (out : pass_outputs) (k : string) :
  _collect_metrics T inp q S0 = (S', Ok out) ->
  is_Some (VARIABLES_VARS T !! k) \/ is_Some (INNODB_VARS T !! k)
    \/ is_Some (BINLOG_VARS T !! k) ->
  SYNTHETIC_VARS T !! k = None ->
  is_Some (submitted_metrics out !! k).
Proof.
  intros Hrun Hk Hsyn.
  assert (Hs : supplies k (_collect_metrics T inp q)).
  { unfold _collect_metrics. destruct Hk as [Hk | [Hk | Hk]].
    - do 1 (apply supplies_bind_r; intros ?).
      apply supplies_bind_l; [by apply supplies_update | auto 40 with retains].
    - do 2 (apply supplies_bind_r; intros ?).
      apply supplies_bind_l; [by apply supplies_update | auto 40 with retains].
    - do 3 (apply supplies_bind_r; intros ?).
      apply supplies_bind_l; [by apply supplies_update | auto 40 with retains]. }
  pose proof (Hs _ _ _ Hrun) as H.
  by apply collect_metrics_Ok in Hrun as (_ & _ & _ & _ & _ & -> & _).
Qed.

Lemma always_on_tables_submitted_witness :
  let o := {| disable_innodb_metrics := true; extra_innodb_metrics := false;
              extra_status_metrics := false; galera_cluster := false;
              extra_performance_metrics := false; schema_size_metrics := false;
              replication := false |} in
  let p := Sample.pass o Sample.silent_replica ∅ in
  let r := _collect_metrics Sample.tables p no_sample Sample.status_vars in
  exists out, r.2 = Ok out /\ is_Some (submitted_metrics out !! "Innodb_data_reads").
Proof.
  intros o p r.
  assert (H : match r.2 with Ok _ => True | Raise _ => False end) by (vm_compute; exact I).
  destruct r as [S' [out|e]] eqn:E; [|destruct H]. exists out. split; [done|].
  refine (always_on_tables_submitted Sample.tables p no_sample Sample.status_vars
            S' out "Innodb_data_reads" E _ eq_refl).
  right. left. vm_compute. eauto.
Defined.

(** ** More rules of the replication classifier *)

Lemma reads_off_not_on (s : string) : reads "off" s = true -> reads "on" s = false.
Proof.
  unfold reads. intros H. apply String.eqb_eq in H. rewrite H. reflexivity.
Qed.

Lemma reads_off_truthy (s : string) : reads "off" s = true -> str_truthy s = true.
Proof. destruct s; [discriminate | done]. Qed.

(** X14: below version 5.7.0 a server that is not a source is judged by
    [Slave_running] alone: OK when it reads "on", UNKNOWN when it is empty,
    CRITICAL for any other word; the flags of the two replication threads do
    not change the verdict. *)
Theorem replica_below_5_7_follows_slave_running (v : string) (inp : replication_inputs)
    (word : string) :
  _version_compatible v (5, 7, 0) = Ok false ->
  slave_running inp = Some word ->
  _is_master (slaves inp) (master_host inp) = Ok false ->
  slave_running_status v inp =
    Ok (if reads "on" word then OK else if str_truthy word then CRITICAL else UNKNOWN).
Proof.
  intros Hv Hw Hm.
  assert (Hfall : fallback_rules inp =
            Ok (if reads "on" word then OK else if str_truthy word then CRITICAL else UNKNOWN)).
  { unfold fallback_rules. rewrite Hm, Hw. cbn [bind].
    destruct (str_truthy word) eqn:Et; [done|].
    destruct (reads "on" word) eqn:Eon; [|done].
    apply reads_on_truthy in Eon. congruence. }
  unfold slave_running_status, thread_rules. rewrite Hv, Hw. cbn [bind].
  destruct (reads "off" word) eqn:Eoff; [|exact Hfall].
  rewrite (reads_off_not_on _ Eoff), (reads_off_truthy _ Eoff) in *.
  destruct (negb _); [|exact Hfall].
  destruct (negb _ && negb _); [done | exact Hfall].
Qed.

Lemma replica_below_5_7_follows_slave_running_witness :
  slave_running_status "5.6.40"
    {| slave_running := Some "OFF"; binlog_running := true; slaves := Some 0;
       slave_io_running := Some [("channel:default", "Yes")];
       slave_sql_running := Some [("channel:default", "Yes")];
       master_host := Some "source.example" |}
  = Ok (if reads "on" "OFF" then OK else if str_truthy "OFF" then CRITICAL else UNKNOWN).
Proof.
  apply replica_below_5_7_follows_slave_running; reflexivity.
Defined.

(** X15: a server on which no replication thread was collected and that
    counts as a source (replicas are connected, or no source host is known) is
    OK when replicas are connected and the binary log is on, and WARNING
    otherwise; this holds from 5.7.0 on, and below it whenever
    [Slave_running] was collected. *)
Theorem source_needs_replicas_and_binlog (v : string) (inp : replication_inputs)
    (b : bool) (n : Z) :
  _version_compatible v (5, 7, 0) = Ok b ->
  b = true \/ is_Some (slave_running inp) ->
  slave_io_running inp = None -> slave_sql_running inp = None ->
  slaves inp = Some n ->
  0 < n \/ from_option str_truthy false (master_host inp) = false ->
  slave_running_status v inp =
    Ok (if (0 <? n) && binlog_running inp then OK else WARNING).
Proof.
  intros Hv Hb Hio Hsql Hn Hsrc.
  assert (Hfall : fallback_rules inp =
            Ok (if (0 <? n) && binlog_running inp then OK else WARNING)).
  { unfold fallback_rules, _is_master. rewrite Hn. cbn [slaves_positive bind].
    assert ((0 <? n) || negb (from_option str_truthy false (master_host inp)) = true)
      as ->; [|done].
    destruct Hsrc as [Hpos | ->]; [|by rewrite orb_true_r].
    apply Z.ltb_lt in Hpos. by rewrite Hpos. }
  unfold slave_running_status, thread_rules. rewrite Hv, Hio, Hsql. cbn [bind collapse_flag].
  destruct b; [exact Hfall|].
  destruct Hb as [? | [word Hw]]; [done|]. rewrite Hw. cbn [bind].
  by destruct (reads "off" word).
Qed.

Lemma source_needs_replicas_and_binlog_witness :
  slave_running_status "8.0.21"
    {| slave_running := None; binlog_running := false; slaves := Some 0;
       slave_io_running := None; slave_sql_running := None; master_host := None |}
  = Ok (if (0 <? 0) && false then OK else WARNING).
Proof.
  apply (source_needs_replicas_and_binlog "8.0.21" _ true 0);
    [reflexivity | by left | reflexivity | reflexivity | reflexivity | by right].
Defined.

(** X16: for a server older than 5.7.0 on which [Slave_running] was not
    collected, the classifier raises [AttributeError]: it lowers the missing
    word.  With replication monitoring on, no pass against such a server
    ends well. *)
Theorem missing_slave_running_aborts_pass (T : const_tables) (inp : pass_inputs)
    (q : qcache_entry) (S0 : catalog) :
  replication (opts inp) = true ->
  _version_compatible (server_version inp) (5, 7, 0) = Ok false ->
  slave_running (replica inp) = None ->
  slave_running_status (server_version inp) (replica inp) = Raise AttributeError
  /\ forall S' out, _collect_metrics T inp q S0 <> (S', Ok out).
Proof.
  intros Hrep Hv Hs.
  assert (Hst : slave_running_status (server_version inp) (replica inp)
                = Raise AttributeError).
  { unfold slave_running_status, thread_rules. rewrite Hv. cbn [bind]. by rewrite Hs. }
  split; [done|]. intros S' out Hrun.
  apply collect_metrics_Ok in Hrun as (_ & _ & _ & _ & _ & _ & _ & Hsig).
  rewrite Hrep in Hsig. destruct Hsig as (s & Hsig & _).
  unfold replication_signals in Hsig. by rewrite Hst in Hsig.
Qed.

Lemma missing_slave_running_aborts_pass_witness :
  let inp := {| opts := Sample.replication_on; server_version := "5.6.40";
                innodb_engine_enabled := true; performance_schema_enabled := false;
                replica := Sample.silent_replica; merged_results := ∅ |} in
  slave_running_status (server_version inp) (replica inp) = Raise AttributeError
  /\ forall S' out,
       _collect_metrics Sample.tables inp no_sample Sample.status_vars <> (S', Ok out).
Proof.
  intros inp. by apply missing_slave_running_aborts_pass.
Defined.

(** ** What the InnoDB status parser returns *)

(** One turn of the loop, taken apart: the statement at the head of the
    body changes [buffer_id] at most; then either it raised, or the chain ran
    on the locals it left and the turn ended with the locals of the chain
    ([prev_line] apart, when the chain ended well). *)
Lemma scan_line_run raw st st' r :
  scan_line raw st = (st', r) ->
  exists st1,
    results st1 = results st /\ txn_seen st1 = txn_seen st
    /\ ((exists e, r = Raise e) /\ st' = st1
        \/ exists st2 r2,
             dispatch (Str.strip raw) (tokens (Str.strip raw))
               (txn_seen st1) (prev_line st1) (buffer_id st1) st1 = (st2, r2)
             /\ results st' = results st2 /\ txn_seen st' = txn_seen st2).
Proof.
  unfold scan_line. rewrite eff_bind_run.
  destruct ((if Str.startswith "---BUFFER POOL" (Str.strip raw)
             then Stmt.long_at (tokens (Str.strip raw)) 2 ≫= Stmt.set_buffer_id
             else Stmt.pass) st) as [st1 r1] eqn:Ehead.
  assert (Hst1 : results st1 = results st /\ txn_seen st1 = txn_seen st).
  { destruct (Str.startswith "---BUFFER POOL" (Str.strip raw)).
    - rewrite eff_bind_run in Ehead. unfold Stmt.long_at, lift in Ehead.
      destruct (let* tok := py_index _ 2 in Num.int_of_str tok);
        [unfold Stmt.set_buffer_id in Ehead|]; by injection Ehead as <- _.
    - by injection Ehead as <- _. }
  destruct Hst1 as [Hres Htxn]. intros H. exists st1. split; [done|]. split; [done|].
  destruct r1 as [[]|e].
  - cbv beta in H. rewrite eff_bind_run in H.
    destruct (dispatch _ _ _ _ _ st1) as [st2 [[]|e]] eqn:Edis.
    + injection H as <- _. right. by exists st2, (Ok tt).
    + injection H as <- _. right. by exists st2, (Raise e).
  - injection H as <- <-. left. split; eauto.
Qed.

(** A key that does not begin with 'Innodb_'. *)
Definition foreign (k : string) : Prop := Str.startswith "Innodb_" k = false.

#[local] Hint Extern 1 (~ foreign _) =>
  (let H := fresh in intros H; vm_compute in H; discriminate) : keeps.

Lemma dispatch_keeps_foreign line row txn prev bid :
  keeps foreign (dispatch line row txn prev bid).
Proof.
  unfold dispatch, ibuf_aio_reads, lock_structs, ibuf_merged_operations.
  repeat (apply keeps_if);
    first [ apply keeps_pending_normal_aio; intros k Hk;
            repeat (apply elem_of_cons in Hk as [-> | Hk];
                    [intros H; vm_compute in H; discriminate|]);
            by apply elem_of_nil in Hk
          | auto 20 with keeps ].
Qed.

Lemma scan_lines_keep_foreign lines st st' r k :
  scan_lines lines st = (st', r) -> foreign k -> results st' !! k = results st !! k.
Proof.
  revert st. induction lines as [|raw lines IH]; intros st Hrun Hk.
  - by injection Hrun as <- _.
  - simpl in Hrun. rewrite eff_bind_run in Hrun.
    destruct (scan_line raw st) as [st1 [[]|e]] eqn:Eline.
    + rewrite (IH _ Hrun Hk).
      apply scan_line_run in Eline as (sa & Hres & _ & [[[e He] _] | Hdis]); [done|].
      destruct Hdis as (sb & rb & Hdis & -> & _).
      apply dispatch_keeps_foreign in Hdis as [_ Hdis]. by rewrite Hdis, Hres.
    + injection Hrun as <- _.
      apply scan_line_run in Eline as (sa & Hres & _ & [[_ ->] | Hdis]); [by rewrite Hres|].
      destruct Hdis as (sb & rb & Hdis & -> & _).
      apply dispatch_keeps_foreign in Hdis as [_ Hdis]. by rewrite Hdis, Hres.
Qed.

Lemma checkpoint_age_keeps_foreign : keeps foreign checkpoint_age.
Proof. unfold checkpoint_age. auto 20 with keeps. Qed.

(** X17: the parser writes under keys that begin with 'Innodb_' only: what
    it returns never replaces a status variable of another family when it is
    merged into the results of the pass. *)
Theorem parser_keys_begin_with_innodb (q : innodb_query) (log : list log_event)
    (out : gmap string string) (k : string) :
  _get_stats_from_innodb_status q = (log, Ok out) ->
  is_Some (out !! k) ->
  Str.startswith "Innodb_" k = true.
Proof.
  destruct q as [| | |text]; simpl; try (by intros [= _ <-] [? ?]).
  unfold parse_innodb_status. rewrite eff_bind_run.
  destruct (scan_lines (Str.splitlines text) initial_scan) as [st [[]|e]] eqn:Escan;
    [|done].
  destruct (checkpoint_age st) as [st' [[]|e]] eqn:Eage; [|done].
  intros [= _ <-]. rewrite lookup_fmap. intros Hk.
  destruct (Str.startswith "Innodb_" k) eqn:Ek; [done|]. exfalso.
  apply checkpoint_age_keeps_foreign in Eage as [_ Hage].
  rewrite (Hage k Ek), (scan_lines_keep_foreign _ _ _ _ k Escan Ek) in Hk.
  simpl in Hk. rewrite lookup_empty in Hk. by destruct Hk.
Qed.

Lemma parser_keys_begin_with_innodb_witness :
  Str.startswith "Innodb_" "Innodb_history_list_length" = true.
Proof.
  pose (r := _get_stats_from_innodb_status (QueryText "History list length 12")).
  assert (H : match r.2 with
              | Ok out => is_Some (out !! "Innodb_history_list_length")
              | Raise _ => False
              end) by (vm_compute; eauto).
  destruct r as [log [out|e]] eqn:E; [|destruct H].
  exact (parser_keys_begin_with_innodb _ log out _ E H).
Defined.

(** X18: every value the parser returns is the decimal text of an integer:
    read back with [int], it gives the integer that was stored. *)
Theorem parser_values_read_back (q : innodb_query) (log : list log_event)
    (out : gmap string string) (k s : string) :
  _get_stats_from_innodb_status q = (log, Ok out) ->
  out !! k = Some s ->
  exists z, s = Str.of_Z z /\ Num.int_of_str s = Ok z.
Proof.
  destruct q as [| | |text]; simpl; try (by intros [= _ <-]).
  destruct (parse_innodb_status text initial_scan) as [st [[]|e]]; [|done].
  intros [= _ <-]. rewrite lookup_fmap. intros Hk.
  destruct (results st !! k) as [z|]; [|done]. injection Hk as <-.
  exists z. split; [done | apply int_of_str_of_Z].
Qed.

Lemma parser_values_read_back_witness :
  exists z, "12" = Str.of_Z z /\ Num.int_of_str "12" = Ok z.
Proof.
  pose (r := _get_stats_from_innodb_status (QueryText "History list length 12")).
  assert (H : match r.2 with
              | Ok out => out !! "Innodb_history_list_length"
              | Raise _ => None
              end = Some "12") by (vm_compute; reflexivity).
  destruct r as [log [out|e]] eqn:E; [|discriminate].
  exact (parser_values_read_back _ log out "Innodb_history_list_length" "12" E H).
Defined.

(** X19: in what the parser returns, the checkpoint age is the difference of
    the two log sequence numbers it returns, each read back with [int]. *)
Theorem checkpoint_age_is_lsn_difference (text : string) (log : list log_event)
    (out : gmap string string) :
  _get_stats_from_innodb_status (QueryText text) = (log, Ok out) ->
  exists scur slast sage cur last,
    out !! "Innodb_lsn_current" = Some scur
    /\ out !! "Innodb_lsn_last_checkpoint" = Some slast
    /\ out !! "Innodb_checkpoint_age" = Some sage
    /\ Num.int_of_str scur = Ok cur
    /\ Num.int_of_str slast = Ok last
    /\ Num.int_of_str sage = Ok (cur - last).
Proof.
  intros Hrun.
  apply checkpoint_age_always_reported in Hrun as (cur & last & Hc & Hl & Ha).
  exists (Str.of_Z cur), (Str.of_Z last), (Str.of_Z (cur - last)), cur, last.
  by rewrite !int_of_str_of_Z.
Qed.

Lemma checkpoint_age_is_lsn_difference_witness :
  let r := _get_stats_from_innodb_status
             (QueryText (Sample.text_of ["Log sequence number 272588624";
                                         "Last checkpoint at  272588600"])) in
  exists out scur slast sage cur last,
    r.2 = Ok out
    /\ out !! "Innodb_lsn_current" = Some scur
    /\ out !! "Innodb_lsn_last_checkpoint" = Some slast
    /\ out !! "Innodb_checkpoint_age" = Some sage
    /\ Num.int_of_str scur = Ok cur
    /\ Num.int_of_str slast = Ok last
    /\ Num.int_of_str sage = Ok (cur - last).
Proof.
  intros r.
  assert (H : match r.2 with Ok _ => True | Raise _ => False end) by (vm_compute; exact I).
  destruct r as [log [out|e]] eqn:E; [|destruct H].
  destruct (checkpoint_age_is_lsn_difference _ log out E)
    as (scur & slast & sage & cur & last & H').
  by exists out, scur, slast, sage, cur, last.
Defined.

(** *** The transaction counters wait for the line 'Trx id counter' *)

(** The entries written only once the transaction section was seen. *)
Definition txn_keys : list string :=
  ["Innodb_current_transactions"; "Innodb_active_transactions";
   "Innodb_row_lock_time"; "Innodb_lock_structs"; "Innodb_locked_transactions"].

(** A statement that leaves [txn_seen] as it is. *)
Definition quiet {A} (m : Scan A) : Prop :=
  forall st st' r, m st = (st', r) -> txn_seen st' = txn_seen st.

Create HintDb quiet discriminated.

Lemma quiet_ret {A} (a : A) : quiet (mret a : Scan A).
Proof. by intros st st' r [= <- _]. Qed.

Lemma quiet_lift {A} (r : pyres A) : quiet (lift r : Scan A).
Proof. by intros st st' r' [= <- _]. Qed.

Lemma quiet_bind {A B} (m : Scan A) (k : A -> Scan B) :
  quiet m -> (forall a, quiet (k a)) -> quiet (m ≫= k).
Proof.
  intros Hm Hk st st' r. rewrite eff_bind_run.
  destruct (m st) as [st1 [a|e]] eqn:E; intros H.
  - rewrite (Hk _ _ _ _ H). by eapply Hm.
  - injection H as <- _. by eapply Hm.
Qed.

Lemma quiet_setitem k v : quiet (Stmt.setitem k v).
Proof. by intros st st' r [= <- _]. Qed.

Lemma quiet_getitem k : quiet (Stmt.getitem k).
Proof.
  intros st st' r. unfold Stmt.getitem. by destruct (results st !! k); intros [= <- _].
Qed.

Lemma quiet_log ev : quiet (Stmt.log ev).
Proof. by intros st st' r [= <- _]. Qed.

Lemma quiet_try_except e body handler :
  quiet body -> quiet handler -> quiet (Stmt.try_except e body handler).
Proof.
  intros Hb Hh st st' r. unfold Stmt.try_except.
  destruct (body st) as [st1 [[]|e']] eqn:E.
  - intros [= <- _]. by eapply Hb.
  - destruct (Stmt.exn_eqb e e'); intros H.
    + rewrite (Hh _ _ _ H). by eapply Hb.
    + injection H as <- _. by eapply Hb.
Qed.

Lemma quiet_if {A} (c : bool) (m1 m2 : Scan A) :
  quiet m1 -> quiet m2 -> quiet (if c then m1 else m2).
Proof. by destruct c. Qed.

#[local] Hint Resolve quiet_ret quiet_lift quiet_bind quiet_setitem quiet_getitem
  quiet_log quiet_try_except quiet_if : quiet.
#[local] Hint Extern 2 (forall _, quiet _) => intro : quiet.
#[local] Hint Extern 1 (quiet Stmt.pass) => apply quiet_ret : quiet.
#[local] Hint Extern 1 (quiet (Stmt.long_at _ _)) => apply quiet_lift : quiet.
#[local] Hint Extern 1 (quiet (Stmt.long_float_at _ _)) => apply quiet_lift : quiet.
#[local] Hint Extern 1 (quiet (Stmt.store _ _ _)) => unfold Stmt.store : quiet.
#[local] Hint Extern 1 (quiet (Stmt.iadd _ _)) => unfold Stmt.iadd : quiet.

(** A line other than 'Trx id counter' leaves [txn_seen] as it is. *)
Lemma dispatch_quiet line row txn prev bid :
  at_start line "Trx id counter" = false -> quiet (dispatch line row txn prev bid).
Proof.
  intros Hline.
  unfold dispatch, ibuf_aio_reads, lock_structs, ibuf_merged_operations,
    pending_normal_aio, pending_normal_aio_body.
  rewrite Hline.
  repeat (first [apply quiet_if | apply quiet_try_except]); auto 20 with quiet.
Qed.

(** Before the transaction section no branch writes a transaction counter. *)
Lemma dispatch_keeps_txn_keys line row prev bid :
  keeps (fun k => k ∈ txn_keys) (dispatch line row false prev bid).
Proof.
  unfold dispatch, ibuf_aio_reads, ibuf_merged_operations. cbn [andb].
  repeat (apply keeps_if);
    first [ apply keeps_pending_normal_aio; intros k Hk;
            repeat (apply elem_of_cons in Hk as [-> | Hk]; [other_key|]);
            by apply elem_of_nil in Hk
          | auto 20 with keeps ].
Qed.

Lemma scan_lines_before_transactions lines st st' r :
  txn_seen st = false ->
  Forall (fun raw => Str.startswith "Trx id counter" (Str.strip raw) = false) lines ->
  scan_lines lines st = (st', r) ->
  txn_seen st' = false
  /\ forall k, k ∈ txn_keys -> results st' !! k = results st !! k.
Proof.
  revert st. induction lines as [|raw lines IH]; intros st Htxn Hall Hrun.
  - by injection Hrun as <- _.
  - apply Forall_cons in Hall as [Hraw Hall]. rewrite <- at_start_startswith in Hraw.
    simpl in Hrun. rewrite eff_bind_run in Hrun.
    destruct (scan_line raw st) as [st1 r1] eqn:Eline.
    assert (Hst1 : txn_seen st1 = false
                   /\ forall k, k ∈ txn_keys -> results st1 !! k = results st !! k).
    { apply scan_line_run in Eline as (sa & Hres & Hsa & [[_ ->] | Hdis]);
        [by rewrite Hres, Hsa|].
      destruct Hdis as (sb & rb & Hdis & -> & ->).
      rewrite Hsa, Htxn in Hdis.
      pose proof (dispatch_quiet _ _ _ _ _ Hraw _ _ _ Hdis) as Hq.
      apply dispatch_keeps_txn_keys in Hdis as [_ Hdis].
      split; [congruence|]. intros k Hk. by rewrite Hdis, Hres. }
    destruct Hst1 as [Htxn1 Hres1]. destruct r1 as [[]|e].
    + destruct (IH st1 Htxn1 Hall Hrun) as [Htxn' Hres'].
      split; [done|]. intros k Hk. by rewrite Hres', Hres1.
    + by injection Hrun as <- _.
Qed.

(** X20: the transaction counters (current and active transactions, row
    lock time, lock structs, locked transactions) are counted only after the
    line 'Trx id counter': a status text without such a line yields none of
    them, whatever '---TRANSACTION' or 'lock struct(s)' lines it holds. *)
Theorem transaction_counters_need_header (text : string) (log : list log_event)
    (out : gmap string string) (k : string) :
  Forall (fun raw => Str.startswith "Trx id counter" (Str.strip raw) = false)
    (Str.splitlines text) ->
  _get_stats_from_innodb_status (QueryText text) = (log, Ok out) ->
  k ∈ txn_keys ->
  out !! k = None.
Proof.
  intros Hall. simpl. unfold parse_innodb_status. rewrite eff_bind_run.
  destruct (scan_lines (Str.splitlines text) initial_scan) as [st [[]|e]] eqn:Escan;
    [|done].
  destruct (checkpoint_age st) as [st' [[]|e]] eqn:Eage; [|done].
  intros [= _ <-] Hk. rewrite lookup_fmap.
  apply scan_lines_before_transactions in Escan as [_ Hscan]; [|done..].
  assert (Hage : keeps (fun k => k ∈ txn_keys) checkpoint_age)
    by (unfold checkpoint_age; auto 20 with keeps).
  apply Hage in Eage as [_ Hres].
  by rewrite (Hres k Hk), (Hscan k Hk).
Qed.

Lemma transaction_counters_need_header_witness :
  let r := _get_stats_from_innodb_status
             (QueryText (Sample.text_of ["---TRANSACTION 421, ACTIVE 3 sec";
                                         "2 lock struct(s), heap size 1136"])) in
  exists out, r.2 = Ok out /\ out !! "Innodb_current_transactions" = None.
Proof.
  intros r.
  assert (H : match r.2 with Ok _ => True | Raise _ => False end) by (vm_compute; exact I).
  destruct r as [log [out|e]] eqn:E; [|destruct H]. exists out. split; [done|].
  refine (transaction_counters_need_header _ log out _ _ E _).
  - vm_compute. repeat constructor.
  - apply list_elem_of_here.
Defined.

(** After the line 'Trx id counter' the same two lines are counted. *)
Example transactions_counted_after_header :
  match (_get_stats_from_innodb_status
           (QueryText (Sample.text_of ["Trx id counter 4215";
                                       "---TRANSACTION 421, ACTIVE 3 sec";
                                       "2 lock struct(s), heap size 1136"]))).2 with
  | Ok out => Some (out !! "Innodb_current_transactions",
                    out !! "Innodb_active_transactions", out !! "Innodb_lock_structs")
  | Raise _ => None
  end = Some (Some "1", Some "1", Some "2").
Proof. vm_compute. reflexivity. Qed.

(** ** The space taken by the binary logs *)

Lemma master_logs_snoc rows k v :
  master_logs (rows ++ [(k, v)]) = <[k := v]> (master_logs rows).
Proof. unfold master_logs. by rewrite fold_left_app. Qed.

Lemma master_logs_None rows k : k ∉ rows.*1 -> master_logs rows !! k = None.
Proof.
  induction rows as [|[k' v'] rows IH] using rev_ind; intros Hk; [done|].
  rewrite master_logs_snoc. rewrite fmap_app in Hk. simpl in Hk.
  rewrite not_elem_of_app, not_elem_of_cons in Hk. destruct Hk as (Hk & Hne & _).
  rewrite lookup_insert_ne by done. auto.
Qed.

Lemma sum_snoc (l : list Z) (v : Z) : foldr Z.add 0 (l ++ [v]) = foldr Z.add 0 l + v.
Proof. induction l as [|x l IH]; simpl; lia. Qed.

(** X21: when the rows of [SHOW BINARY LOGS] name each file once, the space
    reported is the sum of the sizes of all rows. *)
Theorem binary_log_space_is_sum (rows : list (string * Z)) :
  NoDup rows.*1 ->
  _get_binary_log_stats (BinaryLogsRows rows) = Some (foldr Z.add 0 rows.*2).
Proof.
  simpl. intros Hnd. f_equal.
  induction rows as [|[k v] rows IH] using rev_ind; [done|].
  rewrite fmap_app in Hnd. simpl in Hnd.
  apply NoDup_app in Hnd as (Hnd & Hk & _).
  rewrite master_logs_snoc, map_fold_insert_L.
  - rewrite IH by done. rewrite fmap_app. apply eq_sym, sum_snoc.
  - intros. lia.
  - apply master_logs_None. intros Hin. apply (Hk k Hin). apply list_elem_of_here.
Qed.

Lemma binary_log_space_is_sum_witness :
  _get_binary_log_stats
    (BinaryLogsRows [("binlog.000001", 1024); ("binlog.000002", 512)])
  = Some (foldr Z.add 0 [("binlog.000001", 1024); ("binlog.000002", 512)].*2).
Proof.
  apply binary_log_space_is_sum. simpl.
  apply NoDup_cons. split; [|apply NoDup_singleton].
  rewrite list_elem_of_singleton. discriminate.
Defined.

(** A file named by two rows counts once, with the size of the later row. *)
Example binary_log_named_twice :
  _get_binary_log_stats
    (BinaryLogsRows [("binlog.000001", 1024); ("binlog.000001", 512)]) = Some 512.
Proof. vm_compute. reflexivity. Qed.

(** ** The cap on the legacy custom queries *)

(** X22: with a cap that is not negative, the queries that are run are the
    first ones of the list up to the cap, and the warning is given exactly
    when a query is left out.  A negative cap counts from the end of the
    list: the last queries are left out and the warning is always given. *)
Theorem custom_queries_cap {A} (queries : list A) (cap : Z) :
  (0 <= cap ->
   (custom_queries queries cap).1 = take (Z.to_nat cap) queries
   /\ ((custom_queries queries cap).2 = false <-> (custom_queries queries cap).1 = queries))
  /\ (cap < 0 ->
      (custom_queries queries cap).1 = take (length queries - Z.to_nat (- cap)) queries
      /\ (custom_queries queries cap).2 = true).
Proof.
  unfold custom_queries, py_slice_to. simpl. split; intros Hcap.
  - destruct (Z.leb_spec 0 cap) as [_|]; [|lia]. split; [done|].
    rewrite Z.ltb_ge. split.
    + intros Hlen. apply firstn_all2. lia.
    + intros Htake. apply (f_equal length) in Htake.
      rewrite length_take in Htake. lia.
  - destruct (Z.leb_spec 0 cap) as [|_]; [lia|]. split.
    + f_equal. lia.
    + apply Z.ltb_lt. lia.
Qed.

Lemma custom_queries_cap_witness :
  (custom_queries ["q1"; "q2"; "q3"] 2).1 = take (Z.to_nat 2) ["q1"; "q2"; "q3"]
  /\ ((custom_queries ["q1"; "q2"; "q3"] 2).2 = false
      <-> (custom_queries ["q1"; "q2"; "q3"] 2).1 = ["q1"; "q2"; "q3"]).
Proof.
  refine (proj1 (custom_queries_cap ["q1"; "q2"; "q3"] 2) _). lia.
Defined.

(** ** The link file of the release check *)

(** X23: the first test of the script never fires, a length is never
    negative: without a link file among the arguments the script ends with
    the [IndexError] of the subscript, not with its message about link
    files; with one link file it goes on with that file; with more it ends
    with its message about two link files. *)
Theorem link_file_selection (argv : list string) :
  let found := List.filter ReleaseHashCheck.is_link_file (drop 1 argv) in
  ReleaseHashCheck.link_file_path argv =
    match found with
    | [] => inl ReleaseHashCheck.IndexFailure
    | [f] => inr f
    | _ =>
        inl (ReleaseHashCheck.Failure
               "There should never be two different link files modified at the same time.")
    end.
Proof.
  unfold ReleaseHashCheck.link_file_path.
  by destruct (List.filter _ (drop 1 argv)) as [|f [|g rest]].
Qed.

Example no_link_file_gives_index_error :
  ReleaseHashCheck.link_file_path ["release-hash-check.py"; "mysql/setup.py"]
  = inl ReleaseHashCheck.IndexFailure.
Proof. reflexivity. Qed.

Example one_link_file_is_selected :
  ReleaseHashCheck.link_file_path
    ["release-hash-check.py"; "mysql/setup.py"; ".in-toto/tag.57ce2495.link"]
  = inr ".in-toto/tag.57ce2495.link".
Proof. reflexivity. Qed.

(** ** The replica status, per channel *)

Section ReplicaStatsFacts.

Variable V : Type.
Variable truthy : V -> bool.
Variable text : V -> string.

(** One row: a column that is not NULL gets the row's value under the
    row's tag, every other entry stays. *)
Lemma store_row_lookup tag (r : status_row V) acc key :
  store_row V tag r acc !! key =
    match r !! key with
    | Some (Some v) => Some (<[tag := v]> (default ∅ (acc !! key)))
    | _ => acc !! key
    end.
Proof.
  unfold store_row. revert key.
  set (f := fun (key : string) (value : option V) (res : gmap string (gmap string V)) =>
              match value with
              | Some v => <[key := <[tag := v]> (default ∅ (res !! key))]> res
              | None => res
              end).
  apply (map_fold_weak_ind
           (fun (res : gmap string (gmap string V)) (m : gmap string (option V)) =>
              forall key : string,
                res !! key = match m !! key with
                             | Some (Some v) => Some (<[tag := v]> (default ∅ (acc !! key)))
                             | _ => acc !! key
                             end) f acc); subst f; cbv beta.
  - intros key. by rewrite lookup_empty.
  - intros i x m res Hi IH key. destruct (decide (key = i)) as [-> | Hne].
    + rewrite lookup_insert_eq. pose proof (IH i) as IHi. rewrite Hi in IHi.
      destruct x as [v|]; [|done]. by rewrite lookup_insert_eq, IHi.
    + rewrite lookup_insert_ne by done. rewrite <- IH.
      destruct x as [v|]; [|done]. by rewrite lookup_insert_ne.
Qed.

(** The value read under a column and a tag. *)
Definition replica_value (out : gmap string (replica_entry V)) (key tag : string)
  : option V :=
  match out !! key with
  | Some (PerChannel d) => d !! tag
  | _ => None
  end.

(** The value a row gives for a column under a tag, if any. *)
Definition row_value (replication_channel : option string) (key tag : string)
    (r : status_row V) : option V :=
  if decide (channel_tag (channel_of V truthy text replication_channel r) = tag)
  then mjoin (r !! key) else None.

Lemma store_rows_value replication_channel rows acc key tag :
  (fold_left
     (fun acc r =>
        store_row V (channel_tag (channel_of V truthy text replication_channel r)) r acc)
     rows acc !! key) ≫= (.!! tag)
  = match last (omap (row_value replication_channel key tag) rows) with
    | Some v => Some v
    | None => (acc !! key) ≫= (.!! tag)
    end.
Proof.
  revert acc. induction rows as [|r rows IH]; intros acc; [done|].
  cbn [fold_left omap list_omap]. rewrite IH, store_row_lookup. unfold row_value at 2.
  destruct (r !! key) as [[v|]|] eqn:Er; cbn [mjoin option_join option_bind mbind].
  - destruct (decide _) as [<- | Hne]; simpl.
    + rewrite last_cons, lookup_insert_eq. by destruct (last _).
    + rewrite lookup_insert_ne by done.
      destruct (last _); [done|]. by destruct (acc !! key).
  - by destruct (decide _).
  - by destruct (decide _).
Qed.

Lemma store_rows_absent replication_channel rows acc key :
  Forall (fun r : status_row V => mjoin (r !! key) = None) rows ->
  fold_left
    (fun acc r =>
       store_row V (channel_tag (channel_of V truthy text replication_channel r)) r acc)
    rows acc !! key
  = acc !! key.
Proof.
  revert acc. induction rows as [|r rows IH]; intros acc Hall; [done|].
  apply Forall_cons in Hall as [Hr Hall]. simpl. rewrite IH by done.
  rewrite store_row_lookup. by destruct (r !! key) as [[v|]|].
Qed.

(** X24: the value reported for a column under a channel tag is the value
    of the last row of that channel in which the column is not NULL; it is
    missing when there is no such row. *)
Theorem replica_value_is_last_row (replication_channel : option string)
    (rows : list (status_row V)) (mq : master_status_query V) (key tag : string) :
  key <> "Binlog_enabled" ->
  replica_value
    (_get_replica_stats V truthy text replication_channel (SlaveStatusRows V rows) mq).2
    key tag
  = last (omap (row_value replication_channel key tag) rows).
Proof.
  intros Hkey. unfold replica_value.
  assert (Hout :
    (_get_replica_stats V truthy text replication_channel (SlaveStatusRows V rows) mq).2
      !! key
    = PerChannel <$> (store_rows V truthy text replication_channel rows !! key)).
  { unfold _get_replica_stats.
    destruct mq as [binlog_results|]; simpl; [|by rewrite lookup_fmap].
    destruct (row_truthy V binlog_results); [|by rewrite lookup_fmap].
    by rewrite lookup_insert_ne, lookup_fmap. }
  rewrite Hout. unfold store_rows.
  pose proof (store_rows_value replication_channel rows ∅ key tag) as H.
  rewrite lookup_empty in H. simpl in H.
  destruct (fold_left _ rows ∅ !! key) as [d|]; simpl in *.
  - rewrite H. by destruct (last _).
  - by destruct (last _).
Qed.

(** X25: a column that is NULL (or missing) in every row is not reported at
    all; so a replica whose lag is NULL reports no lag. *)
Theorem null_columns_are_not_reported (replication_channel : option string)
    (rows : list (status_row V)) (mq : master_status_query V) (key : string) :
  key <> "Binlog_enabled" ->
  Forall (fun r : status_row V => mjoin (r !! key) = None) rows ->
  (_get_replica_stats V truthy text replication_channel (SlaveStatusRows V rows) mq).2
    !! key = None.
Proof.
  intros Hkey Hall.
  assert (Hrows : store_rows V truthy text replication_channel rows !! key = None).
  { unfold store_rows. by rewrite store_rows_absent. }
  unfold _get_replica_stats. destruct mq as [binlog_results|]; simpl.
  - destruct (row_truthy V binlog_results).
    + by rewrite lookup_insert_ne, lookup_fmap, Hrows.
    + by rewrite lookup_fmap, Hrows.
  - by rewrite lookup_fmap, Hrows.
Qed.

End ReplicaStatsFacts.

(** Two rows, one per channel, values as text. *)
Definition two_channels : list (status_row string) :=
  [ {[ "Channel_Name" := Some ""; "Seconds_Behind_Master" := Some "4";
       "Last_Error" := None ]};
    {[ "Channel_Name" := Some "east"; "Seconds_Behind_Master" := None;
       "Last_Error" := None ]} ].

Lemma replica_value_is_last_row_witness :
  replica_value string
    (_get_replica_stats string str_truthy id None (SlaveStatusRows string two_channels)
       (MasterStatusRow string None)).2
    "Seconds_Behind_Master" "channel:default"
  = last (omap (row_value string str_truthy id None "Seconds_Behind_Master"
                  "channel:default") two_channels).
Proof.
  apply replica_value_is_last_row. discriminate.
Defined.

Example lag_of_default_channel :
  replica_value string
    (_get_replica_stats string str_truthy id None (SlaveStatusRows string two_channels)
       (MasterStatusRow string None)).2
    "Seconds_Behind_Master" "channel:default" = Some "4".
Proof. vm_compute. reflexivity. Qed.

Lemma null_columns_are_not_reported_witness :
  (_get_replica_stats string str_truthy id None (SlaveStatusRows string two_channels)
     (MasterStatusRow string None)).2 !! "Last_Error" = None.
Proof.
  apply null_columns_are_not_reported; [discriminate|].
  repeat constructor.
Defined.

(** ** The history a pass leaves *)

(** With the two later calls ending well, the body is the part of [check]
    modelled above. *)
Lemma check_body_ends_well (T : const_tables) inp self S0 :
  check_body T inp (Ok tt) (Ok tt) self S0 = check T inp self S0.
Proof.
  unfold check_body, check.
  by destruct (_collect_metrics T inp _ S0) as [S1 [out|e]].
Qed.

(** X26: the sample is stored once [_collect_metrics] and
    [_collect_system_metrics] have ended well: on results holding the three
    query-cache counters the store then holds, under the identity of the
    instance, exactly the three integers read, the baseline of the next pass,
    also when the custom queries that run after the put raise; when
    [_collect_metrics] or [_collect_system_metrics] raises, the whole store
    is left as it was. *)
Theorem check_updates_history (T : const_tables) (inp : pass_inputs)
    (system_metrics custom_queries_run : pyres unit)
    (self : check_self) (S0 : catalog) :
  let q := qcache (_set_qcache_stats self) in
  let r := check_body T inp system_metrics custom_queries_run self S0 in
  (forall out u hits inserts not_cached,
      (_collect_metrics T inp q S0).2 = Ok out ->
      system_metrics = Ok u ->
      merged_results inp !! "Qcache_hits" = Some hits ->
      merged_results inp !! "Qcache_inserts" = Some inserts ->
      merged_results inp !! "Qcache_not_cached" = Some not_cached ->
      exists h i n,
        to_int hits = Ok h /\ to_int inserts = Ok i /\ to_int not_cached = Ok n
        /\ qcache_stats r.1.1 !! _get_host_key (instance self)
           = Some {| _qcache_hits := Some h; _qcache_inserts := Some i;
                     _qcache_not_cached := Some n |})
  /\ (forall e,
      (_collect_metrics T inp q S0).2 = Raise e \/ system_metrics = Raise e ->
      qcache_stats r.1.1 = qcache_stats self)
  /\ (forall out, r.2 = Ok out ->
      (_collect_metrics T inp q S0).2 = Ok out
      /\ system_metrics = Ok tt /\ custom_queries_run = Ok tt).
Proof.
  intros q r. subst q r. unfold check_body.
  destruct (_collect_metrics T inp _ S0) as [S1 [out1|e1]] eqn:Hrun; cbn [fst snd].
  - split; [|split].
    + intros out u hits inserts not_cached [= <-] -> Hh Hi Hn.
      assert (Hstore :
        qcache_stats
          (match custom_queries_run with
           | Ok _ =>
               (_put_qcache_stats
                  {| instance := instance (_set_qcache_stats self);
                     qcache_stats := qcache_stats (_set_qcache_stats self);
                     qcache := qcache_after out1 |}, S1, Ok out1)
           | Raise e =>
               (_put_qcache_stats
                  {| instance := instance (_set_qcache_stats self);
                     qcache_stats := qcache_stats (_set_qcache_stats self);
                     qcache := qcache_after out1 |}, S1, Raise e)
           end).1.1 !! _get_host_key (instance self)
        = Some (qcache_after out1)).
      { destruct custom_queries_run as [[]|e]; cbn; by rewrite lookup_insert_eq. }
      rewrite Hstore.
      apply collect_metrics_Ok in Hrun as ([res' q'] & _ & Hsyn & _ & Hq & _).
      apply compute_synthetic_Ok in Hsyn as [([Hx | [Hx | Hx]] & _) | Hsyn];
        try congruence.
      destruct Hsyn as (hits' & ins' & nc' & u' & h & i & n & Ha & Hb & Hc & _ & Hth & Hti
                        & Htn & Hq' & _).
      simplify_eq. exists h, i, n. repeat split; try done. by rewrite Hq.
    + intros e [? | ->]; done.
    + intros out. destruct system_metrics as [[]|e]; [|done].
      destruct custom_queries_run as [[]|e]; [|done]. by intros [= <-].
  - split; [done|]. split; [done|]. done.
Qed.

Lemma check_updates_history_witness :
  let p := Sample.pass Sample.all_off Sample.silent_replica
             (Sample.qcache_results "50" "30" "20") in
  let r := check_body Sample.tables p (Ok tt) (Raise TypeError) Sample.fresh_check
             Sample.status_vars in
  r.2 = Raise TypeError
  /\ exists h i n,
       to_int (VStr "50") = Ok h /\ to_int (VStr "30") = Ok i /\ to_int (VStr "20") = Ok n
       /\ qcache_stats r.1.1 !! _get_host_key (instance Sample.fresh_check)
          = Some {| _qcache_hits := Some h; _qcache_inserts := Some i;
                    _qcache_not_cached := Some n |}.
Proof.
  intros p r. split; [vm_compute; reflexivity|].
  pose (c := _collect_metrics Sample.tables p (qcache (_set_qcache_stats Sample.fresh_check))
               Sample.status_vars).
  assert (H : match c.2 with Ok _ => True | Raise _ => False end) by (vm_compute; exact I).
  destruct (c.2) as [out|e] eqn:E; [|destruct H].
  exact (proj1 (check_updates_history Sample.tables p (Ok tt) (Raise TypeError)
                  Sample.fresh_check Sample.status_vars)
           out tt (VStr "50") (VStr "30") (VStr "20") E eq_refl eq_refl eq_refl eq_refl).
Defined.

(** ** The exceptions the parser can raise *)

(** What reading a token can raise: a missing token, a token that is no
    number, a number too large for an integer. *)
Definition parse_error (e : exn) : Prop :=
  e = IndexError \/ e = ValueError \/ e = OverflowError.

Definition raises_only {A} (m : Scan A) : Prop :=
  forall st st' e, m st = (st', Raise e) -> parse_error e.

Create HintDb raises_only discriminated.

Lemma float_of_str_raises s e : Num.float_of_str s = Raise e -> e = ValueError.
Proof.
  unfold Num.float_of_str. repeat case_match; by intros [= <-].
Qed.

Lemma int_of_float_raises x e :
  Num.int_of_float x = Raise e -> e = OverflowError \/ e = ValueError.
Proof. destruct x; simpl; intros [= <-]; auto. Qed.

Lemma ro_ret {A} (a : A) : raises_only (mret a : Scan A).
Proof. by intros st st' e. Qed.

Lemma ro_bind {A B} (m : Scan A) (k : A -> Scan B) :
  raises_only m -> (forall a, raises_only (k a)) -> raises_only (m ≫= k).
Proof.
  intros Hm Hk st st' e. rewrite eff_bind_run.
  destruct (m st) as [st1 [a|e1]] eqn:E; intros H.
  - by eapply Hk.
  - injection H as <- <-. by eapply Hm.
Qed.

Lemma ro_setitem k v : raises_only (Stmt.setitem k v).
Proof. by intros st st' e. Qed.

Lemma ro_getitem k : raises_only (Stmt.getitem k).
Proof. intros st st' e. unfold Stmt.getitem. by destruct (results st !! k). Qed.

Lemma ro_log ev : raises_only (Stmt.log ev).
Proof. by intros st st' e. Qed.

Lemma ro_set_txn_seen b : raises_only (Stmt.set_txn_seen b).
Proof. by intros st st' e. Qed.

Lemma ro_set_prev_line l : raises_only (Stmt.set_prev_line l).
Proof. by intros st st' e. Qed.

Lemma ro_set_buffer_id n : raises_only (Stmt.set_buffer_id n).
Proof. by intros st st' e. Qed.

Lemma ro_long_at row i : raises_only (Stmt.long_at row i).
Proof.
  intros st st' e. unfold Stmt.long_at, lift, py_index.
  destruct (row !! i) as [tok|]; simpl; intros [= _ H].
  - apply int_of_str_raises in H as ->. right. by left.
  - subst e. by left.
Qed.

Lemma ro_long_float_at row i : raises_only (Stmt.long_float_at row i).
Proof.
  intros st st' e. unfold Stmt.long_float_at, lift, py_index.
  destruct (row !! i) as [tok|]; simpl; [|intros [= _ <-]; by left].
  destruct (Num.float_of_str tok) as [x|e1] eqn:Ef; simpl; intros [= _ H].
  - apply int_of_float_raises in H as [-> | ->]; [right; by right | right; by left].
  - subst e1. apply float_of_str_raises in Ef as ->. right. by left.
Qed.

Lemma ro_store k row i : raises_only (Stmt.store k row i).
Proof. apply ro_bind; [apply ro_long_at|]. intros v. apply ro_setitem. Qed.

Lemma ro_iadd k e : raises_only e -> raises_only (Stmt.iadd k e).
Proof.
  intros He. apply ro_bind; [apply ro_getitem|]. intros old.
  apply ro_bind; [done|]. intros v. apply ro_setitem.
Qed.

Lemma ro_if {A} (c : bool) (m1 m2 : Scan A) :
  raises_only m1 -> raises_only m2 -> raises_only (if c then m1 else m2).
Proof. by destruct c. Qed.

Lemma ro_pending_normal_aio line row : raises_only (pending_normal_aio line row).
Proof.
  intros st st' e H. destruct (pending_normal_aio_total line row st) as (st1 & H1 & _).
  congruence.
Qed.

#[local] Hint Resolve ro_ret ro_bind ro_setitem ro_getitem ro_log ro_set_txn_seen
  ro_set_prev_line ro_set_buffer_id ro_long_at ro_long_float_at ro_store ro_iadd ro_if
  ro_pending_normal_aio : raises_only.
#[local] Hint Extern 2 (forall _, raises_only _) => intro : raises_only.
#[local] Hint Extern 1 (raises_only Stmt.pass) => apply ro_ret : raises_only.

Lemma dispatch_raises_only line row txn prev bid :
  raises_only (dispatch line row txn prev bid).
Proof.
  unfold dispatch, ibuf_aio_reads, lock_structs, ibuf_merged_operations.
  repeat (apply ro_if); auto 20 with raises_only.
Qed.

Lemma scan_line_raises_only raw : raises_only (scan_line raw).
Proof.
  unfold scan_line. apply ro_bind; [apply ro_if; auto with raises_only|]. intros _.
  apply ro_bind; [|auto with raises_only].
  intros st st' e. apply dispatch_raises_only.
Qed.

Lemma scan_lines_raises_only lines : raises_only (scan_lines lines).
Proof.
  induction lines as [|raw lines IH]; simpl; [apply ro_ret|].
  apply ro_bind; [apply scan_line_raises_only | done].
Qed.

(** X27: whatever the status text, the parser raises nothing but
    [IndexError] (a line shorter than its pattern), [ValueError] (a token
    that is no number) and [OverflowError] (an infinite wait time). *)
Theorem parser_raises_only_token_errors (q : innodb_query) (log : list log_event)
    (e : exn) :
  _get_stats_from_innodb_status q = (log, Raise e) ->
  e = IndexError \/ e = ValueError \/ e = OverflowError.
Proof.
  destruct q as [| | |text]; simpl; try done.
  destruct (parse_innodb_status text initial_scan) as [st [[]|e']] eqn:Hrun; [done|].
  intros [= _ <-]. revert Hrun. unfold parse_innodb_status. rewrite eff_bind_run.
  destruct (scan_lines (Str.splitlines text) initial_scan) as [st1 [[]|e1]] eqn:Escan.
  - destruct (checkpoint_age_run st1) as (? & ? & _ & _ & st2 & -> & _). done.
  - intros [= _ <-]. by eapply scan_lines_raises_only.
Qed.

Lemma parser_raises_only_token_errors_witness :
  OverflowError = IndexError \/ OverflowError = ValueError \/ OverflowError = OverflowError.
Proof.
  pose (r := _get_stats_from_innodb_status
               (QueryText "--Thread 1 has waited at x.c line 1 for inf seconds the semaphore:")).
  assert (H : r.2 = Raise OverflowError) by (vm_compute; reflexivity).
  destruct r as [log res] eqn:E. simpl in H. subst res.
  exact (parser_raises_only_token_errors _ log OverflowError E).
Defined.
